(** * Codebase Time Machine: the git ingestion pipeline and the query gateway

    A shallow embedding of
      - the parser route ([sanitizeRepositoryPath], [sanitizeFilePath],
        [checkRepositorySize], [getDirectorySize], [detectLanguage],
        [calculateComplexity], [parseGitLog]), and
      - [src/app/api/git/[repositoryId]/log/route.ts]
        ([sanitizeGitParameter], [GET], [POST]).

    Conventions of the embedding.
      - A JavaScript string is a [string]; every [ascii] stands for one
        UTF-16 code unit below 256 (Latin-1), so the white space of [\s]
        and [trim] is TAB, LF, VT, FF, CR, SPACE and U+00A0.
      - A JavaScript number is a [jsnum]: an integer held by a double,
        an infinity or [NaN]. Fractions never arise on the modelled
        paths. [parseInt], [*] and [+] round their exact result to the
        nearest double, ties to even, and overflow to an infinity; [-0]
        is not told apart from [0], which no modelled operation does
        either. Counts of lines, of characters and of bytes stay exact
        integers: the output buffer and the length of a string keep them
        far below 2^53.
      - [throw new Error(msg)] is [Err msg]; the file system and the
        [exec] subprocess are oracles gathered in a [World]; every
        subprocess that is started is appended to a trace.
      - [while] loops take fuel; running out of fuel is reported as
        [OutOfFuel], never as a result. *)

From Stdlib Require Import ZArith List Bool Ascii String Lia Arith.
From Stdlib Require Import Numbers.DecimalString.
From Stdlib Require Numbers.DecimalPos.
Import ListNotations.

Set Warnings "-register-all".

Open Scope string_scope.
Open Scope Z_scope.

(* ------------------------------------------------------------------ *)
(** ** JavaScript values *)

Inductive result (A : Type) : Type :=
| Ok (a : A)
| Err (msg : string).
Arguments Ok {A} a.
Arguments Err {A} msg.

Definition bind {A B : Type} (r : result A) (k : A -> result B) : result B :=
  match r with
  | Ok a => k a
  | Err m => Err m
  end.

Notation "'let*' x ':=' r 'in' k" := (bind r (fun x => k))
  (at level 10, x pattern, r at level 100, k at level 200).

Inductive jsnum : Type :=
| Num (z : Z)
| NaN
| Infinity (negative : bool).

Module JS.

(** The double nearest to the natural number [m], ties to even: below
    2^53 it is [m]; above, [m] keeps its 53 leading bits. *)
Definition roundMagnitude (m : Z) : Z :=
  let e := Z.max 0 (Z.log2 m - 52) in
  let q := Z.shiftr m e in
  let r := m - Z.shiftl q e in
  let half := Z.shiftl 1 (e - 1) in
  let q :=
    if e =? 0 then q
    else if (half <? r) || ((half =? r) && Z.odd q) then q + 1 else q in
  Z.shiftl q e.

(** The double that an exact integer result becomes: rounded, and an
    infinity from 2^1024 on. *)
Definition fromZ (z : Z) : jsnum :=
  let m := roundMagnitude (Z.abs z) in
  if 2 ^ 1024 <=? m then Infinity (z <? 0)
  else Num (Z.sgn z * m).

(** [x * y] on numbers. *)
Definition mul (x y : jsnum) : jsnum :=
  match x, y with
  | Num a, Num b => fromZ (a * b)
  | Num a, Infinity t => if a =? 0 then NaN else Infinity (xorb (a <? 0) t)
  | Infinity s, Num b => if b =? 0 then NaN else Infinity (xorb s (b <? 0))
  | Infinity s, Infinity t => Infinity (xorb s t)
  | _, _ => NaN
  end.

(** [x + y] on numbers. A double plus zero is that double, which is
    written out so that it holds for every [Num]. *)
Definition add (x y : jsnum) : jsnum :=
  match x, y with
  | Num a, Num b =>
      if b =? 0 then Num a else if a =? 0 then Num b else fromZ (a + b)
  | Num _, Infinity t => Infinity t
  | Infinity s, Num _ => Infinity s
  | Infinity s, Infinity t => if Bool.eqb s t then Infinity s else NaN
  | _, _ => NaN
  end.

(** [Math.max(x, y)]: [NaN] as soon as one argument is. *)
Definition max (x y : jsnum) : jsnum :=
  match x, y with
  | Num a, Num b => Num (Z.max a b)
  | Num a, Infinity t => if t then Num a else Infinity false
  | Infinity s, Num b => if s then Num b else Infinity false
  | Infinity s, Infinity t => Infinity (s && t)
  | _, _ => NaN
  end.

(** [x <= y], [x > y]: every comparison with [NaN] is false. *)
Definition leb (x y : jsnum) : bool :=
  match x, y with
  | Num a, Num b => a <=? b
  | Num _, Infinity t => negb t
  | Infinity s, Num _ => s
  | Infinity s, Infinity t => s || negb t
  | _, _ => false
  end.

Definition gtb (x y : jsnum) : bool :=
  match x, y with
  | Num a, Num b => b <? a
  | Num _, Infinity t => t
  | Infinity s, Num _ => negb s
  | Infinity s, Infinity t => negb s && t
  | _, _ => false
  end.

(** [x || 0] on a number: [NaN] and [0] are falsy. *)
Definition or_zero (x : jsnum) : jsnum :=
  match x with
  | Num a => Num a
  | NaN => Num 0
  | Infinity s => Infinity s
  end.

(** Template-literal rendering of an integer. *)
Definition string_of_Z (z : Z) : string :=
  NilZero.string_of_int (Z.to_int z).

(** [String(x)]; the digits of an integer are those of JavaScript below
    10^21, and the one caller prints integers from 1 to 1000. *)
Definition to_string (x : jsnum) : string :=
  match x with
  | Num a => string_of_Z a
  | NaN => "NaN"
  | Infinity s => if s then "-Infinity" else "Infinity"
  end.

(** *** Characters *)

Definition code (c : ascii) : N := N_of_ascii c.

Definition is_ws (c : ascii) : bool :=
  let n := code c in
  ((9 <=? n) && (n <=? 13) || (n =? 32) || (n =? 160))%N.

Definition is_digit (c : ascii) : bool :=
  let n := code c in ((48 <=? n) && (n <=? 57))%N.

Definition is_upper (c : ascii) : bool :=
  let n := code c in ((65 <=? n) && (n <=? 90))%N.

Definition is_lower (c : ascii) : bool :=
  let n := code c in ((97 <=? n) && (n <=? 122))%N.

(** [\w]. *)
Definition is_word (c : ascii) : bool :=
  is_digit c || is_upper c || is_lower c || (code c =? 95)%N.

Definition to_lower_char (c : ascii) : ascii :=
  if is_upper c then ascii_of_N (code c + 32) else c.

(** *** Strings *)

Definition is_empty (s : string) : bool :=
  match s with
  | EmptyString => true
  | String _ _ => false
  end.

Fixpoint toLowerCase (s : string) : string :=
  match s with
  | EmptyString => EmptyString
  | String c r => String (to_lower_char c) (toLowerCase r)
  end.

Definition startsWith (s pre : string) : bool := String.prefix pre s.

Fixpoint endsWithChar (s : string) (c : ascii) : bool :=
  match s with
  | EmptyString => false
  | String a EmptyString => Ascii.eqb a c
  | String _ r => endsWithChar r c
  end.

(** [s.includes(sub)]. *)
Fixpoint includes (s sub : string) : bool :=
  String.prefix sub s ||
  match s with
  | EmptyString => false
  | String _ r => includes r sub
  end.

Fixpoint trimStart (s : string) : string :=
  match s with
  | EmptyString => EmptyString
  | String c r => if is_ws c then trimStart r else s
  end.

Fixpoint trimEnd (s : string) : string :=
  match s with
  | EmptyString => EmptyString
  | String c r =>
      let r' := trimEnd r in
      if is_ws c && is_empty r' then EmptyString else String c r'
  end.

Definition trim (s : string) : string := trimEnd (trimStart s).

(** [s.split(sep)] for a one-character separator. *)
Fixpoint split (sep : ascii) (s : string) : list string :=
  match s with
  | EmptyString => [EmptyString]
  | String c r =>
      if Ascii.eqb c sep then EmptyString :: split sep r
      else match split sep r with
           | h :: t => String c h :: t
           | [] => [String c EmptyString]
           end
  end.

Fixpoint dropWhile (p : ascii -> bool) (s : string) : string :=
  match s with
  | EmptyString => EmptyString
  | String c r => if p c then dropWhile p r else s
  end.

Fixpoint takeWhile (p : ascii -> bool) (s : string) : string :=
  match s with
  | EmptyString => EmptyString
  | String c r => if p c then String c (takeWhile p r) else EmptyString
  end.

(** [s.split(/\s+/)]: the pieces between maximal runs of white space. *)
Fixpoint split_ws (s : string) : list string :=
  match s with
  | EmptyString => [EmptyString]
  | String c r =>
      if is_ws c then
        match r with
        | String c' _ => if is_ws c' then split_ws r else EmptyString :: split_ws r
        | EmptyString => EmptyString :: split_ws r
        end
      else match split_ws r with
           | h :: t => String c h :: t
           | [] => [String c EmptyString]
           end
  end.

Fixpoint join (sep : string) (l : list string) : string :=
  match l with
  | [] => EmptyString
  | [a] => a
  | a :: r => a ++ sep ++ join sep r
  end.

(** *** [parseInt(s)] without a radix *)

Definition digit_val (c : ascii) : option Z :=
  if is_digit c then Some (Z.of_N (code c) - 48)
  else if is_lower c then Some (Z.of_N (code c) - 87)
  else if is_upper c then Some (Z.of_N (code c) - 55)
  else None.

(** The longest prefix of digits of the radix, read as an exact number;
    [None] when there is no digit. *)
Fixpoint digits (radix : Z) (acc : option Z) (s : string) : option Z :=
  match s with
  | EmptyString => acc
  | String c r =>
      match digit_val c with
      | Some d =>
          if d <? radix
          then digits radix (Some (match acc with Some a => a * radix + d | None => d end)) r
          else acc
      | None => acc
      end
  end.

Definition strip_hex (s : string) : option string :=
  match s with
  | String "0" (String "x" r) => Some r
  | String "0" (String "X" r) => Some r
  | _ => None
  end.

Definition parseInt (s : string) : jsnum :=
  let s := trimStart s in
  let '(sign, s) :=
    match s with
    | String "-" r => (-1, r)
    | String "+" r => (1, r)
    | _ => (1, s)
    end in
  let v := match strip_hex s with
           | Some r => digits 16 None r
           | None => digits 10 None s
           end in
  match v with
  | Some n => fromZ (sign * n)
  | None => NaN
  end.

(** [parseInt(x)] where [x] may be [undefined]. *)
Definition parseInt_opt (s : option string) : jsnum :=
  match s with
  | Some s => parseInt s
  | None => parseInt "undefined"
  end.

End JS.


(* ------------------------------------------------------------------ *)
(** ** Node's [path] module (POSIX flavour)

    Library code, modelled from its documented behaviour: a path is cut
    at ["/"], empty and ["."] segments are dropped and [".."] removes the
    segment before it. *)

Module NodePath.

(** [normalizeString]: [acc] is the stack of segments kept so far, most
    recent first. *)
Fixpoint normalizeSegments (allowAboveRoot : bool) (acc segs : list string)
  : list string :=
  match segs with
  | [] => rev acc
  | s :: r =>
      if String.eqb s "" || String.eqb s "." then
        normalizeSegments allowAboveRoot acc r
      else if String.eqb s ".." then
        match acc with
        | top :: acc' =>
            if String.eqb top ".."
            then normalizeSegments allowAboveRoot
                   (if allowAboveRoot then s :: acc else acc) r
            else normalizeSegments allowAboveRoot acc' r
        | [] =>
            normalizeSegments allowAboveRoot
              (if allowAboveRoot then [s] else []) r
        end
      else normalizeSegments allowAboveRoot (s :: acc) r
  end.

Definition normalizeString (p : string) (allowAboveRoot : bool) : string :=
  JS.join "/" (normalizeSegments allowAboveRoot [] (JS.split "/" p)).

Definition isAbsolute (p : string) : bool := JS.startsWith p "/".

(** [path.normalize(p)]. *)
Definition normalize (p : string) : string :=
  if JS.is_empty p then "."
  else
    let abs := isAbsolute p in
    let trailing := JS.endsWithChar p "/" in
    let body := normalizeString p (negb abs) in
    if JS.is_empty body then
      (if abs then "/" else if trailing then "./" else ".")
    else
      (if abs then "/" else "") ++ body ++ (if trailing then "/" else "").

(** [path.resolve(p)] in a process whose working directory is [cwd]. *)
Definition resolve (cwd p : string) : string :=
  let fromArg := if JS.is_empty p then "" else p ++ "/" in
  let absArg := isAbsolute p in
  let full :=
    if absArg then fromArg
    else if JS.is_empty cwd then fromArg
    else cwd ++ "/" ++ fromArg in
  let resolvedAbsolute := absArg || isAbsolute cwd in
  let body := normalizeString full (negb resolvedAbsolute) in
  if resolvedAbsolute then "/" ++ body
  else if JS.is_empty body then "." else body.

(** [path.join(a, b)]. *)
Definition join (a b : string) : string :=
  let joined :=
    if JS.is_empty a then b
    else if JS.is_empty b then a
    else a ++ "/" ++ b in
  if JS.is_empty joined then "." else normalize joined.

(** The last segment of [p], trailing separators ignored. *)
Definition lastSegment (p : string) : string :=
  last (filter (fun s => negb (JS.is_empty s)) (JS.split "/" p)) "".

(** [path.extname(p)]: from the last dot of the last segment, unless
    that dot opens the segment or the segment is [".."]. *)
Definition extname (p : string) : string :=
  let base := lastSegment p in
  let pieces := JS.split "." base in
  match rev pieces with
  | ext :: before :: more =>
      if JS.is_empty (JS.join "." (rev (before :: more))) then ""
      else if String.eqb base ".." then ""
      else "." ++ ext
  | _ => ""
  end.

End NodePath.

(* ------------------------------------------------------------------ *)
(** ** The environment of a run *)

Definition tab : ascii := ascii_of_N 9.
Definition newline : ascii := ascii_of_N 10.
Definition dquote : string := String (ascii_of_N 34) "".
Definition backtick : ascii := ascii_of_N 96.
Definition backslash : ascii := ascii_of_N 92.

(** What [fs.readdir] and [fs.stat] see below a directory. [FsFile None]
    is a file whose [stat] fails, [FsDir None] a directory that cannot be
    listed, [FsOther] an entry that is neither a file nor a directory. *)
Inductive fsnode : Type :=
| FsFile (size : option Z)
| FsDir (entries : option (list (string * fsnode)))
| FsOther.

Record World : Type := {
  homedir : string;                          (* os.homedir() *)
  cwd : string;                              (* process.cwd() *)
  fsTree : string -> option fsnode;          (* what lives at a path *)
  access : string -> result unit;            (* fs.access(p) *)
  stat : string -> option Z;                 (* fs.stat(p).size *)
  readFile : string -> option string;        (* fs.readFile(p, 'utf-8') *)
  exec : string -> string -> result (string * string)
                                             (* execAsync(command, {cwd}) *)
}.

(** A started subprocess: the command line and its working directory. *)
Definition call : Type := (string * string)%type.

(* ------------------------------------------------------------------ *)
(** ** Path and parameter sanitizer *)

Definition ALLOWED_BASE_DIRS (w : World) : list string :=
  ["/tmp"; "/var/tmp"; homedir w; cwd w].

Definition sanitizeRepositoryPath (w : World) (repoPath : string) : result string :=
  let normalizedPath := NodePath.resolve (cwd w) (NodePath.normalize repoPath) in
  let isAllowed :=
    existsb (fun baseDir =>
               let resolvedBaseDir := NodePath.resolve (cwd w) baseDir in
               JS.startsWith normalizedPath resolvedBaseDir)
            (ALLOWED_BASE_DIRS w) in
  if negb isAllowed then
    Err "Repository path is not in an allowed directory"
  else if JS.includes normalizedPath ".." || JS.includes normalizedPath "~" then
    Err "Invalid characters in repository path"
  else Ok normalizedPath.

(** The class of [sanitizeGitParameter]: [;&|`$(){}\\[\]]. *)
Definition gitParameterClass (c : ascii) : bool :=
  existsb (Ascii.eqb c)
    [";"; "&"; "|"; backtick; "$"; "("; ")"; "{"; "}"; backslash; "["; "]"]%char.

(** [s.replace(/[...]/g, '')] for a class of single characters. *)
Fixpoint removeClass (cls : ascii -> bool) (s : string) : string :=
  match s with
  | EmptyString => EmptyString
  | String c r => if cls c then removeClass cls r else String c (removeClass cls r)
  end.

Definition sanitizeGitParameter (param : string) : result string :=
  let sanitized := JS.trim (removeClass gitParameterClass param) in
  if negb (String.eqb sanitized param) then
    Err "Invalid characters in parameter"
  else Ok sanitized.

(** The pattern of [sanitizeFilePath] is written [[;&|`$(){}\\[\\]]]: the
    class ends at the first unescaped bracket, so it holds the characters
    below and is followed by a literal closing bracket. *)
Definition filePathClass (c : ascii) : bool :=
  existsb (Ascii.eqb c)
    [";"; "&"; "|"; backtick; "$"; "("; ")"; "{"; "}"; backslash; "["]%char.

(** [s.replace(/[...]]/g, '')]: every class character directly followed
    by a closing bracket goes, together with that bracket. *)
Fixpoint removeClassBracket (cls : ascii -> bool) (s : string) : string :=
  match s with
  | EmptyString => EmptyString
  | String c r =>
      match r with
      | String d r' =>
          if cls c && Ascii.eqb d "]" then removeClassBracket cls r'
          else String c (removeClassBracket cls r)
      | EmptyString => String c EmptyString
      end
  end.

Definition sanitizeFilePath (filePath : string) : result string :=
  let sanitized := JS.trim (removeClassBracket filePathClass filePath) in
  if negb (String.eqb sanitized filePath) then
    Err "Invalid characters in file path"
  else Ok sanitized.

(* ------------------------------------------------------------------ *)
(** ** Repository size guard *)

(** [getDirectorySize]: the sum over the listing; a failing [readdir]
    gives 0 and a failing [stat] ends the listing with the sum so far,
    both through the one [try] around the loop. *)
Fixpoint getDirectorySizeNode (n : fsnode) : Z :=
  match n with
  | FsDir (Some items) =>
      (fix loop (items : list (string * fsnode)) (totalSize : Z) : Z :=
         match items with
         | [] => totalSize
         | (_, item) :: rest =>
             match item with
             | FsDir _ => loop rest (totalSize + getDirectorySizeNode item)
             | FsFile (Some size) => loop rest (totalSize + size)
             | FsFile None => totalSize
             | FsOther => loop rest totalSize
             end
         end) items 0
  | _ => 0
  end.

Definition getDirectorySize (w : World) (dirPath : string) : Z :=
  match fsTree w dirPath with
  | Some n => getDirectorySizeNode n
  | None => 0
  end.

Record RepositorySize : Type := {
  sizeBytes : Z;
  estimatedCommits : Z
}.

(** [getDirectorySize] swallows every failure itself, so the [catch] of
    [checkRepositorySize] has nothing left to catch; an unreadable
    directory gives the same zeros through the main path. *)
Definition checkRepositorySize (w : World) (repoPath : string) : RepositorySize :=
  let gitDirPath := NodePath.join repoPath ".git" in
  let stats := getDirectorySize w gitDirPath in
  let estimatedCommits := stats / 1024 in
  {| sizeBytes := stats; estimatedCommits := estimatedCommits |}.

(* ------------------------------------------------------------------ *)
(** ** Language detection and the complexity scorer *)

Definition languageMap : list (string * string) :=
  [(".js", "javascript"); (".jsx", "javascript"); (".ts", "typescript");
   (".tsx", "typescript"); (".py", "python"); (".java", "java");
   (".cpp", "cpp"); (".c", "c"); (".cs", "csharp"); (".php", "php");
   (".rb", "ruby"); (".go", "go"); (".rs", "rust"); (".swift", "swift");
   (".kt", "kotlin"); (".scala", "scala"); (".sh", "shell"); (".sql", "sql");
   (".html", "html"); (".css", "css"); (".scss", "scss"); (".sass", "sass");
   (".less", "less"); (".json", "json"); (".xml", "xml"); (".yaml", "yaml");
   (".yml", "yaml"); (".md", "markdown"); (".dockerfile", "docker");
   (".r", "r"); (".m", "matlab"); (".pl", "perl"); (".lua", "lua");
   (".vim", "vim")].

Fixpoint assoc {A : Type} (k : string) (l : list (string * A)) : option A :=
  match l with
  | [] => None
  | (k', v) :: r => if String.eqb k k' then Some v else assoc k r
  end.

Definition detectLanguage (filePath : string) : option string :=
  let ext := JS.toLowerCase (NodePath.extname filePath) in
  assoc ext languageMap.

(** The character after the first [n] ones is not a word character. *)
Fixpoint boundaryAfter (n : nat) (s : string) : bool :=
  match n, s with
  | O, EmptyString => true
  | O, String c _ => negb (JS.is_word c)
  | S n', String _ r => boundaryAfter n' r
  | S _, EmptyString => true
  end.

(** [\bkw\b] matches at the head of [s], the character before it being
    a word character or not. *)
Definition wordAt (prevWord : bool) (s kw : string) : bool :=
  negb prevWord && String.prefix kw s && boundaryAfter (String.length kw) s.

(** [(content.match(/\bk1\b|\bk2\b|.../g) || []).length]. A match starts
    after a non-word character and ends before one, so two matches never
    overlap and the global scan finds every position that matches. *)
Fixpoint countWordsFrom (kws : list string) (prevWord : bool) (s : string) : nat :=
  match s with
  | EmptyString => O
  | String c r =>
      ((if existsb (wordAt prevWord s) kws then 1 else 0)
       + countWordsFrom kws (JS.is_word c) r)%nat
  end.

Definition countWords (kws : list string) (content : string) : nat :=
  countWordsFrom kws false content.

(** [(content.match(/c/g) || []).length] for one character. *)
Fixpoint countChar (c : ascii) (s : string) : nat :=
  match s with
  | EmptyString => O
  | String a r => ((if Ascii.eqb a c then 1 else 0) + countChar c r)%nat
  end.

Definition controlPatterns : list string :=
  ["if"; "else"; "while"; "for"; "switch"; "case"; "try"; "catch";
   "function"; "class"; "return"].

Definition calculateComplexity (content : string) (language : option string) : Z :=
  let complexity := 1 in
  let complexity :=
    fold_left (fun complexity pattern =>
                 complexity + Z.of_nat (countWords [pattern] content))
              controlPatterns complexity in
  let maxNesting :=
    Z.max (Z.of_nat (countChar "{" content) - Z.of_nat (countChar "}" content)) 0 in
  let complexity := complexity + maxNesting * 2 in
  let complexity :=
    match language with
    | Some l =>
        if String.eqb l "typescript" || String.eqb l "javascript"
        then complexity + Z.of_nat (countWords ["async"; "await"] content)
        else complexity
    | None => complexity
    end in
  Z.min complexity 100.

(* ------------------------------------------------------------------ *)
(** ** Records of the history parser *)

Record CommitData : Type := {
  sha : string;
  message : string;
  author : string;
  authorEmail : string;
  date : jsnum;
  filesChanged : list string;
  linesAdded : jsnum;
  linesDeleted : jsnum;
  tags : list string
}.

(** [maxComplexity], [avgComplexity] and [primaryAuthors] are the fields
    the enrichment passes attach to the object; [None] is "not set". *)
Record FileData : Type := {
  path : string;
  extension : string;
  firstSeen : jsnum;
  lastModified : jsnum;
  totalChanges : Z;
  currentSize : Z;
  isDeleted : bool;
  language : option string;
  maxComplexity : option Z;
  avgComplexity : option Z;
  primaryAuthors : option (list string)
}.

(** A [Map<string, FileData>]: its entries in insertion order. *)
Definition FileMap : Type := list (string * FileData).

Definition mapHas (k : string) (m : FileMap) : bool :=
  match assoc k m with
  | Some _ => true
  | None => false
  end.

Definition mapGet (k : string) (m : FileMap) : option FileData := assoc k m.

(** [m.set(k, v)]: an existing key keeps its place. *)
Fixpoint mapSet (k : string) (v : FileData) (m : FileMap) : FileMap :=
  match m with
  | [] => [(k, v)]
  | (k', v') :: r =>
      if String.eqb k k' then (k', v) :: r else (k', v') :: mapSet k v r
  end.

(** What [console.warn] prints inside the parsing loop. *)
Inductive warning : Type :=
| MalformedCommitLine (line : string)
| SkippingFile (filePath : string) (error : string).

Record ParseState : Type := {
  index : nat;                          (* i *)
  currentCommit : option CommitData;
  commits : list CommitData;
  fileMap : FileMap;
  console : list warning
}.

Definition initialState : ParseState :=
  {| index := 0; currentCommit := None; commits := []; fileMap := [];
     console := [] |}.

(** [commits.push(currentCommit)] when a commit is open. *)
Definition flush (current : option CommitData) (commits : list CommitData)
  : list CommitData :=
  match current with
  | Some c => commits ++ [c]
  | None => commits
  end.

(** [line.match(/^\d+\s+\d+\s+/)]. *)
Definition matchNumstat (line : string) : bool :=
  let d1 := JS.takeWhile JS.is_digit line in
  let r1 := JS.dropWhile JS.is_digit line in
  let s1 := JS.takeWhile JS.is_ws r1 in
  let r2 := JS.dropWhile JS.is_ws r1 in
  let d2 := JS.takeWhile JS.is_digit r2 in
  let r3 := JS.dropWhile JS.is_digit r2 in
  let s2 := JS.takeWhile JS.is_ws r3 in
  negb (JS.is_empty d1) && negb (JS.is_empty s1) &&
  negb (JS.is_empty d2) && negb (JS.is_empty s2).

(** [line.includes('|') && line.split('|').length === 5]. *)
Definition isCommitLine (line : string) : bool :=
  JS.includes line "|" && (List.length (JS.split "|" line) =? 5)%nat.

Definition newCommit (parts : list string) : CommitData :=
  let sha := nth 0 parts "" in
  let message := nth 1 parts "" in
  let author := nth 2 parts "" in
  let authorEmail := nth 3 parts "" in
  let dateStr := nth 4 parts "" in
  {| sha := sha;
     message := JS.trim message;
     author := JS.trim author;
     authorEmail := JS.trim authorEmail;
     date := JS.mul (JS.parseInt dateStr) (Num 1000);
     filesChanged := [];
     linesAdded := Num 0;
     linesDeleted := Num 0;
     tags := [] |}.

(** The statements of the [try] block after [sanitizeFilePath] returned:
    the open commit and the file map after one accepted file line. *)
Definition recordFile (stats sanitizedFilePath : string)
           (current : CommitData) (files : FileMap) : CommitData * FileMap :=
  let pieces := JS.split_ws stats in
  let added := nth_error pieces 0 in
  let deleted := nth_error pieces 1 in
  let current :=
    {| sha := sha current;
       message := message current;
       author := author current;
       authorEmail := authorEmail current;
       date := date current;
       filesChanged := filesChanged current ++ [sanitizedFilePath];
       linesAdded := JS.add (linesAdded current) (JS.or_zero (JS.parseInt_opt added));
       linesDeleted := JS.add (linesDeleted current) (JS.or_zero (JS.parseInt_opt deleted));
       tags := tags current |} in
  let ext := NodePath.extname sanitizedFilePath in
  let files :=
    match mapGet sanitizedFilePath files with
    | None =>
        mapSet sanitizedFilePath
          {| path := sanitizedFilePath;
             extension := ext;
             firstSeen := date current;
             lastModified := date current;
             totalChanges := 1;
             currentSize := 0;
             isDeleted := false;
             language := detectLanguage sanitizedFilePath;
             maxComplexity := None;
             avgComplexity := None;
             primaryAuthors := None |} files
    | Some fileData =>
        mapSet sanitizedFilePath
          {| path := path fileData;
             extension := extension fileData;
             firstSeen := firstSeen fileData;
             lastModified := JS.max (lastModified fileData) (date current);
             totalChanges := totalChanges fileData + 1;
             currentSize := currentSize fileData;
             isDeleted := isDeleted fileData;
             language := language fileData;
             maxComplexity := maxComplexity fileData;
             avgComplexity := avgComplexity fileData;
             primaryAuthors := primaryAuthors fileData |} files
    end in
  (current, files).

(** One turn of [while (i < lines.length)]. Both [continue] statements
    leave [i] as it is. *)
Definition loopBody (lines : list string) (st : ParseState) : ParseState :=
  let i := index st in
  let line := JS.trim (nth i lines "") in
  if isCommitLine line then
    let commits := flush (currentCommit st) (commits st) in
    let parts := JS.split "|" line in
    if negb (List.length parts =? 5)%nat then
      {| index := i;
         currentCommit := currentCommit st;
         commits := commits;
         fileMap := fileMap st;
         console := console st ++ [MalformedCommitLine line] |}
    else
      {| index := S i;
         currentCommit := Some (newCommit parts);
         commits := commits;
         fileMap := fileMap st;
         console := console st |}
  else
    let next :=
      {| index := S i;
         currentCommit := currentCommit st;
         commits := commits st;
         fileMap := fileMap st;
         console := console st |} in
    match currentCommit st with
    | Some current =>
        if negb (JS.is_empty line) && matchNumstat line then
          let parts := JS.split tab line in
          if (3 <=? List.length parts)%nat then
            let stats := nth 0 parts "" in
            let filePath := nth 2 parts "" in
            match sanitizeFilePath filePath with
            | Ok sanitizedFilePath =>
                let '(current, files) :=
                  recordFile stats sanitizedFilePath current (fileMap st) in
                {| index := S i;
                   currentCommit := Some current;
                   commits := commits st;
                   fileMap := files;
                   console := console st |}
            | Err error =>
                {| index := i;
                   currentCommit := currentCommit st;
                   commits := commits st;
                   fileMap := fileMap st;
                   console := console st ++ [SkippingFile filePath error] |}
            end
          else next
        else next
    | None => next
    end.

Fixpoint parseLoop (fuel : nat) (lines : list string) (st : ParseState)
  : option ParseState :=
  if (index st <? List.length lines)%nat then
    match fuel with
    | O => None
    | S fuel' => parseLoop fuel' lines (loopBody lines st)
    end
  else Some st.

(** From [logOutput.split('\n')] to the push of the last commit. *)
Definition parseLines (fuel : nat) (logOutput : string) : option ParseState :=
  let lines := JS.split newline logOutput in
  match parseLoop fuel lines initialState with
  | Some st =>
      Some {| index := index st;
              currentCommit := currentCommit st;
              commits := flush (currentCommit st) (commits st);
              fileMap := fileMap st;
              console := console st |}
  | None => None
  end.

(* ------------------------------------------------------------------ *)
(** ** File enrichment and [parseGitLog] *)

Inductive outcome (A : Type) : Type :=
| Returns (a : A)
| Throws (msg : string)
| OutOfFuel.
Arguments Returns {A} a.
Arguments Throws {A} msg.
Arguments OutOfFuel {A}.

Definition setComplexity (fd : FileData) (size : Z) (deleted : bool) (c : Z)
  : FileData :=
  {| path := path fd;
     extension := extension fd;
     firstSeen := firstSeen fd;
     lastModified := lastModified fd;
     totalChanges := totalChanges fd;
     currentSize := size;
     isDeleted := deleted;
     language := language fd;
     maxComplexity := Some c;
     avgComplexity := Some c;
     primaryAuthors := primaryAuthors fd |}.

(** The size and complexity pass on one entry. Every entry touches its
    own object only, so the passes are run entry by entry. *)
Definition enrichFile (w : World) (sanitizedRepoPath : string)
           (entry : string * FileData) : string * FileData :=
  let '(filePath, fileData) := entry in
  let fullPath := NodePath.join sanitizedRepoPath filePath in
  let resolvedPath := NodePath.resolve (cwd w) fullPath in
  if negb (JS.startsWith resolvedPath sanitizedRepoPath) then (filePath, fileData)
  else
    match stat w fullPath with
    | Some size =>
        if size >? 1024 * 1024 then (filePath, setComplexity fileData size (isDeleted fileData) 1)
        else
          match readFile w fullPath with
          | Some content =>
              (filePath,
               setComplexity fileData size (isDeleted fileData)
                 (calculateComplexity content (language fileData)))
          | None => (filePath, setComplexity fileData size (isDeleted fileData) 1)
          end
    | None => (filePath, setComplexity fileData 0 true 0)
    end.

(** [line.trim().replace(/^\d+\s+/, '')]. *)
Definition stripCount (line : string) : string :=
  let line := JS.trim line in
  let afterDigits := JS.dropWhile JS.is_digit line in
  let afterSpace := JS.dropWhile JS.is_ws afterDigits in
  if negb (JS.is_empty (JS.takeWhile JS.is_digit line)) &&
     negb (JS.is_empty (JS.takeWhile JS.is_ws afterDigits))
  then afterSpace else line.

Definition authorCommand (sanitizedFilePath : string) : string :=
  "git log --format=" ++ dquote ++ "%an" ++ dquote ++ " -- " ++ dquote
    ++ sanitizedFilePath ++ dquote ++ " | sort | uniq -c | sort -nr | head -3".

Definition setAuthors (fd : FileData) (authors : list string) : FileData :=
  {| path := path fd;
     extension := extension fd;
     firstSeen := firstSeen fd;
     lastModified := lastModified fd;
     totalChanges := totalChanges fd;
     currentSize := currentSize fd;
     isDeleted := isDeleted fd;
     language := language fd;
     maxComplexity := maxComplexity fd;
     avgComplexity := avgComplexity fd;
     primaryAuthors := Some authors |}.

(** The author pass on one entry: the subprocess it starts, if any, and
    the entry afterwards. *)
Definition extractAuthors (w : World) (sanitizedRepoPath : string)
           (entry : string * FileData) : list call * (string * FileData) :=
  let '(filePath, fileData) := entry in
  match sanitizeFilePath filePath with
  | Ok sanitizedFilePath =>
      let command := authorCommand sanitizedFilePath in
      match exec w command sanitizedRepoPath with
      | Ok (authorOutput, _) =>
          let authors :=
            filter (fun a => (0 <? String.length a)%nat && (String.length a <? 100)%nat)
                   (map stripCount (JS.split newline authorOutput)) in
          ([(command, sanitizedRepoPath)], (filePath, setAuthors fileData authors))
      | Err _ => ([(command, sanitizedRepoPath)], (filePath, setAuthors fileData []))
      end
  | Err _ => ([], (filePath, setAuthors fileData []))
  end.

Definition MAX_REPO_SIZE : Z := 50 * 1024 * 1024.
Definition MAX_COMMITS : Z := 1000.

Definition logCommand (commitLimit : Z) : string :=
  "git log --pretty=format:" ++ dquote ++ "%H|%s|%an|%ae|%ct" ++ dquote
    ++ " --numstat --max-count=" ++ JS.string_of_Z commitLimit.

(** [Math.round(sizeBytes / 1024 / 1024)] for an integer [sizeBytes]. *)
Definition roundMiB (sizeBytes : Z) : Z := (sizeBytes + 524288) / 1048576.

Definition tooLargeMessage (sizeBytes : Z) : string :=
  "Repository too large (" ++ JS.string_of_Z (roundMiB sizeBytes)
    ++ "MB). Maximum allowed: " ++ JS.string_of_Z (MAX_REPO_SIZE / 1024 / 1024)
    ++ "MB".

Record ParsedLog : Type := {
  parsedCommits : list CommitData;
  parsedFiles : FileMap
}.

(** [parseGitLog]: the subprocesses it started, in order, and how it
    ended. The [catch] around the body logs and rethrows. *)
Definition parseGitLog (fuel : nat) (w : World) (repoPath : string)
  : list call * outcome ParsedLog :=
  match sanitizeRepositoryPath w repoPath with
  | Err msg => ([], Throws msg)
  | Ok sanitizedRepoPath =>
      let size := checkRepositorySize w sanitizedRepoPath in
      if sizeBytes size >? MAX_REPO_SIZE then
        ([], Throws (tooLargeMessage (sizeBytes size)))
      else
        let commitLimit := Z.min (estimatedCommits size) MAX_COMMITS in
        let command := logCommand commitLimit in
        match exec w command sanitizedRepoPath with
        | Err msg => ([(command, sanitizedRepoPath)], Throws msg)
        | Ok (logOutput, _) =>
            match parseLines fuel logOutput with
            | None => ([(command, sanitizedRepoPath)], OutOfFuel)
            | Some st =>
                let files := map (enrichFile w sanitizedRepoPath) (fileMap st) in
                let authored := map (extractAuthors w sanitizedRepoPath) files in
                ((command, sanitizedRepoPath) :: List.concat (map fst authored),
                 Returns {| parsedCommits := commits st;
                            parsedFiles := map snd authored |})
            end
        end
  end.

(** What a route handler answers: [NextResponse.json(body, {status})]. *)
Inductive response : Type :=
| RespError (status : Z) (error : string) (details : option string)
| RespForbidden (error : string) (allowedCommands : list string)
| RespParsed (repositoryId : string) (data : ParsedLog)
| RespOutput (repositoryId command stdout stderr : string).

Definition truthy (s : option string) : bool :=
  match s with
  | Some s => negb (JS.is_empty s)
  | None => false
  end.

(** [sanitizeRepositoryPath(p); await fs.access(p)] under one [try]. *)
Definition validateRepository (w : World) (repoPath : string) : result string :=
  let* p := sanitizeRepositoryPath w repoPath in
  let* _ := access w p in
  Ok p.

Module ParseRoute.

(** [POST] of the parser route. *)
Definition POST (fuel : nat) (w : World)
           (repositoryPath repositoryId : option string)
  : list call * outcome response :=
  match repositoryPath, repositoryId with
  | Some rp, Some rid =>
      if JS.is_empty rp || JS.is_empty rid then
        ([], Returns (RespError 400 "Repository path and ID are required" None))
      else
        match validateRepository w rp with
        | Err msg => ([], Returns (RespError 404 msg None))
        | Ok sanitizedRepositoryPath =>
            match parseGitLog fuel w sanitizedRepositoryPath with
            | (tr, Returns data) => (tr, Returns (RespParsed rid data))
            | (tr, Throws msg) =>
                (tr, Returns (RespError 500 "Failed to parse git repository" (Some msg)))
            | (tr, OutOfFuel) => (tr, OutOfFuel)
            end
        end
  | _, _ => ([], Returns (RespError 400 "Repository path and ID are required" None))
  end.

End ParseRoute.

(* ------------------------------------------------------------------ *)
(** ** The ad-hoc query gateway *)

Module LogRoute.

(** The query string of a [GET]: [searchParams.get(name)] per name. *)
Record Query : Type := {
  qPath : option string;
  qFormat : option string;
  qMaxCount : option string;
  qSince : option string;
  qUntil : option string;
  qAuthor : option string;
  qGrep : option string;
  qFile : option string;
  qStat : option string;
  qNumstat : option string
}.

(** [value || fallback]. *)
Definition orElse (value : option string) (fallback : string) : string :=
  match value with
  | Some s => if JS.is_empty s then fallback else s
  | None => fallback
  end.

Definition isTrue (value : option string) : bool :=
  match value with
  | Some s => String.eqb s "true"
  | None => false
  end.

Definition formatOption (format : string) : string :=
  if String.eqb format "pretty" then
    " --pretty=format:" ++ dquote ++ "%H|%s|%an|%ae|%ct|%P" ++ dquote
  else if String.eqb format "oneline" then " --oneline"
  else if String.eqb format "short" then " --pretty=short"
  else "".

(** [if (maxCount > 0 && maxCount <= 1000) gitCommand += ...]. *)
Definition maxCountOption (maxCount : jsnum) : string :=
  if JS.gtb maxCount (Num 0) && JS.leb maxCount (Num 1000)
  then " --max-count=" ++ JS.to_string maxCount
  else "".

(** [if (value) gitCommand += ...]: the sanitized value between double
    quotes after the opening text; a rejected value throws. *)
Definition addFilter (opening : string) (value : option string)
           (gitCommand : string) : result string :=
  if truthy value then
    let* sanitized := sanitizeGitParameter (orElse value "") in
    Ok (gitCommand ++ opening ++ dquote ++ sanitized ++ dquote)
  else Ok gitCommand.

(** The command line built between "Build git log command" and the
    [console.log] that prints it. *)
Definition buildCommand (q : Query) : result string :=
  let format := orElse (qFormat q) "pretty" in
  let maxCount := JS.parseInt (orElse (qMaxCount q) "100") in
  let gitCommand := "git log" in
  let gitCommand := gitCommand ++ formatOption format in
  let gitCommand := if isTrue (qStat q) then gitCommand ++ " --stat" else gitCommand in
  let gitCommand := if isTrue (qNumstat q) then gitCommand ++ " --numstat" else gitCommand in
  let gitCommand := gitCommand ++ maxCountOption maxCount in
  let* gitCommand := addFilter " --since=" (qSince q) gitCommand in
  let* gitCommand := addFilter " --until=" (qUntil q) gitCommand in
  let* gitCommand := addFilter " --author=" (qAuthor q) gitCommand in
  let* gitCommand := addFilter " --grep=" (qGrep q) gitCommand in
  addFilter " -- " (qFile q) gitCommand.

(** The answer of the outer [catch]. *)
Definition failure (what msg : string) : response :=
  if JS.includes msg "timeout" then
    RespError 408 "Git operation timed out"
      (Some "Repository analysis is taking too long")
  else RespError 500 what (Some msg).

(** [GET]: the subprocesses started and the answer. The body of a
    success is kept as the command and the raw output. *)
Definition GET (w : World) (repositoryId : string) (q : Query)
  : list call * response :=
  if negb (truthy (qPath q)) then
    ([], RespError 400 "Repository path is required" None)
  else
    match validateRepository w (orElse (qPath q) "") with
    | Err msg => ([], RespError 404 msg None)
    | Ok sanitizedRepoPath =>
        match buildCommand q with
        | Err msg => ([], failure "Failed to execute git log" msg)
        | Ok gitCommand =>
            match exec w gitCommand sanitizedRepoPath with
            | Err msg =>
                ([(gitCommand, sanitizedRepoPath)],
                 failure "Failed to execute git log" msg)
            | Ok (stdout, stderr) =>
                if negb (JS.is_empty stderr) && JS.is_empty stdout then
                  ([(gitCommand, sanitizedRepoPath)],
                   RespError 500 "Git command failed" (Some stderr))
                else
                  ([(gitCommand, sanitizedRepoPath)],
                   RespOutput repositoryId gitCommand stdout stderr)
            end
        end
    end.

Definition allowedCommands : list string :=
  ["git log"; "git show"; "git diff"; "git blame"; "git ls-files";
   "git rev-list"; "git branch"; "git tag"; "git status --porcelain"].

(** [allowedCommands.some(allowed => command.startsWith(allowed))]. *)
Definition isAllowed (command : string) : bool :=
  existsb (fun allowed => JS.startsWith command allowed) allowedCommands.

(** [POST] with a body whose [command] and [repoPath] are strings or
    absent. *)
Definition POST (w : World) (repositoryId : string)
           (command repoPath : option string) : list call * response :=
  if negb (truthy repoPath) || negb (truthy command) then
    ([], RespError 400 "Repository path and command are required" None)
  else
    let command := orElse command "" in
    match validateRepository w (orElse repoPath "") with
    | Err msg => ([], RespError 404 msg None)
    | Ok sanitizedRepoPath =>
        if negb (isAllowed command) then
          ([], RespForbidden "Command not allowed" allowedCommands)
        else
          match exec w command sanitizedRepoPath with
          | Err msg =>
              ([(command, sanitizedRepoPath)],
               RespError 500 "Failed to execute git command" (Some msg))
          | Ok (stdout, stderr) =>
              ([(command, sanitizedRepoPath)],
               RespOutput repositoryId command stdout stderr)
          end
    end.

End LogRoute.

(* ------------------------------------------------------------------ *)
(** ** Vocabulary of the specification *)

(** Some character of [s] satisfies [p]. *)
Fixpoint anyChar (p : ascii -> bool) (s : string) : bool :=
  match s with
  | EmptyString => false
  | String c r => p c || anyChar p r
  end.

Definition firstWs (s : string) : bool :=
  match s with
  | EmptyString => false
  | String c _ => JS.is_ws c
  end.

Fixpoint lastWs (s : string) : bool :=
  match s with
  | EmptyString => false
  | String c EmptyString => JS.is_ws c
  | String _ r => lastWs r
  end.

(** [s] starts or ends with white space. *)
Definition padded (s : string) : bool := firstWs s || lastWs s.

(** [base] followed by one separator. *)
Definition withSeparator (base : string) : string :=
  if JS.endsWithChar base "/" then base else base ++ "/".

(** [q] is the directory [base] or lies below it. *)
Definition isUnder (base q : string) : bool :=
  String.eqb q base || String.prefix (withSeparator base) q.

Definition underAllowedBase (w : World) (q : string) : bool :=
  existsb (fun baseDir => isUnder (NodePath.resolve (cwd w) baseDir) q)
          (ALLOWED_BASE_DIRS w).

Definition resolution (w : World) (repoPath : string) : string :=
  NodePath.resolve (cwd w) (NodePath.normalize repoPath).

(** The sentence of the specification on [sanitizeRepositoryPath]. *)
Definition SpecifiedRepositoryPath (w : World) : Prop :=
  forall repoPath,
    (underAllowedBase w (resolution w repoPath) = true ->
     sanitizeRepositoryPath w repoPath = Ok (resolution w repoPath)) /\
    (underAllowedBase w (resolution w repoPath) = false ->
     exists msg, sanitizeRepositoryPath w repoPath = Err msg).

(** The sentence of the specification on the parameter sanitizer. *)
Definition SpecifiedParameter (sanitize : string -> result string) : Prop :=
  forall param,
    (anyChar gitParameterClass param = true -> exists msg, sanitize param = Err msg) /\
    (anyChar gitParameterClass param = false -> sanitize param = Ok param).

(** The scorer in the words of the specification, with counts that are
    read off the positions of the content.

    The character at position [i] is a word character. *)
Definition wordCharAt (s : string) (i : nat) : bool :=
  match String.get i s with
  | Some c => JS.is_word c
  | None => false
  end.

(** [kw] stands at position [i] of [s] between two word boundaries: the
    text from [i] on is [kw], no word character stands before it and
    none after it. *)
Definition occursAt (s kw : string) (i : nat) : bool :=
  String.eqb (String.substring i (String.length kw) s) kw
  && negb (match i with
           | O => false
           | S j => wordCharAt s j
           end)
  && negb (wordCharAt s (i + String.length kw)).

(** The positions of [s] at which one of the words occurs. *)
Definition wordOccurrences (kws : list string) (s : string) : nat :=
  List.length
    (filter (fun i => existsb (fun kw => occursAt s kw i) kws)
            (seq 0 (String.length s))).

(** The characters of [s] that are [c]. *)
Definition charOccurrences (c : ascii) (s : string) : nat :=
  List.length (filter (Ascii.eqb c) (list_ascii_of_string s)).

Definition keywordOccurrences (content : string) : nat :=
  wordOccurrences ["if"] content + wordOccurrences ["else"] content
  + wordOccurrences ["while"] content + wordOccurrences ["for"] content
  + wordOccurrences ["switch"] content + wordOccurrences ["case"] content
  + wordOccurrences ["try"] content + wordOccurrences ["catch"] content
  + wordOccurrences ["function"] content + wordOccurrences ["class"] content
  + wordOccurrences ["return"] content.

Definition isEcmaScript (language : option string) : bool :=
  match language with
  | Some l => String.eqb l "typescript" || String.eqb l "javascript"
  | None => false
  end.

Definition specifiedComplexity (content : string) (language : option string) : Z :=
  Z.min 100
    (1 + Z.of_nat (keywordOccurrences content)
     + 2 * Z.max 0 (Z.of_nat (charOccurrences "{" content)
                    - Z.of_nat (charOccurrences "}" content))
     + (if isEcmaScript language
        then Z.of_nat (wordOccurrences ["async"; "await"] content) else 0)).

(** [fs.readdir] fails on the path. *)
Definition cannotRead (w : World) (dirPath : string) : Prop :=
  match fsTree w dirPath with
  | Some (FsDir (Some _)) => False
  | _ => True
  end.

(** The sentence of the specification on a missing metadata directory. *)
Definition SpecifiedMissingMetadata (w : World) : Prop :=
  forall repoPath p,
    sanitizeRepositoryPath w repoPath = Ok p ->
    cannotRead w (NodePath.join p ".git") ->
    exists fuel tr,
      parseGitLog fuel w repoPath
      = (tr, Returns {| parsedCommits := []; parsedFiles := [] |}).

(** A file line that [sanitizeFilePath] rejects while a commit is open. *)
Definition rejectedFileLine (line : string) : bool :=
  negb (isCommitLine line) && negb (JS.is_empty line) && matchNumstat line &&
  (3 <=? List.length (JS.split tab line))%nat &&
  match sanitizeFilePath (nth 2 (JS.split tab line) "") with
  | Ok _ => false
  | Err _ => true
  end.

Definition isMalformedWarning (x : warning) : bool :=
  match x with
  | MalformedCommitLine _ => true
  | SkippingFile _ _ => false
  end.

(** [FileData] as the data model wants it, for dates that are numbers. *)
Definition fileRecordOk (fd : FileData) : Prop :=
  1 <= totalChanges fd /\
  match firstSeen fd, lastModified fd with
  | Num first, Num last => first <= last
  | _, _ => True
  end.

Definition filesOk (m : FileMap) : Prop :=
  forall x, In x m -> fileRecordOk (snd x).

(** What the loop keeps of a record: besides [fileRecordOk], a record
    first seen at a finite date is never last modified at [-Infinity],
    since [Math.max] never goes below the date it starts from. *)
Definition fileRecordKept (fd : FileData) : Prop :=
  1 <= totalChanges fd /\
  match firstSeen fd, lastModified fd with
  | Num first, Num last => first <= last
  | Num _, Infinity negative => negative = false
  | _, _ => True
  end.

Definition filesKept (m : FileMap) : Prop :=
  forall x, In x m -> fileRecordKept (snd x).

(** The commits pushed so far, the open one included. *)
Definition commitsSoFar (st : ParseState) : nat :=
  List.length (flush (currentCommit st) (commits st)).

(** The five-field lines among the first [n]. *)
Definition headersBefore (n : nat) (lines : list string) : nat :=
  List.length (filter (fun l => isCommitLine (JS.trim l)) (firstn n lines)).

(** Every character of [s] satisfies [p]. *)
Definition allChars (p : ascii -> bool) (s : string) : bool :=
  negb (anyChar (fun c => negb (p c)) s).

(** What the tests of the pipeline look at in a parse. *)
Definition commitSummary (c : CommitData) : string * jsnum * jsnum :=
  (sha c, linesAdded c, linesDeleted c).

Definition fileSummary (entry : string * FileData) : string * Z :=
  (fst entry, totalChanges (snd entry)).

(** The query [q] with another [max-count]. *)
Definition withMaxCount (q : LogRoute.Query) (value : option string) : LogRoute.Query :=
  {| LogRoute.qPath := LogRoute.qPath q;
     LogRoute.qFormat := LogRoute.qFormat q;
     LogRoute.qMaxCount := value;
     LogRoute.qSince := LogRoute.qSince q;
     LogRoute.qUntil := LogRoute.qUntil q;
     LogRoute.qAuthor := LogRoute.qAuthor q;
     LogRoute.qGrep := LogRoute.qGrep q;
     LogRoute.qFile := LogRoute.qFile q;
     LogRoute.qStat := LogRoute.qStat q;
     LogRoute.qNumstat := LogRoute.qNumstat q |}.

(* ------------------------------------------------------------------ *)
(** ** Sample environments and streams *)

Definition unlines (l : list string) : string := JS.join (String newline "") l.
Definition tabbed (l : list string) : string := JS.join (String tab "") l.

(** No [.git] anywhere and a [git] that finds no repository. *)
Definition bareWorld : World :=
  {| homedir := "/home/dev";
     cwd := "/srv/app";
     fsTree := fun _ => None;
     access := fun _ => Ok tt;
     stat := fun _ => None;
     readFile := fun _ => None;
     exec := fun _ _ => Err "fatal: not a git repository" |}.

(** A [git] that prints [output] for every command. *)
Definition worldPrinting (tree : string -> option fsnode) (output : string) : World :=
  {| homedir := "/home/dev";
     cwd := "/srv/app";
     fsTree := tree;
     access := fun _ => Ok tt;
     stat := fun _ => None;
     readFile := fun _ => None;
     exec := fun _ _ => Ok (output, "") |}.

Definition packOf (size : Z) (dirPath : string) : option fsnode :=
  if String.eqb dirPath "/tmp/repo/.git"
  then Some (FsDir (Some [("HEAD", FsFile (Some 23));
                          ("objects", FsDir (Some [("pack", FsFile (Some size))]))]))
  else None.

Definition queryWithMaxCount (n : string) : LogRoute.Query :=
  {| LogRoute.qPath := Some "/tmp/repo";
     LogRoute.qFormat := Some "oneline";
     LogRoute.qMaxCount := Some n;
     LogRoute.qSince := None;
     LogRoute.qUntil := None;
     LogRoute.qAuthor := None;
     LogRoute.qGrep := None;
     LogRoute.qFile := None;
     LogRoute.qStat := None;
     LogRoute.qNumstat := None |}.

(** One commit and one file line whose path holds [[]]. *)
Definition streamWithRejectedPath : string :=
  unlines ["9fceb02|add route|Ann|ann@example.org|1700000000";
         tabbed ["1"; "2"; "src/a[].ts"]].

(** The same stream without the file line. *)
Definition streamWithoutRejectedPath : string :=
  unlines ["9fceb02|add route|Ann|ann@example.org|1700000000"].

(** Three headers, the second with four fields. *)
Definition streamWithShortHeader : string :=
  unlines ["9fceb02|add route|Ann|ann@example.org|1700000000";
         tabbed ["1"; "0"; "src/a.ts"];
         "77aa001|fix parser|Bob|bob@example.org";
         "c0ffee1|initial|Ann|ann@example.org|1600000000";
         tabbed ["3"; "0"; "src/b.ts"]].

(** Headers whose dates are beyond the integers that a double holds: a
    count of seconds whose product with 1000 is rounded, and one of 400
    digits. *)
Definition streamWithLateDates : string :=
  unlines ["9fceb02|add route|Ann|ann@example.org|1700000000";
         tabbed ["1"; "0"; "src/a.ts"];
         "77aa001|fix parser|Bob|bob@example.org";
         "abc| late |A|a@b|144115188075857";
         "fff|never|C|c@d|" ++ String.concat "" (repeat "9" 400)].

(** One file in three commits, with (2,0), (0,1) and (5,3). *)
Definition streamThreeCommits : string :=
  unlines ["c3|third|Ann|ann@example.org|1700000300";
         tabbed ["2"; "0"; "src/a.ts"];
         "c2|second|Ann|ann@example.org|1700000200";
         tabbed ["0"; "1"; "src/a.ts"];
         "c1|first|Ann|ann@example.org|1700000100";
         tabbed ["5"; "3"; "src/a.ts"]].

(* ------------------------------------------------------------------ *)
(** ** Views of the parsed records *)

(** What a commit takes from its header line. *)
Definition headerOf (c : CommitData) : string * string * string * string * jsnum :=
  (sha c, message c, author c, authorEmail c, date c).

(** The trimmed lines with exactly five fields between pipes, in order. *)
Definition headerLines (lines : list string) : list string :=
  filter (fun l => (List.length (JS.split "|" l) =? 5)%nat) (map JS.trim lines).

(** The header that a five-field line stands for: the first field as it
    is, the next three trimmed, the fifth parsed and turned from seconds
    into milliseconds. *)
Definition headerOfLine (l : string) : string * string * string * string * jsnum :=
  let parts := JS.split "|" l in
  (nth 0 parts "",
   JS.trim (nth 1 parts ""),
   JS.trim (nth 2 parts ""),
   JS.trim (nth 3 parts ""),
   JS.mul (JS.parseInt (nth 4 parts "")) (Num 1000)).

Definition expectedHeaders (lines : list string)
  : list (string * string * string * string * jsnum) :=
  map headerOfLine (headerLines lines).

(** [cs] followed by the open commit, if any. *)
Definition openList (current : option CommitData) : list CommitData :=
  match current with
  | Some c => [c]
  | None => []
  end.

(** An entry of the file map as [recordFile] writes it. *)
Definition fileEntryOk (entry : string * FileData) : Prop :=
  path (snd entry) = fst entry /\
  sanitizeFilePath (fst entry) = Ok (fst entry) /\
  extension (snd entry) = NodePath.extname (fst entry) /\
  language (snd entry) = detectLanguage (fst entry).

Definition fileMapOk (m : FileMap) : Prop :=
  NoDup (map fst m) /\ Forall fileEntryOk m.

(** The change count the map holds for [k]; 0 for a missing key. *)
Definition changesOf (k : string) (m : FileMap) : Z :=
  match mapGet k m with
  | Some fd => totalChanges fd
  | None => 0
  end.

(** How often [k] is listed in the [filesChanged] of the commits. *)
Definition touches (k : string) (cs : list CommitData) : Z :=
  Z.of_nat (count_occ string_dec (List.concat (map filesChanged cs)) k).

(** A record as the parsing loop leaves it, before any enrichment. *)
Definition freshRecord (fd : FileData) : Prop :=
  currentSize fd = 0 /\ isDeleted fd = false /\
  maxComplexity fd = None /\ avgComplexity fd = None /\ primaryAuthors fd = None.

(** An author name that the filter of the author pass keeps. *)
Definition authorOk (a : string) : Prop :=
  (0 < String.length a < 100)%nat.

(** A record as [parseGitLog] hands it out. *)
Definition enrichedRecord (k : string) (fd : FileData) : Prop :=
  fileRecordOk fd /\
  path fd = k /\
  avgComplexity fd = maxComplexity fd /\
  (forall c, maxComplexity fd = Some c -> 0 <= c <= 100) /\
  (isDeleted fd = true -> currentSize fd = 0 /\ maxComplexity fd = Some 0) /\
  exists authors, primaryAuthors fd = Some authors /\ Forall authorOk authors.

(** A file system with one repository whose only file is [src/a.ts]. *)
Definition worldWithFile (output : string) : World :=
  {| homedir := "/home/dev";
     cwd := "/srv/app";
     fsTree := fun _ => None;
     access := fun _ => Ok tt;
     stat := fun p => if String.eqb p "/tmp/repo/src/a.ts" then Some 42 else None;
     readFile := fun p =>
       if String.eqb p "/tmp/repo/src/a.ts"
       then Some "export function f(x) { if (x) { return 1 } return 2 }"
       else None;
     exec := fun command _ =>
       if String.prefix "git log --pretty" command then Ok (output, "")
       else Ok (unlines ["      3 Ann"; "      1 Bob"; ""], "") |}.

(** The loop of [getDirectorySize] over a listing, from a sum so far. *)
Fixpoint listingSize (items : list (string * fsnode)) (totalSize : Z) : Z :=
  match items with
  | [] => totalSize
  | (_, item) :: rest =>
      match item with
      | FsDir _ => listingSize rest (totalSize + getDirectorySizeNode item)
      | FsFile (Some size) => listingSize rest (totalSize + size)
      | FsFile None => totalSize
      | FsOther => listingSize rest totalSize
      end
  end.

(** No file below [n] reports a negative size. *)
Fixpoint sizesNonNegative (n : fsnode) : bool :=
  match n with
  | FsFile (Some size) => 0 <=? size
  | FsFile None => true
  | FsDir (Some items) =>
      (fix all (items : list (string * fsnode)) : bool :=
         match items with
         | [] => true
         | (_, item) :: rest => sizesNonNegative item && all rest
         end) items
  | FsDir None => true
  | FsOther => true
  end.

(** [s] holds no separator. *)
Definition noSlash (s : string) : bool :=
  negb (anyChar (fun c => Ascii.eqb c "/") s).

(** A segment of a normalized path: not empty, not [.], not [..], and
    without separator. *)
Definition cleanSegment (s : string) : bool :=
  negb (String.eqb s "") && negb (String.eqb s ".") &&
  negb (String.eqb s "..") && noSlash s.

(** The absolute path with the given segments. *)
Definition absolutePath (segs : list string) : string :=
  "/" ++ JS.join "/" segs.

(** The filter values of a query, in the order they are appended. *)
Definition filters (q : LogRoute.Query) : list (option string) :=
  [LogRoute.qSince q; LogRoute.qUntil q; LogRoute.qAuthor q;
   LogRoute.qGrep q; LogRoute.qFile q].

(** A filter that is present and that [sanitizeGitParameter] rejects. *)
Definition rejectedFilter (value : option string) : bool :=
  truthy value &&
  match sanitizeGitParameter (LogRoute.orElse value "") with
  | Ok _ => false
  | Err _ => true
  end.

Definition queryWithAuthor (value : string) : LogRoute.Query :=
  {| LogRoute.qPath := Some "/tmp/repo";
     LogRoute.qFormat := None;
     LogRoute.qMaxCount := None;
     LogRoute.qSince := Some "2 weeks ago";
     LogRoute.qUntil := None;
     LogRoute.qAuthor := Some value;
     LogRoute.qGrep := None;
     LogRoute.qFile := None;
     LogRoute.qStat := None;
     LogRoute.qNumstat := None |}.

(** *** The structured answer of [GET]

    For the format [pretty] without statistics the handler turns the
    output into one summary per non-blank line. A field that the line
    does not have is [undefined], here [None]. *)
Record CommitSummary : Type := {
  summarySha : option string;
  summaryMessage : option string;
  summaryAuthor : option string;
  summaryAuthorEmail : option string;
  summaryDate : jsnum;
  summaryParents : list string
}.

Definition isQuote (c : ascii) : bool := Ascii.eqb c (ascii_of_N 34).
Definition isSpace (c : ascii) : bool := Ascii.eqb c " ".

(** [field?.replace(...)] with the pattern of one double quote. *)
Definition unquote (field : option string) : option string :=
  option_map (removeClass isQuote) field.

Definition summaryOfLine (line : string) : CommitSummary :=
  let parts := JS.split "|" line in
  let sha := nth_error parts 0 in
  let message := nth_error parts 1 in
  let author := nth_error parts 2 in
  let authorEmail := nth_error parts 3 in
  let timestamp := nth_error parts 4 in
  let parents := nth_error parts 5 in
  {| summarySha := unquote sha;
     summaryMessage := unquote message;
     summaryAuthor := unquote author;
     summaryAuthorEmail := unquote authorEmail;
     summaryDate := JS.mul (JS.parseInt_opt (unquote timestamp)) (Num 1000);
     summaryParents :=
       match unquote parents with
       | Some ps =>
           filter (fun p => (0 <? String.length p)%nat) (JS.split " " ps)
       | None => []
       end |}.

(** [stdout.split('\n').filter(line => line.trim().length > 0).map(...)]. *)
Definition structuredCommits (stdout : string) : list CommitSummary :=
  map summaryOfLine
      (filter (fun line => (0 <? String.length (JS.trim line))%nat)
              (JS.split newline stdout)).

(** The [commits] of the answer: present for [pretty] without [stat] and
    [numstat], absent when only the raw output is returned. *)
Definition parsedData (q : LogRoute.Query) (stdout : string)
  : option (list CommitSummary) :=
  if String.eqb (LogRoute.orElse (LogRoute.qFormat q) "pretty") "pretty"
     && negb (LogRoute.isTrue (LogRoute.qStat q))
     && negb (LogRoute.isTrue (LogRoute.qNumstat q))
  then Some (structuredCommits stdout)
  else None.

(** A text field without double quote. *)
Definition quoteFree (field : option string) : Prop :=
  match field with
  | Some s => anyChar isQuote s = false
  | None => True
  end.

Definition isDot (c : ascii) : bool := Ascii.eqb c ".".

(** A class character directly followed by a closing bracket. *)
Fixpoint hasBracketPair (cls : ascii -> bool) (s : string) : bool :=
  match s with
  | EmptyString => false
  | String c r =>
      match r with
      | String d _ => (cls c && Ascii.eqb d "]") || hasBracketPair cls r
      | EmptyString => false
      end
  end.

(** What every commit of a parse satisfies. *)
Definition commitShape (c : CommitData) : Prop :=
  padded (message c) = false /\
  padded (author c) = false /\
  padded (authorEmail c) = false /\
  tags c = [].

(** The query with the decimal text of [n] as [max-count]. *)
Definition queryLimitedTo (q : LogRoute.Query) (n : Z) : LogRoute.Query :=
  withMaxCount q (Some (JS.string_of_Z n)).

(** A segment that [normalizeString] keeps when it meets it. *)
Definition keptSegment (s : string) : bool :=
  negb (String.eqb s "" || String.eqb s ".").


(* ------------------------------------------------------------------ *)
(** ** Facts on strings *)

Lemma prefix_refl (s : string) : String.prefix s s = true.
Proof.
  induction s as [|c s IH]; simpl; [reflexivity|].
  destruct (ascii_dec c c); [exact IH | congruence].
Qed.

Lemma prefix_app (a b : string) : String.prefix a (a ++ b) = true.
Proof.
  induction a as [|c a IH]; simpl.
  - destruct b; reflexivity.
  - destruct (ascii_dec c c); [exact IH | congruence].
Qed.

Lemma prefix_trans (a b c : string) :
  String.prefix a b = true -> String.prefix b c = true -> String.prefix a c = true.
Proof.
  revert b c; induction a as [|x a IH]; intros b c Hab Hbc.
  - destruct c; reflexivity.
  - destruct b as [|y b]; simpl in Hab; [discriminate|].
    destruct (ascii_dec x y) as [->|]; [|discriminate].
    destruct c as [|z c]; simpl in Hbc; [discriminate|].
    destruct (ascii_dec y z) as [->|]; [|discriminate].
    simpl. destruct (ascii_dec z z); [|congruence].
    eapply IH; eassumption.
Qed.

Lemma prefix_length (a b : string) :
  String.prefix a b = true -> (String.length a <= String.length b)%nat.
Proof.
  revert b; induction a as [|x a IH]; intros b H; simpl; [lia|].
  destruct b as [|y b]; simpl in H; [discriminate|].
  destruct (ascii_dec x y); [|discriminate].
  apply IH in H. simpl. lia.
Qed.

Lemma append_length (a b : string) :
  String.length (a ++ b) = (String.length a + String.length b)%nat.
Proof. induction a; simpl; congruence. Qed.

Lemma trimStart_length (s : string) :
  (String.length (JS.trimStart s) <= String.length s)%nat.
Proof.
  induction s as [|c s IH]; simpl; [lia|].
  destruct (JS.is_ws c); simpl; lia.
Qed.

Lemma trimEnd_length (s : string) :
  (String.length (JS.trimEnd s) <= String.length s)%nat.
Proof.
  induction s as [|c s IH]; simpl; [lia|].
  destruct (JS.is_ws c && JS.is_empty (JS.trimEnd s)); simpl; lia.
Qed.

Lemma trim_length (s : string) :
  (String.length (JS.trim s) <= String.length s)%nat.
Proof.
  unfold JS.trim.
  pose proof (trimEnd_length (JS.trimStart s)).
  pose proof (trimStart_length s). lia.
Qed.

Lemma trimStart_fixed (s : string) :
  firstWs s = false -> JS.trimStart s = s.
Proof. destruct s as [|c s]; simpl; [reflexivity|]. intros ->. reflexivity. Qed.

Lemma trimStart_moved (s : string) :
  firstWs s = true -> (String.length (JS.trimStart s) < String.length s)%nat.
Proof.
  destruct s as [|c s]; simpl; [discriminate|]. intros ->.
  pose proof (trimStart_length s). lia.
Qed.

Lemma trimEnd_fixed (s : string) :
  JS.trimEnd s = s <-> lastWs s = false.
Proof.
  induction s as [|c s IH]; [simpl; tauto|].
  destruct s as [|d s'].
  - simpl. destruct (JS.is_ws c); simpl; split; congruence.
  - change (lastWs (String c (String d s'))) with (lastWs (String d s')).
    change (JS.trimEnd (String c (String d s')))
      with (if JS.is_ws c && JS.is_empty (JS.trimEnd (String d s'))
            then EmptyString else String c (JS.trimEnd (String d s'))).
    rewrite <- IH. split.
    + destruct (JS.is_ws c && JS.is_empty (JS.trimEnd (String d s')));
        [discriminate | congruence].
    + intros ->. simpl. rewrite andb_false_r. reflexivity.
Qed.

(** [trim] changes exactly the strings that start or end with white space. *)
Lemma trim_fixed (s : string) : JS.trim s = s <-> padded s = false.
Proof.
  unfold JS.trim, padded. destruct (firstWs s) eqn:Hf; simpl.
  - split; [|discriminate]. intros H. exfalso.
    pose proof (trimStart_moved s Hf).
    pose proof (trimEnd_length (JS.trimStart s)).
    rewrite H in *. lia.
  - rewrite (trimStart_fixed s Hf). apply trimEnd_fixed.
Qed.

Lemma removeClass_length (cls : ascii -> bool) (s : string) :
  (String.length (removeClass cls s) <= String.length s)%nat.
Proof.
  induction s as [|c s IH]; simpl; [lia|].
  destruct (cls c); simpl; lia.
Qed.

Lemma removeClass_shrinks (cls : ascii -> bool) (s : string) :
  anyChar cls s = true ->
  (String.length (removeClass cls s) < String.length s)%nat.
Proof.
  induction s as [|c s IH]; simpl; [discriminate|].
  pose proof (removeClass_length cls s) as Hle.
  destruct (cls c); simpl; intros H; [lia|].
  apply IH in H. lia.
Qed.

Lemma removeClass_fixed (cls : ascii -> bool) (s : string) :
  anyChar cls s = false -> removeClass cls s = s.
Proof.
  induction s as [|c s IH]; simpl; [reflexivity|].
  destruct (cls c); simpl; [discriminate|].
  intros H. rewrite IH by assumption. reflexivity.
Qed.

Lemma eqb_length_neq (a b : string) :
  String.length a <> String.length b -> String.eqb a b = false.
Proof.
  intros H. apply String.eqb_neq. intros ->. apply H. reflexivity.
Qed.

(* ------------------------------------------------------------------ *)
(** ** The parameter sanitizer *)

(** C5, as amended. [sanitizeGitParameter] throws on every string that
    holds one of [; & | ` $ ( ) { } [ ] \]; a string that holds none of
    them comes back unchanged when it neither starts nor ends with white
    space, and is rejected as well when it does. *)
Theorem sanitizeGitParameter_spec (param : string) :
  (anyChar gitParameterClass param = true ->
   sanitizeGitParameter param = Err "Invalid characters in parameter") /\
  (anyChar gitParameterClass param = false -> padded param = false ->
   sanitizeGitParameter param = Ok param) /\
  (anyChar gitParameterClass param = false -> padded param = true ->
   sanitizeGitParameter param = Err "Invalid characters in parameter").
Proof.
  unfold sanitizeGitParameter. repeat split.
  - intros H. rewrite eqb_length_neq; [reflexivity|].
    pose proof (removeClass_shrinks _ _ H).
    pose proof (trim_length (removeClass gitParameterClass param)). lia.
  - intros H Hp. rewrite (removeClass_fixed _ _ H).
    apply trim_fixed in Hp. rewrite Hp, String.eqb_refl. reflexivity.
  - intros H Hp. rewrite (removeClass_fixed _ _ H).
    destruct (String.eqb (JS.trim param) param) eqn:E; [|reflexivity].
    apply String.eqb_eq, trim_fixed in E. congruence.
Qed.

Lemma sanitizeGitParameter_spec_witness :
  sanitizeGitParameter "a;b" = Err "Invalid characters in parameter" /\
  sanitizeGitParameter "2 weeks ago" = Ok "2 weeks ago" /\
  sanitizeGitParameter " main" = Err "Invalid characters in parameter".
Proof.
  split; [|split].
  - exact (proj1 (sanitizeGitParameter_spec "a;b") eq_refl).
  - exact (proj1 (proj2 (sanitizeGitParameter_spec "2 weeks ago")) eq_refl eq_refl).
  - exact (proj2 (proj2 (sanitizeGitParameter_spec " main")) eq_refl eq_refl).
Defined.

(** C5 as the specification words it fails on a padded string: [" main"]
    holds no forbidden character and is rejected all the same. *)
Lemma padded_parameter_rejected : ~ SpecifiedParameter sanitizeGitParameter.
Proof.
  intros H. destruct (H " main") as [_ H2].
  specialize (H2 eq_refl). discriminate H2.
Qed.

(** The pattern of [sanitizeFilePath] lets a lone metacharacter through
    and only removes one that stands before a closing bracket. *)
Lemma sanitizeFilePath_lone_metacharacter :
  sanitizeFilePath "a;b" = Ok "a;b" /\
  sanitizeFilePath "$(reboot)" = Ok "$(reboot)" /\
  sanitizeFilePath "a;]b" = Err "Invalid characters in file path".
Proof. repeat split. Qed.

(* ------------------------------------------------------------------ *)
(** ** The complexity scorer *)

Lemma fold_left_add_counts (f : string -> nat) (l : list string) (start : Z) :
  fold_left (fun acc x => acc + Z.of_nat (f x)) l start
  = start + Z.of_nat (list_sum (map f l)).
Proof.
  revert start; induction l as [|x l IH]; intros start; simpl.
  - lia.
  - rewrite IH. lia.
Qed.

(** The scan of [countChar] finds the characters that are [c]. *)
Lemma countChar_occurrences (c : ascii) (s : string) :
  countChar c s = charOccurrences c s.
Proof.
  unfold charOccurrences. induction s as [|a s IH]; [reflexivity|].
  cbn [countChar list_ascii_of_string filter]. rewrite IH.
  destruct (Ascii.eqb a c) eqn:E.
  - apply Ascii.eqb_eq in E. subst a. rewrite Ascii.eqb_refl. reflexivity.
  - destruct (Ascii.eqb c a) eqn:E'; [|reflexivity].
    apply Ascii.eqb_eq in E'. subst a. rewrite Ascii.eqb_refl in E. discriminate.
Qed.

Lemma boundaryAfter_get (n : nat) (s : string) :
  boundaryAfter n s = negb (wordCharAt s n).
Proof.
  revert s. induction n as [|n IH]; intros s; destruct s as [|c s];
    try reflexivity.
  apply IH.
Qed.

Lemma substring_skip (pre s : string) (n : nat) :
  String.substring (String.length pre) n (pre ++ s) = String.substring 0 n s.
Proof. induction pre as [|c pre IH]; [reflexivity | exact IH]. Qed.

Lemma get_skip (pre s : string) (n : nat) :
  String.get (String.length pre + n) (pre ++ s) = String.get n s.
Proof. induction pre as [|c pre IH]; [reflexivity | exact IH]. Qed.

Lemma prefix_substring (kw s : string) :
  String.prefix kw s = String.eqb (String.substring 0 (String.length kw) s) kw.
Proof.
  destruct (String.prefix kw s) eqn:E.
  - apply String.prefix_correct in E. rewrite E, String.eqb_refl. reflexivity.
  - destruct (String.eqb _ kw) eqn:E'; [|reflexivity].
    apply String.eqb_eq, String.prefix_correct in E'. congruence.
Qed.

Lemma append_char (pre : string) (c : ascii) (r : string) :
  (pre ++ String c "") ++ r = pre ++ String c r.
Proof. induction pre as [|a pre IH]; simpl; congruence. Qed.

Lemma length_append_char (pre : string) (c : ascii) :
  String.length (pre ++ String c "") = S (String.length pre).
Proof. induction pre as [|a pre IH]; simpl; congruence. Qed.

Lemma existsb_pointwise {A : Type} (f g : A -> bool) (l : list A) :
  (forall x, f x = g x) -> existsb f l = existsb g l.
Proof. intros H. induction l as [|a l IH]; simpl; congruence. Qed.

Lemma wordCharAt_skip (pre s : string) (n : nat) :
  wordCharAt (pre ++ s) (String.length pre + n) = wordCharAt s n.
Proof. unfold wordCharAt. rewrite get_skip. reflexivity. Qed.

(** What the scan tests at the head of the rest [s] is what [occursAt]
    tests at the position where [s] starts. *)
Lemma wordAt_position (pre s kw : string) :
  wordAt (match String.length pre with
          | O => false
          | S j => wordCharAt (pre ++ s) j
          end) s kw
  = occursAt (pre ++ s) kw (String.length pre).
Proof.
  unfold wordAt, occursAt.
  rewrite substring_skip, wordCharAt_skip, <- prefix_substring, boundaryAfter_get.
  generalize (String.prefix kw s) (wordCharAt s (String.length kw)).
  intros p q.
  destruct (String.length pre) as [|j].
  - destruct p, q; reflexivity.
  - generalize (wordCharAt (pre ++ s) j). intros b.
    destruct p, q, b; reflexivity.
Qed.

Lemma countWordsFrom_positions (kws : list string) (s pre : string) :
  countWordsFrom kws
    (match String.length pre with
     | O => false
     | S j => wordCharAt (pre ++ s) j
     end) s
  = List.length
      (filter (fun i => existsb (fun kw => occursAt (pre ++ s) kw i) kws)
              (seq (String.length pre) (String.length s))).
Proof.
  revert pre. induction s as [|c r IH]; intros pre; [reflexivity|].
  cbn [countWordsFrom String.length seq filter].
  rewrite (existsb_pointwise _ _ kws (wordAt_position pre (String c r))).
  specialize (IH (pre ++ String c "")).
  rewrite append_char, length_append_char in IH.
  assert (Hc : wordCharAt (pre ++ String c r) (String.length pre) = JS.is_word c).
  { unfold wordCharAt.
    rewrite <- (Nat.add_0_r (String.length pre)), get_skip. reflexivity. }
  rewrite Hc in IH. rewrite IH.
  destruct (existsb _ kws); reflexivity.
Qed.

(** The scan of [countWords] finds the positions where a keyword stands
    as a whole word. *)
Lemma countWords_occurrences (kws : list string) (s : string) :
  countWords kws s = wordOccurrences kws s.
Proof. exact (countWordsFrom_positions kws s ""). Qed.

Lemma calculateComplexity_unfold (content : string) (language : option string) :
  calculateComplexity content language = specifiedComplexity content language.
Proof.
  unfold calculateComplexity, specifiedComplexity, keywordOccurrences.
  rewrite fold_left_add_counts. cbn [controlPatterns map list_sum fold_right].
  rewrite !countWords_occurrences, !countChar_occurrences.
  destruct language as [l|]; simpl isEcmaScript;
    [destruct (String.eqb l "typescript" || String.eqb l "javascript")|]; lia.
Qed.

Lemma countWords_empty (kws : list string) : countWords kws "" = O.
Proof. reflexivity. Qed.

(** C6. The score is the clamped sum of the specification: one, the
    positions where one of the eleven keywords stands as a whole word
    (no word character before it nor after it), twice the positive
    excess of the characters [{] over the characters [}], and for
    TypeScript and JavaScript the positions where [async] or [await]
    stands as a whole word. It lies in [1, 100], is 1 on the empty
    content and 100 once 99 keywords occur. In [if (a) { while (b) {
    notif(); } return iffy] three keywords and one unclosed brace give
    6, [notif] and [iffy] counting for nothing; [async function f() {
    await g(); }] scores 4 as TypeScript and 2 without a language. *)
Theorem calculateComplexity_spec (content : string) (language : option string) :
  calculateComplexity content language = specifiedComplexity content language /\
  1 <= calculateComplexity content language <= 100 /\
  calculateComplexity "" language = 1 /\
  ((99 <= keywordOccurrences content)%nat ->
   calculateComplexity content language = 100) /\
  calculateComplexity "if (a) { while (b) { notif(); } return iffy" language = 6 /\
  calculateComplexity "async function f() { await g(); }" (Some "typescript") = 4 /\
  calculateComplexity "async function f() { await g(); }" None = 2.
Proof.
  split; [apply calculateComplexity_unfold|].
  rewrite !(calculateComplexity_unfold content),
          !(calculateComplexity_unfold "" language).
  unfold specifiedComplexity.
  split; [|split; [|split; [|split; [|split]]]].
  - destruct (isEcmaScript language); lia.
  - simpl. destruct (isEcmaScript language); reflexivity.
  - intros H. destruct (isEcmaScript language); lia.
  - destruct language as [l|]; unfold calculateComplexity;
      [destruct (String.eqb l "typescript" || String.eqb l "javascript")|];
      vm_compute; reflexivity.
  - vm_compute. reflexivity.
  - vm_compute. reflexivity.
Qed.

(** Ninety-nine [if]s. *)
Lemma calculateComplexity_spec_witness :
  (99 <= keywordOccurrences (String.concat " " (repeat "if" 99)))%nat /\
  calculateComplexity
    (String.concat " " (repeat "if" 99)) (Some "typescript") = 100.
Proof.
  assert (H : (99 <= keywordOccurrences (String.concat " " (repeat "if" 99)))%nat).
  { apply Nat.leb_le. vm_compute. reflexivity. }
  split; [exact H|].
  exact (proj1 (proj2 (proj2 (proj2
           (calculateComplexity_spec (String.concat " " (repeat "if" 99))
                                     (Some "typescript"))))) H).
Defined.

(* ------------------------------------------------------------------ *)
(** ** The command gateway *)




(** The two commands of the specification, through the whole handler. *)
Lemma POST_examples :
  LogRoute.POST (worldPrinting (fun _ => None) "") "r1"
    (Some "git push origin main") (Some "/tmp/repo")
  = ([], RespForbidden "Command not allowed" LogRoute.allowedCommands) /\
  LogRoute.POST (worldPrinting (fun _ => None) "") "r1"
    (Some "git log --oneline") (Some "/tmp/repo")
  = ([("git log --oneline", "/tmp/repo")],
     RespOutput "r1" "git log --oneline" "" "").
Proof. split; reflexivity. Qed.

(* ------------------------------------------------------------------ *)
(** ** The limit of the read path *)

(** C4, where the code departs from it. A [max-count] above 1000 is not
    clamped: the option is left out, and the command that is run has no
    limit at all. The same holds for 0, for a negative count and for a
    count that is no number. *)
Theorem GET_max_count_not_clamped :
  (forall n, 1000 < n -> LogRoute.maxCountOption (Num n) = "") /\
  (forall n, n <= 0 -> LogRoute.maxCountOption (Num n) = "") /\
  LogRoute.maxCountOption NaN = "" /\
  LogRoute.buildCommand (queryWithMaxCount "5000") = Ok "git log --oneline" /\
  LogRoute.GET (worldPrinting (fun _ => None) "") "r1" (queryWithMaxCount "5000")
  = ([("git log --oneline", "/tmp/repo")],
     RespOutput "r1" "git log --oneline" "" "") /\
  LogRoute.buildCommand (queryWithMaxCount "1000")
  = Ok "git log --oneline --max-count=1000".
Proof.
  repeat split.
  - intros n H. unfold LogRoute.maxCountOption. simpl.
    replace (n <=? 1000) with false by (symmetry; apply Z.leb_gt; lia).
    rewrite andb_false_r. reflexivity.
  - intros n H. unfold LogRoute.maxCountOption. simpl.
    replace (0 <? n) with false by (symmetry; apply Z.ltb_ge; lia).
    reflexivity.
Qed.

Lemma GET_max_count_not_clamped_witness :
  LogRoute.maxCountOption (Num 5000) = "".
Proof.
  apply (proj1 GET_max_count_not_clamped 5000). lia.
Defined.

(** A request for more than 1000 commits builds the command of the
    same request with the limit switched off. *)
Lemma buildCommand_above_1000 (q : LogRoute.Query) (n : Z) :
  JS.parseInt (LogRoute.orElse (LogRoute.qMaxCount q) "100") = Num n ->
  1000 < n ->
  LogRoute.buildCommand q = LogRoute.buildCommand (withMaxCount q (Some "0")).
Proof.
  intros Hn Hbig. unfold LogRoute.buildCommand, withMaxCount.
  cbn [LogRoute.qFormat LogRoute.qMaxCount LogRoute.qSince LogRoute.qUntil
       LogRoute.qAuthor LogRoute.qGrep LogRoute.qFile LogRoute.qStat
       LogRoute.qNumstat].
  rewrite Hn.
  change (JS.parseInt (LogRoute.orElse (Some "0") "100")) with (Num 0).
  unfold LogRoute.maxCountOption. simpl JS.gtb. simpl JS.leb.
  replace (n <=? 1000) with false by (symmetry; apply Z.leb_gt; lia).
  rewrite andb_false_r. reflexivity.
Qed.

(* ------------------------------------------------------------------ *)
(** ** The size guard in [parseGitLog] *)

(** C3. Once the path is accepted: above 50 MiB [parseGitLog] throws the
    too-large error and starts no subprocess at all; otherwise the first
    subprocess it starts is [git log] with the five-field format,
    [--numstat] and [--max-count=] followed by the decimal text of the
    smaller of [estimatedCommits] and 1000, [estimatedCommits] being the
    size in bytes divided by 1024 and rounded down. *)
Theorem parseGitLog_size_guard (fuel : nat) (w : World) (repoPath p : string) :
  sanitizeRepositoryPath w repoPath = Ok p ->
  (sizeBytes (checkRepositorySize w p) > 50 * 1024 * 1024 ->
   parseGitLog fuel w repoPath
   = ([], Throws (tooLargeMessage (sizeBytes (checkRepositorySize w p))))) /\
  (sizeBytes (checkRepositorySize w p) <= 50 * 1024 * 1024 ->
   estimatedCommits (checkRepositorySize w p)
   = sizeBytes (checkRepositorySize w p) / 1024 /\
   exists rest out,
     parseGitLog fuel w repoPath
     = (("git log --pretty=format:" ++ dquote ++ "%H|%s|%an|%ae|%ct" ++ dquote
           ++ " --numstat --max-count="
           ++ JS.string_of_Z (Z.min (estimatedCommits (checkRepositorySize w p)) 1000),
         p) :: rest, out)).
Proof.
  intros Hs. unfold parseGitLog. rewrite Hs. split; intros Hsize.
  - replace (sizeBytes (checkRepositorySize w p) >? MAX_REPO_SIZE) with true;
      [reflexivity|].
    symmetry. apply Z.gtb_lt. unfold MAX_REPO_SIZE. lia.
  - split; [reflexivity|].
    replace (sizeBytes (checkRepositorySize w p) >? MAX_REPO_SIZE) with false.
    2:{ symmetry. rewrite Z.gtb_ltb. apply Z.ltb_ge. unfold MAX_REPO_SIZE. lia. }
    unfold MAX_COMMITS.
    change (logCommand (Z.min (estimatedCommits (checkRepositorySize w p)) 1000))
      with ("git log --pretty=format:" ++ dquote ++ "%H|%s|%an|%ae|%ct" ++ dquote
              ++ " --numstat --max-count="
              ++ JS.string_of_Z
                   (Z.min (estimatedCommits (checkRepositorySize w p)) 1000)).
    destruct (exec w _ p) as [[logOutput err]|msg]; [|eauto].
    destruct (parseLines fuel logOutput); eauto.
Qed.

(** A pack of 60000000 bytes is refused; with 600000 bytes the limit is
    585. *)
Lemma parseGitLog_size_guard_witness :
  parseGitLog 8 (worldPrinting (packOf 60000000) "") "/tmp/repo"
  = ([], Throws "Repository too large (57MB). Maximum allowed: 50MB") /\
  exists rest out,
    parseGitLog 8 (worldPrinting (packOf 600000) "") "/tmp/repo"
    = (("git log --pretty=format:" ++ dquote ++ "%H|%s|%an|%ae|%ct" ++ dquote
          ++ " --numstat --max-count=585", "/tmp/repo") :: rest, out).
Proof.
  split.
  - apply (parseGitLog_size_guard 8 (worldPrinting (packOf 60000000) "")
             "/tmp/repo" "/tmp/repo" eq_refl).
    reflexivity.
  - apply (parseGitLog_size_guard 8 (worldPrinting (packOf 600000) "")
             "/tmp/repo" "/tmp/repo" eq_refl).
    discriminate.
Defined.

(* ------------------------------------------------------------------ *)
(** ** A repository without metadata directory *)

Lemma getDirectorySize_cannotRead (w : World) (dirPath : string) :
  cannotRead w dirPath -> getDirectorySize w dirPath = 0.
Proof.
  unfold cannotRead, getDirectorySize.
  destruct (fsTree w dirPath) as [[size|[items|]|]|]; simpl; tauto.
Qed.

Lemma parseLines_empty (fuel : nat) :
  parseLines (S fuel) ""
  = Some {| index := 1; currentCommit := None; commits := []; fileMap := [];
            console := [] |}.
Proof. destruct fuel; reflexivity. Qed.

(** C10, as amended. When the metadata directory cannot be read,
    [checkRepositorySize] returns zero for both fields, the size check
    passes and the first subprocess of the run is always the log command
    that ends in [--max-count=0]. If that command prints nothing the run
    returns no commit and no file and starts nothing else; if the
    command fails its error is rethrown to the caller. *)
Theorem parseGitLog_missing_metadata (fuel : nat) (w : World) (repoPath p : string) :
  sanitizeRepositoryPath w repoPath = Ok p ->
  cannotRead w (NodePath.join p ".git") ->
  let command :=
    "git log --pretty=format:" ++ dquote ++ "%H|%s|%an|%ae|%ct" ++ dquote
      ++ " --numstat --max-count=0" in
  checkRepositorySize w p = {| sizeBytes := 0; estimatedCommits := 0 |} /\
  (exists rest out,
     parseGitLog fuel w repoPath = ((command, p) :: rest, out)) /\
  (forall err, exec w command p = Ok ("", err) ->
     parseGitLog (S fuel) w repoPath
     = ([(command, p)],
        Returns {| parsedCommits := []; parsedFiles := [] |})) /\
  (forall msg, exec w command p = Err msg ->
     parseGitLog fuel w repoPath = ([(command, p)], Throws msg)).
Proof.
  intros Hs Hdir command.
  assert (Hsize : checkRepositorySize w p
                  = {| sizeBytes := 0; estimatedCommits := 0 |}).
  { unfold checkRepositorySize.
    rewrite (getDirectorySize_cannotRead _ _ Hdir). reflexivity. }
  split; [exact Hsize|].
  assert (Hrun : forall n,
             parseGitLog n w repoPath
             = match exec w command p with
               | Err msg => ([(command, p)], Throws msg)
               | Ok (logOutput, _) =>
                   match parseLines n logOutput with
                   | None => ([(command, p)], OutOfFuel)
                   | Some st =>
                       let files := map (enrichFile w p) (fileMap st) in
                       let authored := map (extractAuthors w p) files in
                       ((command, p) :: List.concat (map fst authored),
                        Returns {| parsedCommits := commits st;
                                   parsedFiles := map snd authored |})
                   end
               end).
  { intros n. unfold parseGitLog. rewrite Hs, Hsize. reflexivity. }
  split; [|split].
  - rewrite Hrun. destruct (exec w command p) as [[logOutput err]|msg].
    + destruct (parseLines fuel logOutput); do 2 eexists; reflexivity.
    + do 2 eexists. reflexivity.
  - intros err Hx. rewrite Hrun, Hx, parseLines_empty. reflexivity.
  - intros msg Hx. rewrite Hrun, Hx. reflexivity.
Qed.

(** A [git] that prints nothing, and the one of [bareWorld] that finds
    no repository. *)
Lemma parseGitLog_missing_metadata_witness :
  parseGitLog 1 (worldPrinting (fun _ => None) "") "/tmp/repo"
  = ([("git log --pretty=format:" ++ dquote ++ "%H|%s|%an|%ae|%ct" ++ dquote
         ++ " --numstat --max-count=0", "/tmp/repo")],
     Returns {| parsedCommits := []; parsedFiles := [] |}) /\
  parseGitLog 0 bareWorld "/tmp/repo"
  = ([("git log --pretty=format:" ++ dquote ++ "%H|%s|%an|%ae|%ct" ++ dquote
         ++ " --numstat --max-count=0", "/tmp/repo")],
     Throws "fatal: not a git repository").
Proof.
  split.
  - apply (parseGitLog_missing_metadata 0 (worldPrinting (fun _ => None) "")
             "/tmp/repo" "/tmp/repo" eq_refl I) with (err := "").
    reflexivity.
  - apply (parseGitLog_missing_metadata 0 bareWorld
             "/tmp/repo" "/tmp/repo" eq_refl I).
    reflexivity.
Defined.

(** C10 as the specification words it fails where [git] finds no
    repository: the run ends with that error, whatever the fuel, and the
    caller of the route gets the 500 answer. *)
Lemma missing_metadata_reports_error : ~ SpecifiedMissingMetadata bareWorld.
Proof.
  intros H. destruct (H "/tmp/repo" "/tmp/repo" eq_refl I) as (fuel & tr & E).
  unfold parseGitLog in E. simpl in E. discriminate E.
Qed.

Lemma missing_metadata_route_answer (fuel : nat) :
  ParseRoute.POST fuel bareWorld (Some "/tmp/repo") (Some "r1")
  = ([(logCommand 0, "/tmp/repo")],
     Returns (RespError 500 "Failed to parse git repository"
                (Some "fatal: not a git repository"))).
Proof. reflexivity. Qed.

(* ------------------------------------------------------------------ *)
(** ** The repository path sanitizer *)

Lemma withSeparator_prefix (base : string) :
  String.prefix base (withSeparator base) = true.
Proof.
  unfold withSeparator. destruct (JS.endsWithChar base "/").
  - apply prefix_refl.
  - apply prefix_app.
Qed.

(** Lying below a base implies starting with its text. *)
Lemma isUnder_prefix (base q : string) :
  isUnder base q = true -> String.prefix base q = true.
Proof.
  unfold isUnder. intros H. apply orb_true_iff in H. destruct H as [H|H].
  - apply String.eqb_eq in H. subst. apply prefix_refl.
  - eapply prefix_trans; [apply withSeparator_prefix | exact H].
Qed.

Lemma split_nonempty (sep : ascii) (s : string) : JS.split sep s <> [].
Proof.
  destruct s as [|c s]; simpl; [discriminate|].
  destruct (Ascii.eqb c sep); [discriminate|].
  destruct (JS.split sep s); discriminate.
Qed.

Lemma split_head_prefix (sep : ascii) (s h : string) (t : list string) :
  JS.split sep s = h :: t -> String.prefix h s = true.
Proof.
  revert h t; induction s as [|c s IH]; intros h t H; simpl in H.
  - injection H as <- _. reflexivity.
  - destruct (Ascii.eqb c sep).
    + injection H as <- _. reflexivity.
    + destruct (JS.split sep s) as [|h' t'] eqn:E.
      * injection H as <- _. simpl.
        destruct (ascii_dec c c); [|congruence]. destruct s; reflexivity.
      * injection H as <- _. simpl.
        destruct (ascii_dec c c); [|congruence]. eapply IH. reflexivity.
Qed.

Lemma includes_tail (c : ascii) (s sub : string) :
  JS.includes s sub = true -> JS.includes (String c s) sub = true.
Proof.
  intros H. change (JS.includes (String c s) sub)
    with (String.prefix sub (String c s) || JS.includes s sub).
  rewrite H. apply orb_true_r.
Qed.

Lemma includes_prefix (s sub : string) :
  String.prefix sub s = true -> JS.includes s sub = true.
Proof.
  intros H. destruct s; simpl; simpl in H; rewrite H; reflexivity.
Qed.

(** Every piece of [s.split(sep)] occurs in [s]. *)
Lemma split_piece_included (sep : ascii) (s x : string) :
  In x (JS.split sep s) -> JS.includes s x = true.
Proof.
  induction s as [|c s IH]; intros H.
  - simpl in H. destruct H as [<-|[]]. reflexivity.
  - simpl in H. destruct (Ascii.eqb c sep).
    + destruct H as [<-|H]; [reflexivity|].
      apply includes_tail, IH, H.
    + destruct (JS.split sep s) as [|h t] eqn:E.
      * exfalso. eapply split_nonempty. exact E.
      * destruct H as [<-|H].
        -- apply includes_prefix. simpl.
           destruct (ascii_dec c c); [|congruence].
           eapply split_head_prefix. exact E.
        -- apply includes_tail, IH. right. exact H.
Qed.

Lemma existsb_false_forall {A : Type} (f : A -> bool) (l : list A) :
  existsb f l = false <-> forall x, In x l -> f x = false.
Proof.
  induction l as [|a l IH]; simpl.
  - split; [intros _ x [] | reflexivity].
  - rewrite orb_false_iff, IH. split.
    + intros [Ha Hl] x [<-|Hx]; auto.
    + intros H. split; [apply H; left; reflexivity|].
      intros x Hx. apply H. right. exact Hx.
Qed.

(** C1, as amended. What [sanitizeRepositoryPath] returns is the
    normalized absolute resolution of its input, starts with an allowed
    base, and holds neither a [..] segment nor the texts [..] and [~]. A
    resolution under an allowed base is returned when it holds neither
    text and rejected as invalid when it holds one of them. A resolution
    that starts with no allowed base is rejected as not allowed. *)
Theorem sanitizeRepositoryPath_spec (w : World) (repoPath : string) :
  (forall r, sanitizeRepositoryPath w repoPath = Ok r ->
     r = resolution w repoPath /\
     (exists base, In base (ALLOWED_BASE_DIRS w) /\
                   String.prefix (NodePath.resolve (cwd w) base) r = true) /\
     ~ In ".." (JS.split "/" r) /\
     JS.includes r ".." = false /\ JS.includes r "~" = false) /\
  (underAllowedBase w (resolution w repoPath) = true ->
   JS.includes (resolution w repoPath) ".." = false ->
   JS.includes (resolution w repoPath) "~" = false ->
   sanitizeRepositoryPath w repoPath = Ok (resolution w repoPath)) /\
  (underAllowedBase w (resolution w repoPath) = true ->
   JS.includes (resolution w repoPath) ".." = true \/
   JS.includes (resolution w repoPath) "~" = true ->
   sanitizeRepositoryPath w repoPath
   = Err "Invalid characters in repository path") /\
  ((forall base, In base (ALLOWED_BASE_DIRS w) ->
      String.prefix (NodePath.resolve (cwd w) base) (resolution w repoPath) = false) ->
   sanitizeRepositoryPath w repoPath
   = Err "Repository path is not in an allowed directory").
Proof.
  unfold sanitizeRepositoryPath. fold (resolution w repoPath).
  set (r0 := resolution w repoPath).
  set (allowed := existsb _ (ALLOWED_BASE_DIRS w)).
  assert (Hunder : underAllowedBase w r0 = true -> allowed = true).
  { unfold underAllowedBase, allowed. intros H.
    apply existsb_exists in H. destruct H as (b & Hin & Hb).
    apply existsb_exists. exists b. split; [exact Hin|].
    apply isUnder_prefix, Hb. }
  repeat split.
  - destruct allowed; simpl in H; [|discriminate].
    destruct (JS.includes r0 ".." || JS.includes r0 "~"); [discriminate|].
    congruence.
  - destruct allowed eqn:Ea; simpl in H; [|discriminate].
    destruct (JS.includes r0 ".." || JS.includes r0 "~"); [discriminate|].
    injection H as <-. apply existsb_exists in Ea. exact Ea.
  - destruct allowed; simpl in H; [|discriminate].
    destruct (JS.includes r0 ".." || JS.includes r0 "~") eqn:E; [discriminate|].
    injection H as <-. apply orb_false_iff in E. destruct E as [E _].
    intros Hin. apply split_piece_included in Hin. congruence.
  - destruct allowed; simpl in H; [|discriminate].
    destruct (JS.includes r0 ".." || JS.includes r0 "~") eqn:E; [discriminate|].
    injection H as <-. apply orb_false_iff in E. tauto.
  - destruct allowed; simpl in H; [|discriminate].
    destruct (JS.includes r0 ".." || JS.includes r0 "~") eqn:E; [discriminate|].
    injection H as <-. apply orb_false_iff in E. tauto.
  - intros Hu H1 H2. rewrite (Hunder Hu), H1, H2. reflexivity.
  - intros Hu Hor. rewrite (Hunder Hu). simpl.
    replace (JS.includes r0 ".." || JS.includes r0 "~") with true; [reflexivity|].
    symmetry. apply orb_true_iff. exact Hor.
  - intros Hno. replace allowed with false; [reflexivity|].
    symmetry. apply existsb_false_forall. exact Hno.
Qed.

Lemma sanitizeRepositoryPath_spec_witness :
  sanitizeRepositoryPath bareWorld "/tmp/work/../repo" = Ok "/tmp/repo" /\
  sanitizeRepositoryPath bareWorld "/tmp/a~b"
  = Err "Invalid characters in repository path" /\
  sanitizeRepositoryPath bareWorld "/etc/passwd"
  = Err "Repository path is not in an allowed directory" /\
  ~ In ".." (JS.split "/" "/tmp/repo").
Proof.
  pose proof (sanitizeRepositoryPath_spec bareWorld "/tmp/work/../repo")
    as (Hret & Hok & _).
  pose proof (sanitizeRepositoryPath_spec bareWorld "/tmp/a~b")
    as (_ & _ & Hbad & _).
  pose proof (sanitizeRepositoryPath_spec bareWorld "/etc/passwd")
    as (_ & _ & _ & Hout).
  split; [|split; [|split]].
  - exact (Hok eq_refl eq_refl eq_refl).
  - apply Hbad; [reflexivity | right; reflexivity].
  - apply Hout. intros base Hin. simpl in Hin.
    destruct Hin as [<-|[<-|[<-|[<-|[]]]]]; reflexivity.
  - exact (proj1 (proj2 (proj2 (Hret "/tmp/repo" eq_refl)))).
Defined.

(** C1 as the specification words it fails under [/tmp]: the resolution
    [/tmp/a~b] lies below an allowed base and is rejected. *)
Lemma tilde_under_base_rejected : ~ SpecifiedRepositoryPath bareWorld.
Proof.
  intros H. destruct (H "/tmp/a~b") as [H1 _].
  specialize (H1 eq_refl). discriminate H1.
Qed.

(** The allow-list is a test on text: [/tmpevil] lies below no allowed
    base and is accepted. *)
Lemma sibling_of_base_accepted :
  underAllowedBase bareWorld (resolution bareWorld "/tmpevil") = false /\
  sanitizeRepositoryPath bareWorld "/tmpevil" = Ok "/tmpevil".
Proof. split; reflexivity. Qed.

(* ------------------------------------------------------------------ *)
(** ** One turn of the parsing loop *)

Ltac loop_cases :=
  unfold loopBody;
  repeat match goal with
    | |- context [if ?b then _ else _] => destruct b eqn:?
    | |- context [match currentCommit ?st with _ => _ end] =>
        destruct (currentCommit st) eqn:?
    | |- context [match sanitizeFilePath ?p with _ => _ end] =>
        destruct (sanitizeFilePath p) eqn:?
    | |- context [let '(_, _) := ?x in _] => destruct x eqn:?
    end;
  cbn [index currentCommit commits fileMap console].

Lemma isCommitLine_five (line : string) :
  isCommitLine line = true ->
  negb (List.length (JS.split "|" line) =? 5)%nat = false.
Proof.
  unfold isCommitLine. intros H. apply andb_true_iff in H.
  destruct H as [_ H]. rewrite H. reflexivity.
Qed.

(** A turn leaves [i] or moves it on by one. *)
Lemma loopBody_index (lines : list string) (st : ParseState) :
  index (loopBody lines st) = index st \/
  index (loopBody lines st) = S (index st).
Proof. loop_cases; auto. Qed.

(** An open commit stays open. *)
Lemma loopBody_keeps_open (lines : list string) (st : ParseState) :
  currentCommit st <> None -> currentCommit (loopBody lines st) <> None.
Proof. intros H. loop_cases; congruence. Qed.

(** A five-field line opens a commit and moves on. *)
Lemma loopBody_opens (lines : list string) (st : ParseState) :
  isCommitLine (JS.trim (nth (index st) lines "")) = true ->
  currentCommit (loopBody lines st) <> None /\
  index (loopBody lines st) = S (index st).
Proof.
  intros H. unfold loopBody. rewrite H, (isCommitLine_five _ H).
  cbn [index currentCommit]. split; [discriminate | reflexivity].
Qed.

(** A rejected file line under an open commit changes the console only. *)
Lemma loopBody_stalls (lines : list string) (st : ParseState) :
  currentCommit st <> None ->
  rejectedFileLine (JS.trim (nth (index st) lines "")) = true ->
  index (loopBody lines st) = index st /\
  currentCommit (loopBody lines st) = currentCommit st /\
  commits (loopBody lines st) = commits st /\
  fileMap (loopBody lines st) = fileMap st.
Proof.
  intros Hopen H. unfold rejectedFileLine in H.
  repeat (apply andb_true_iff in H; destruct H as [H ?]).
  apply negb_true_iff in H.
  unfold loopBody. rewrite H.
  destruct (currentCommit st) as [current|] eqn:Ec; [|congruence].
  match goal with
  | Hx : negb (JS.is_empty _) = true |- _ => rewrite Hx
  end.
  match goal with
  | Hx : matchNumstat _ = true |- _ => rewrite Hx
  end.
  match goal with
  | Hx : (3 <=? _)%nat = true |- _ => rewrite Hx
  end.
  simpl andb. cbv iota.
  destruct (sanitizeFilePath _); [discriminate|].
  cbn [index currentCommit commits fileMap]. auto.
Qed.

(** Every other line moves on. *)
Lemma loopBody_advances (lines : list string) (st : ParseState) :
  rejectedFileLine (JS.trim (nth (index st) lines "")) = false ->
  index (loopBody lines st) = S (index st).
Proof.
  intros H.
  destruct (isCommitLine (JS.trim (nth (index st) lines ""))) eqn:Ec.
  - apply loopBody_opens. exact Ec.
  - unfold rejectedFileLine in H. rewrite Ec in H. simpl negb in H.
    rewrite !andb_true_l in H.
    unfold loopBody. rewrite Ec.
    destruct (currentCommit st); [|reflexivity].
    destruct (negb (JS.is_empty _)); [|reflexivity].
    destruct (matchNumstat _); [|reflexivity].
    rewrite !andb_true_l in *.
    destruct (3 <=? _)%nat; [|reflexivity].
    rewrite andb_true_l in H.
    destruct (sanitizeFilePath _); [|discriminate].
    destruct (recordFile _ _ _ _). reflexivity.
Qed.

(** The warning for a malformed commit line is never printed. *)
Lemma loopBody_console (lines : list string) (st : ParseState) :
  existsb isMalformedWarning (console st) = false ->
  existsb isMalformedWarning (console (loopBody lines st)) = false.
Proof.
  intros H. unfold loopBody.
  destruct (isCommitLine (JS.trim (nth (index st) lines ""))) eqn:Ec.
  - rewrite (isCommitLine_five _ Ec). exact H.
  - loop_cases; try exact H.
    rewrite existsb_app, H. reflexivity.
Qed.

(** The loop rule: what every turn preserves holds when the loop ends,
    and the loop ends at the end of the lines only. *)
Lemma parseLoop_invariant (P : ParseState -> Prop) (lines : list string) :
  (forall st, (index st < List.length lines)%nat -> P st -> P (loopBody lines st)) ->
  forall fuel st st',
    P st -> parseLoop fuel lines st = Some st' ->
    P st' /\ (List.length lines <= index st')%nat.
Proof.
  intros Hstep fuel. induction fuel as [|fuel IH]; intros st st' HP Hrun;
    simpl in Hrun;
    destruct (index st <? List.length lines)%nat eqn:E.
  - discriminate.
  - injection Hrun as <-. apply Nat.ltb_ge in E. auto.
  - apply Nat.ltb_lt in E. eapply IH; [|exact Hrun]. auto.
  - injection Hrun as <-. apply Nat.ltb_ge in E. auto.
Qed.

(** With no rejected file line the loop ends within one turn per line. *)
Lemma parseLoop_terminates (lines : list string) :
  (forall i, (i < List.length lines)%nat ->
             rejectedFileLine (JS.trim (nth i lines "")) = false) ->
  forall fuel st,
    (List.length lines <= index st + fuel)%nat ->
    exists st', parseLoop fuel lines st = Some st'.
Proof.
  intros Hok fuel. induction fuel as [|fuel IH]; intros st Hfuel; simpl;
    destruct (index st <? List.length lines)%nat eqn:E;
    try (eexists; reflexivity).
  - apply Nat.ltb_lt in E. lia.
  - apply Nat.ltb_lt in E. apply IH.
    rewrite loopBody_advances by (apply Hok; exact E). lia.
Qed.

(** With an open commit on a rejected file line the loop never ends. *)
Lemma parseLoop_stuck (lines : list string) (j k : nat) :
  (j < k < List.length lines)%nat ->
  isCommitLine (JS.trim (nth j lines "")) = true ->
  rejectedFileLine (JS.trim (nth k lines "")) = true ->
  forall fuel st,
    (index st <= k)%nat ->
    ((index st <= j)%nat \/ currentCommit st <> None) ->
    parseLoop fuel lines st = None.
Proof.
  intros Hjk Hj Hk fuel. induction fuel as [|fuel IH]; intros st Hle Hopen;
    simpl; replace (index st <? List.length lines)%nat with true
      by (symmetry; apply Nat.ltb_lt; lia);
    [reflexivity|].
  apply IH.
  - destruct (Nat.eq_dec (index st) k) as [E|E].
    + assert (Ho : currentCommit st <> None) by (destruct Hopen; [lia|assumption]).
      destruct (loopBody_stalls lines st Ho) as [Hi _]; [rewrite E; exact Hk|].
      lia.
    + destruct (loopBody_index lines st); lia.
  - destruct Hopen as [Hi|Ho].
    + destruct (Nat.eq_dec (index st) j) as [E|E].
      * right. apply loopBody_opens. rewrite E. exact Hj.
      * left. destruct (loopBody_index lines st); lia.
    + right. apply loopBody_keeps_open. exact Ho.
Qed.

(* ------------------------------------------------------------------ *)
(** ** A file line with a rejected path *)

(** C2, where the code departs from it. The [continue] of the [catch]
    skips [i++]: a file line whose path [sanitizeFilePath] rejects, met
    after a commit line, is read again and again, and the parser returns
    for no amount of fuel, neither commits nor file records. *)
Theorem parseLines_rejected_path_diverges (logOutput : string) (j k : nat) :
  (j < k < List.length (JS.split newline logOutput))%nat ->
  isCommitLine (JS.trim (nth j (JS.split newline logOutput) "")) = true ->
  rejectedFileLine (JS.trim (nth k (JS.split newline logOutput) "")) = true ->
  forall fuel, parseLines fuel logOutput = None.
Proof.
  intros Hjk Hj Hk fuel. unfold parseLines.
  rewrite (parseLoop_stuck _ j k Hjk Hj Hk fuel initialState);
    [reflexivity | simpl; lia | left; simpl; lia].
Qed.

Lemma parseLines_rejected_path_diverges_witness :
  parseLines 1000 streamWithRejectedPath = None.
Proof.
  apply (parseLines_rejected_path_diverges streamWithRejectedPath 0 1).
  - vm_compute. split; apply le_n.
  - reflexivity.
  - reflexivity.
Defined.

(** The same stream without the file line is parsed in one turn. *)
Lemma parseLines_without_rejected_path :
  option_map (fun st => (map sha (commits st), map fst (fileMap st)))
             (parseLines 1 streamWithoutRejectedPath)
  = Some (["9fceb02"], []).
Proof. reflexivity. Qed.

Lemma streamWithRejectedPath_stuck (fuel : nat) :
  parseLines fuel streamWithRejectedPath = None.
Proof.
  unfold parseLines.
  rewrite (parseLoop_stuck (JS.split newline streamWithRejectedPath) 0 1);
    [reflexivity | | reflexivity | reflexivity | simpl; lia | left; simpl; lia].
  vm_compute. split; apply le_n.
Qed.

(** The whole run on such a stream: one subprocess, no result. *)
Lemma parseGitLog_rejected_path_diverges (fuel : nat) :
  parseGitLog fuel (worldPrinting (fun _ => None) streamWithRejectedPath) "/tmp/repo"
  = ([(logCommand 0, "/tmp/repo")], OutOfFuel).
Proof.
  unfold parseGitLog. simpl sanitizeRepositoryPath. cbv iota.
  change (exec (worldPrinting (fun _ => None) streamWithRejectedPath)
            (logCommand (Z.min 0 MAX_COMMITS)) "/tmp/repo")
    with (@Ok (string * string) (streamWithRejectedPath, "")).
  simpl. cbv iota.
  rewrite streamWithRejectedPath_stuck. reflexivity.
Qed.

(* ------------------------------------------------------------------ *)
(** ** A header with four fields *)

Lemma iter_console (lines : list string) (n : nat) :
  existsb isMalformedWarning
    (console (Nat.iter n (loopBody lines) initialState)) = false.
Proof.
  induction n as [|n IH]; simpl; [reflexivity|].
  apply loopBody_console. exact IH.
Qed.

(** C7, where the code departs from it. The header with four fields is
    skipped and the other commits are kept, but nothing is logged: the
    branch that prints the warning for a malformed commit line sits
    behind the test for exactly five fields and is never taken, after
    any number of turns on any lines. *)
Theorem malformed_header_not_logged :
  (forall lines n,
     existsb isMalformedWarning
       (console (Nat.iter n (loopBody lines) initialState)) = false) /\
  option_map (fun st => (map sha (commits st), console st))
             (parseLines 5 streamWithShortHeader)
  = Some (["9fceb02"; "c0ffee1"], []).
Proof. split; [exact iter_console | reflexivity]. Qed.

Lemma firstn_succ (l : list string) (i : nat) :
  (i < List.length l)%nat -> firstn (S i) l = (firstn i l ++ [nth i l ""])%list.
Proof.
  revert i; induction l as [|a l IH]; intros i H; simpl in H; [lia|].
  destruct i as [|i]; [reflexivity|].
  change (firstn (S (S i)) (a :: l)) with (a :: firstn (S i) l).
  rewrite IH by lia. reflexivity.
Qed.

Lemma loopBody_counts (lines : list string) (st : ParseState) :
  (index st < List.length lines)%nat ->
  rejectedFileLine (JS.trim (nth (index st) lines "")) = false ->
  commitsSoFar st = headersBefore (index st) lines ->
  commitsSoFar (loopBody lines st)
  = headersBefore (index (loopBody lines st)) lines.
Proof.
  intros Hi Hok Hinv.
  rewrite (loopBody_advances _ _ Hok).
  unfold headersBefore. rewrite firstn_succ by exact Hi.
  rewrite filter_app, length_app. fold (headersBefore (index st) lines).
  rewrite <- Hinv. clear Hinv. simpl filter.
  unfold commitsSoFar.
  destruct (isCommitLine (JS.trim (nth (index st) lines ""))) eqn:Ec.
  - unfold loopBody. rewrite Ec, (isCommitLine_five _ Ec).
    cbn [currentCommit commits]. unfold flush at 1.
    rewrite length_app. reflexivity.
  - assert (Hsame : flush (currentCommit (loopBody lines st))
                          (commits (loopBody lines st))
                    = match currentCommit (loopBody lines st) with
                      | Some c => (commits st ++ [c])%list
                      | None => commits st
                      end).
    { unfold loopBody. rewrite Ec. loop_cases; reflexivity. }
    rewrite Hsame.
    assert (Hopen : currentCommit st = None ->
                    currentCommit (loopBody lines st) = None).
    { intros Hn. unfold loopBody. rewrite Ec, Hn. reflexivity. }
    pose proof (loopBody_keeps_open lines st) as Hkeep.
    unfold flush. simpl List.length.
    destruct (currentCommit st) as [c|].
    + destruct (currentCommit (loopBody lines st)); [|exfalso; apply Hkeep; congruence].
      rewrite !length_app. simpl. lia.
    + rewrite Hopen by reflexivity. lia.
Qed.

(** When no file line is rejected the parser returns within one turn
    per line, and it returns one commit per five-field line: a header
    with another number of fields adds none and stops nothing. *)
Lemma parseLines_commit_count (logOutput : string) :
  (forall i, (i < List.length (JS.split newline logOutput))%nat ->
     rejectedFileLine (JS.trim (nth i (JS.split newline logOutput) "")) = false) ->
  exists st,
    parseLines (List.length (JS.split newline logOutput)) logOutput = Some st /\
    List.length (commits st)
    = List.length (filter (fun l => isCommitLine (JS.trim l))
                          (JS.split newline logOutput)).
Proof.
  intros Hok. unfold parseLines.
  set (lines := JS.split newline logOutput) in *.
  destruct (parseLoop_terminates lines Hok (List.length lines) initialState)
    as [st Hrun]; [simpl; lia|].
  rewrite Hrun. eexists. split; [reflexivity|].
  cbn [commits].
  destruct (parseLoop_invariant
              (fun st => commitsSoFar st = headersBefore (index st) lines)
              lines) with (fuel := List.length lines) (st := initialState) (st' := st)
    as [Hinv Hend].
  - intros st0 Hi. apply loopBody_counts; [exact Hi | apply Hok; exact Hi].
  - reflexivity.
  - exact Hrun.
  - unfold commitsSoFar, headersBefore in Hinv. rewrite Hinv.
    rewrite firstn_all2 by exact Hend. reflexivity.
Qed.

(* ------------------------------------------------------------------ *)
(** ** The deleted lines of a commit *)

Lemma split_ws_single (s : string) :
  anyChar JS.is_ws s = false -> JS.split_ws s = [s].
Proof.
  induction s as [|c s IH]; simpl; [reflexivity|].
  intros H. apply orb_false_iff in H. destruct H as [Hc Hs].
  rewrite Hc, (IH Hs). reflexivity.
Qed.

Lemma split_before_separator (sep : ascii) (a rest : string) :
  anyChar (fun c => Ascii.eqb c sep) a = false ->
  JS.split sep (a ++ String sep rest) = a :: JS.split sep rest.
Proof.
  induction a as [|c a IH]; simpl; intros H.
  - rewrite Ascii.eqb_refl. reflexivity.
  - apply orb_false_iff in H. destruct H as [Hc Ha].
    rewrite Hc, (IH Ha). reflexivity.
Qed.

Lemma digit_not_ws (c : ascii) : JS.is_digit c = true -> JS.is_ws c = false.
Proof.
  destruct c as [[] [] [] [] [] [] [] []]; intros H;
    solve [reflexivity | discriminate H].
Qed.

Lemma digits_without (p : ascii -> bool) (s : string) :
  (forall c, JS.is_digit c = true -> p c = false) ->
  allChars JS.is_digit s = true -> anyChar p s = false.
Proof.
  intros Hp. unfold allChars. induction s as [|c s IH]; simpl; [reflexivity|].
  intros H. apply negb_true_iff, orb_false_iff in H. destruct H as [Hc Hs].
  apply negb_false_iff in Hc. rewrite (Hp c Hc). simpl.
  apply IH. rewrite Hs. reflexivity.
Qed.

(** C9, where the code departs from it. [stats] is the first of the
    tab-separated fields, so for a line written [added TAB deleted TAB
    path] it is the added count alone: [deleted] is undefined, the sum
    of deleted lines never moves, and the three commits with (2,0),
    (0,1) and (5,3) come out with 0 deleted lines each. The added lines
    and the change count of the file are as the claim says. *)
Theorem numstat_deleted_dropped :
  (forall added rest,
     allChars JS.is_digit added = true ->
     nth 0 (JS.split tab (added ++ String tab rest)) "" = added /\
     anyChar JS.is_ws added = false) /\
  (forall stats filePath current files,
     anyChar JS.is_ws stats = false ->
     linesDeleted (fst (recordFile stats filePath current files))
     = linesDeleted current) /\
  option_map (fun st => (map commitSummary (commits st),
                         map fileSummary (fileMap st)))
             (parseLines 6 streamThreeCommits)
  = Some ([("c3", Num 2, Num 0); ("c2", Num 0, Num 0); ("c1", Num 5, Num 0)],
          [("src/a.ts", 3)]).
Proof.
  split; [|split].
  - intros added rest Hd. split.
    + rewrite split_before_separator; [reflexivity|].
      apply digits_without; [|exact Hd].
      intros c Hc. destruct c as [[] [] [] [] [] [] [] []];
        solve [reflexivity | discriminate Hc].
    + apply digits_without; [exact digit_not_ws | exact Hd].
  - intros stats filePath current files H.
    unfold recordFile. rewrite (split_ws_single _ H).
    cbn [fst linesDeleted nth_error]. 
    destruct (mapGet filePath files); cbn [fst linesDeleted];
      change (JS.or_zero (JS.parseInt_opt None)) with (Num 0);
      destruct (linesDeleted current); reflexivity.
  - vm_compute. reflexivity.
Qed.

Lemma numstat_deleted_dropped_witness :
  nth 0 (JS.split tab (tabbed ["5"; "3"; "src/a.ts"])) "" = "5" /\
  linesDeleted (fst (recordFile "5" "src/a.ts" (newCommit ["c1"; "first"; "Ann"; "ann@example.org"; "1700000100"]) []))
  = Num 0.
Proof.
  split.
  - apply (proj1 numstat_deleted_dropped "5"). reflexivity.
  - apply (proj1 (proj2 numstat_deleted_dropped) "5" "src/a.ts"
             (newCommit ["c1"; "first"; "Ann"; "ann@example.org"; "1700000100"]) []).
    reflexivity.
Defined.

(* ------------------------------------------------------------------ *)
(** ** The file records *)

Lemma assoc_In {A : Type} (k : string) (l : list (string * A)) (v : A) :
  assoc k l = Some v -> exists k', In (k', v) l.
Proof.
  induction l as [|[k' v'] l IH]; simpl; [discriminate|].
  destruct (String.eqb k k').
  - intros [= <-]. eauto.
  - intros H. destruct (IH H) as [k'' Hin]. eauto.
Qed.

Lemma mapSet_In (k : string) (v : FileData) (m : FileMap) (x : string * FileData) :
  In x (mapSet k v m) -> snd x = v \/ In x m.
Proof.
  induction m as [|[k' v'] m IH]; simpl.
  - intros [<-|[]]. left. reflexivity.
  - destruct (String.eqb k k'); simpl.
    + intros [<-|H]; [left; reflexivity | right; right; exact H].
    + intros [<-|H]; [right; left; reflexivity|].
      destruct (IH H); [left | right; right]; assumption.
Qed.

Lemma fileRecordKept_ok (fd : FileData) : fileRecordKept fd -> fileRecordOk fd.
Proof.
  unfold fileRecordKept, fileRecordOk. intros [Hc Hd]. split; [exact Hc|].
  destruct (firstSeen fd), (lastModified fd); solve [exact Hd | exact I].
Qed.

Lemma recordFile_kept (stats p : string) (current : CommitData) (files : FileMap) :
  filesKept files -> filesKept (snd (recordFile stats p current files)).
Proof.
  intros Hok. unfold recordFile. cbn [snd date].
  destruct (mapGet p files) as [fd|] eqn:Eg; intros x Hx;
    apply mapSet_In in Hx; destruct Hx as [->|Hx]; try (apply Hok; exact Hx).
  - destruct (assoc_In _ _ _ Eg) as [k' Hin].
    destruct (Hok _ Hin) as [Hc Hd]. cbn [snd] in Hc, Hd.
    unfold fileRecordKept. cbn [totalChanges firstSeen lastModified].
    split; [lia|].
    destruct (firstSeen fd) as [first| |s]; [|exact I|exact I].
    destruct (lastModified fd) as [last| |[]], (date current) as [d| |[]];
      simpl; solve [exact I | reflexivity | discriminate Hd | lia].
  - unfold fileRecordKept. cbn [totalChanges firstSeen lastModified].
    split; [lia|]. destruct (date current); [lia | exact I | exact I].
Qed.

Lemma loopBody_filesKept (lines : list string) (st : ParseState) :
  filesKept (fileMap st) -> filesKept (fileMap (loopBody lines st)).
Proof.
  intros Hok. unfold loopBody.
  destruct (isCommitLine _); [destruct (negb _); exact Hok|].
  destruct (currentCommit st) as [current|]; [|exact Hok].
  destruct (negb _ && matchNumstat _); [|exact Hok].
  destruct (3 <=? _)%nat; [|exact Hok].
  destruct (sanitizeFilePath _) as [sp|]; [|exact Hok].
  pose proof (recordFile_kept
                (nth 0 (JS.split tab (JS.trim (nth (index st) lines ""))) "")
                sp current (fileMap st) Hok) as H.
  destruct (recordFile _ sp current (fileMap st)). exact H.
Qed.

Lemma parseLines_filesKept (fuel : nat) (logOutput : string) (st : ParseState) :
  parseLines fuel logOutput = Some st -> filesKept (fileMap st).
Proof.
  unfold parseLines.
  destruct (parseLoop fuel _ initialState) as [st0|] eqn:Hrun; [|discriminate].
  intros [= <-]. cbn [fileMap].
  eapply (parseLoop_invariant (fun s => filesKept (fileMap s))); [| |exact Hrun].
  - intros s _. apply loopBody_filesKept.
  - intros x [].
Qed.

(** X2. Whenever the parser returns, every file record has at least one
    change and, its dates being numbers, was first seen no later than
    last modified. *)
Lemma parseLines_filesOk (fuel : nat) (logOutput : string) (st : ParseState) :
  parseLines fuel logOutput = Some st -> filesOk (fileMap st).
Proof.
  intros H x Hx. apply fileRecordKept_ok.
  exact (parseLines_filesKept fuel logOutput st H x Hx).
Qed.

(* ------------------------------------------------------------------ *)
(** ** The commits of a parse, in order *)

Lemma flush_openList (current : option CommitData) (cs : list CommitData) :
  flush current cs = (cs ++ openList current)%list.
Proof. destruct current; simpl; [reflexivity | rewrite app_nil_r; reflexivity]. Qed.

Lemma recordFile_header (stats p : string) (current : CommitData) (files : FileMap) :
  headerOf (fst (recordFile stats p current files)) = headerOf current.
Proof. unfold recordFile. destruct (mapGet p files); reflexivity. Qed.

(** A turn on a line that opens no commit keeps the pushed commits and
    the header of the open one. *)
Lemma loopBody_other_line (lines : list string) (st : ParseState) :
  isCommitLine (JS.trim (nth (index st) lines "")) = false ->
  commits (loopBody lines st) = commits st /\
  option_map headerOf (currentCommit (loopBody lines st))
  = option_map headerOf (currentCommit st).
Proof.
  intros Ec. unfold loopBody. rewrite Ec.
  destruct (currentCommit st) as [current|] eqn:Ecur; [|auto].
  destruct (negb _ && matchNumstat _); [|auto].
  destruct (3 <=? _)%nat; [|auto].
  destruct (sanitizeFilePath _) as [sp|]; [|auto].
  pose proof (recordFile_header
                (nth 0 (JS.split tab (JS.trim (nth (index st) lines ""))) "")
                sp current (fileMap st)) as H.
  destruct (recordFile _ sp current (fileMap st)) as [c' m'].
  cbn [commits currentCommit option_map fst] in *. rewrite H. auto.
Qed.

(** A string without the separator is one piece. *)
Lemma split_not_included (sep : ascii) (s : string) :
  JS.includes s (String sep "") = false -> JS.split sep s = [s].
Proof.
  induction s as [|c s IH]; [reflexivity|].
  cbn [JS.includes JS.split String.prefix].
  intros H. apply orb_false_iff in H. destruct H as [Hp Hs].
  destruct (Ascii.eqb c sep) eqn:E.
  - apply Ascii.eqb_eq in E. subst c.
    destruct (ascii_dec sep sep) as [_|Hne]; [|congruence].
    destruct s; discriminate Hp.
  - rewrite (IH Hs). reflexivity.
Qed.

(** The test [includes('|')] adds nothing to the count of five fields. *)
Lemma isCommitLine_length (line : string) :
  isCommitLine line = (List.length (JS.split "|" line) =? 5)%nat.
Proof.
  unfold isCommitLine. destruct (JS.includes line "|") eqn:E; [reflexivity|].
  rewrite (split_not_included "|" line E). reflexivity.
Qed.

(** The commit opened on a line carries the header the line stands for. *)
Lemma newCommit_header (line : string) :
  headerOf (newCommit (JS.split "|" line)) = headerOfLine line.
Proof. reflexivity. Qed.

Lemma expectedHeaders_succ (lines : list string) (i : nat) :
  (i < List.length lines)%nat ->
  expectedHeaders (firstn (S i) lines)
  = (expectedHeaders (firstn i lines)
     ++ if isCommitLine (JS.trim (nth i lines ""))
        then [headerOf (newCommit (JS.split "|" (JS.trim (nth i lines ""))))]
        else [])%list.
Proof.
  intros Hi. unfold expectedHeaders, headerLines.
  rewrite firstn_succ by exact Hi.
  rewrite map_app, filter_app, map_app. cbn [map filter].
  rewrite <- isCommitLine_length, newCommit_header.
  destruct (isCommitLine (JS.trim (nth i lines ""))); reflexivity.
Qed.

Lemma loopBody_headers (lines : list string) (st : ParseState) :
  (index st < List.length lines)%nat ->
  map headerOf (flush (currentCommit st) (commits st))
  = expectedHeaders (firstn (index st) lines) ->
  map headerOf (flush (currentCommit (loopBody lines st)) (commits (loopBody lines st)))
  = expectedHeaders (firstn (index (loopBody lines st)) lines).
Proof.
  intros Hi Hinv.
  destruct (isCommitLine (JS.trim (nth (index st) lines ""))) eqn:Ec.
  - destruct (loopBody_opens lines st Ec) as [_ Hidx]. rewrite Hidx.
    rewrite expectedHeaders_succ by exact Hi. rewrite Ec, <- Hinv.
    unfold loopBody. rewrite Ec, (isCommitLine_five _ Ec).
    cbn [currentCommit commits]. unfold flush at 1.
    rewrite map_app. reflexivity.
  - destruct (loopBody_other_line lines st Ec) as [Hc Hh].
    assert (Hsame : map headerOf (flush (currentCommit (loopBody lines st))
                                        (commits (loopBody lines st)))
                    = map headerOf (flush (currentCommit st) (commits st))).
    { rewrite !flush_openList, !map_app, Hc. f_equal.
      destruct (currentCommit (loopBody lines st)), (currentCommit st);
        cbn [option_map] in Hh; try discriminate; [|reflexivity].
      cbn [openList map]. congruence. }
    rewrite Hsame, Hinv.
    destruct (loopBody_index lines st) as [E|E]; rewrite E; [reflexivity|].
    rewrite expectedHeaders_succ by exact Hi. rewrite Ec, app_nil_r. reflexivity.
Qed.

Lemma loopBody_quiet (lines : list string) (st : ParseState) :
  rejectedFileLine (JS.trim (nth (index st) lines "")) = false ->
  console (loopBody lines st) = console st.
Proof.
  intros H.
  destruct (isCommitLine (JS.trim (nth (index st) lines ""))) eqn:Ec.
  - unfold loopBody. rewrite Ec, (isCommitLine_five _ Ec). reflexivity.
  - unfold rejectedFileLine in H. rewrite Ec in H. simpl negb in H.
    rewrite !andb_true_l in H.
    unfold loopBody. rewrite Ec.
    destruct (currentCommit st); [|reflexivity].
    destruct (negb (JS.is_empty _)); [|reflexivity].
    destruct (matchNumstat _); [|reflexivity].
    rewrite !andb_true_l in *.
    destruct (3 <=? _)%nat; [|reflexivity].
    rewrite andb_true_l in H.
    destruct (sanitizeFilePath _); [|discriminate].
    destruct (recordFile _ _ _ _). reflexivity.
Qed.

(** X1. When no file line is rejected, the parser returns within one
    turn per line, prints no warning, and returns the commits of the
    five-field lines in the order of the stream: the hash is the first
    field as it stands, subject, author and email are the trimmed next
    fields, and the date is the parsed fifth field times 1000. *)
Theorem parseLines_headers_in_order (logOutput : string) :
  (forall i, (i < List.length (JS.split newline logOutput))%nat ->
     rejectedFileLine (JS.trim (nth i (JS.split newline logOutput) "")) = false) ->
  exists st,
    parseLines (List.length (JS.split newline logOutput)) logOutput = Some st /\
    map headerOf (commits st) = expectedHeaders (JS.split newline logOutput) /\
    console st = [].
Proof.
  intros Hok. unfold parseLines.
  set (lines := JS.split newline logOutput) in *.
  destruct (parseLoop_terminates lines Hok (List.length lines) initialState)
    as [st Hrun]; [simpl; lia|].
  rewrite Hrun. eexists. split; [reflexivity|]. cbn [commits console].
  destruct (parseLoop_invariant
              (fun s => map headerOf (flush (currentCommit s) (commits s))
                        = expectedHeaders (firstn (index s) lines)
                        /\ console s = [])
              lines) with (fuel := List.length lines) (st := initialState) (st' := st)
    as [[Hinv Hcon] Hend].
  - intros s Hi [H1 H2]. split.
    + apply loopBody_headers; assumption.
    + rewrite loopBody_quiet by (apply Hok; exact Hi). exact H2.
  - split; reflexivity.
  - exact Hrun.
  - rewrite Hinv, firstn_all2 by exact Hend. auto.
Qed.

Lemma parseLines_headers_in_order_witness :
  exists st,
    parseLines 5 streamWithLateDates = Some st /\
    map headerOf (commits st)
    = [("9fceb02", "add route", "Ann", "ann@example.org", Num 1700000000000);
       ("abc", "late", "A", "a@b", Num 144115188075856992);
       ("fff", "never", "C", "c@d", Infinity false)] /\
    console st = [].
Proof.
  apply (parseLines_headers_in_order streamWithLateDates).
  intros i Hi.
  change (List.length (JS.split newline streamWithLateDates)) with 5%nat in Hi.
  destruct i as [|[|[|[|[|i]]]]]; try (vm_compute; reflexivity). lia.
Defined.

(* ------------------------------------------------------------------ *)
(** ** The file map *)

Lemma mapGet_mapSet_same (k : string) (v : FileData) (m : FileMap) :
  mapGet k (mapSet k v m) = Some v.
Proof.
  unfold mapGet. induction m as [|[k' v'] m IH]; simpl.
  - rewrite String.eqb_refl. reflexivity.
  - destruct (String.eqb k k') eqn:E; simpl; rewrite E; [reflexivity | exact IH].
Qed.

Lemma mapGet_mapSet_other (k k0 : string) (v : FileData) (m : FileMap) :
  k0 <> k -> mapGet k0 (mapSet k v m) = mapGet k0 m.
Proof.
  intros Hne. unfold mapGet. induction m as [|[k' v'] m IH]; simpl.
  - destruct (String.eqb k0 k) eqn:E; [|reflexivity].
    apply String.eqb_eq in E. congruence.
  - destruct (String.eqb k k') eqn:E; simpl.
    + apply String.eqb_eq in E. subst k'.
      destruct (String.eqb k0 k) eqn:E0; [|reflexivity].
      apply String.eqb_eq in E0. congruence.
    + rewrite IH. reflexivity.
Qed.

Lemma mapGet_None_keys (k : string) (m : FileMap) :
  mapGet k m = None -> ~ In k (map fst m).
Proof.
  unfold mapGet. induction m as [|[k' v'] m IH]; simpl; [tauto|].
  destruct (String.eqb k k') eqn:E; [discriminate|].
  intros H [Hk|Hin]; [|exact (IH H Hin)].
  subst k'. rewrite String.eqb_refl in E. discriminate.
Qed.

Lemma mapSet_absent (k : string) (v : FileData) (m : FileMap) :
  mapGet k m = None -> mapSet k v m = (m ++ [(k, v)])%list.
Proof.
  unfold mapGet. induction m as [|[k' v'] m IH]; simpl; [reflexivity|].
  destruct (String.eqb k k'); [discriminate|].
  intros H. rewrite (IH H). reflexivity.
Qed.

Lemma mapSet_present_keys (k : string) (v fd : FileData) (m : FileMap) :
  mapGet k m = Some fd -> map fst (mapSet k v m) = map fst m.
Proof.
  unfold mapGet. induction m as [|[k' v'] m IH]; simpl; [discriminate|].
  destruct (String.eqb k k'); simpl; [reflexivity|].
  intros H. rewrite (IH H). reflexivity.
Qed.

Lemma mapSet_In_entry (k : string) (v : FileData) (m : FileMap) (x : string * FileData) :
  In x (mapSet k v m) -> x = (k, v) \/ In x m.
Proof.
  induction m as [|[k' v'] m IH]; simpl.
  - intros [<-|[]]. left. reflexivity.
  - destruct (String.eqb k k') eqn:E; simpl.
    + apply String.eqb_eq in E. subst k'.
      intros [<-|H]; [left; reflexivity | right; right; exact H].
    + intros [<-|H]; [right; left; reflexivity|].
      destruct (IH H); [left | right; right]; assumption.
Qed.

Lemma mapGet_In (k : string) (fd : FileData) (m : FileMap) :
  mapGet k m = Some fd -> In (k, fd) m.
Proof.
  unfold mapGet. induction m as [|[k' v'] m IH]; simpl; [discriminate|].
  destruct (String.eqb k k') eqn:E.
  - apply String.eqb_eq in E. subst k'. intros [= <-]. left. reflexivity.
  - intros H. right. exact (IH H).
Qed.

Lemma sanitizeFilePath_Ok (p r : string) :
  sanitizeFilePath p = Ok r -> r = p /\ sanitizeFilePath r = Ok r.
Proof.
  intros H. assert (Hr : r = p).
  { unfold sanitizeFilePath in H.
    destruct (String.eqb _ p) eqn:E; simpl in H; [|discriminate].
    apply String.eqb_eq in E. congruence. }
  subst r. auto.
Qed.

Lemma recordFile_fileMapOk (stats p : string) (current : CommitData) (files : FileMap) :
  sanitizeFilePath p = Ok p ->
  fileMapOk files -> fileMapOk (snd (recordFile stats p current files)).
Proof.
  intros Hp [Hnd Hall]. unfold recordFile. cbn [snd].
  destruct (mapGet p files) as [fd|] eqn:Eg.
  - split.
    + rewrite (mapSet_present_keys _ _ _ _ Eg). exact Hnd.
    + apply Forall_forall. intros x Hx.
      apply mapSet_In_entry in Hx. destruct Hx as [->|Hx].
      * pose proof (proj1 (Forall_forall _ _) Hall _ (mapGet_In _ _ _ Eg)) as Hfd.
        unfold fileEntryOk in *. cbn [fst snd path extension language] in *. tauto.
      * exact (proj1 (Forall_forall _ _) Hall _ Hx).
  - rewrite (mapSet_absent _ _ _ Eg). split.
    + rewrite map_app. simpl.
      apply NoDup_app; [exact Hnd | repeat constructor; simpl; tauto |].
      intros a Ha [<-|[]]. exact (mapGet_None_keys _ _ Eg Ha).
    + apply Forall_app. split; [exact Hall|].
      constructor; [|constructor].
      unfold fileEntryOk. cbn [fst snd path extension language]. auto.
Qed.

Lemma loopBody_fileMapOk (lines : list string) (st : ParseState) :
  fileMapOk (fileMap st) -> fileMapOk (fileMap (loopBody lines st)).
Proof.
  intros Hok. unfold loopBody.
  destruct (isCommitLine _); [destruct (negb _); exact Hok|].
  destruct (currentCommit st) as [current|]; [|exact Hok].
  destruct (negb _ && matchNumstat _); [|exact Hok].
  destruct (3 <=? _)%nat; [|exact Hok].
  destruct (sanitizeFilePath _) as [sp|] eqn:Es; [|exact Hok].
  apply sanitizeFilePath_Ok in Es. destruct Es as [_ Es].
  pose proof (recordFile_fileMapOk
                (nth 0 (JS.split tab (JS.trim (nth (index st) lines ""))) "")
                sp current (fileMap st) Es Hok) as H.
  destruct (recordFile _ sp current (fileMap st)). exact H.
Qed.

Lemma parseLines_fileMapOk_any (fuel : nat) (logOutput : string) (st : ParseState) :
  parseLines fuel logOutput = Some st -> fileMapOk (fileMap st).
Proof.
  unfold parseLines.
  destruct (parseLoop fuel _ initialState) as [st0|] eqn:Hrun; [|discriminate].
  intros [= <-]. cbn [fileMap].
  eapply (parseLoop_invariant (fun s => fileMapOk (fileMap s))); [| |exact Hrun].
  - intros s _. apply loopBody_fileMapOk.
  - split; constructor.
Qed.

(** X3. Whenever the parser returns, the file map holds every path once,
    under the key that is its [path]; every key is a path that
    [sanitizeFilePath] accepts, and the extension and the language of the
    record are those of the key. *)
Theorem parseLines_fileMapOk (fuel : nat) (logOutput : string) (st : ParseState) :
  parseLines fuel logOutput = Some st ->
  NoDup (map fst (fileMap st)) /\
  forall k fd, In (k, fd) (fileMap st) ->
    path fd = k /\ sanitizeFilePath k = Ok k /\
    extension fd = NodePath.extname k /\ language fd = detectLanguage k.
Proof.
  intros H. destruct (parseLines_fileMapOk_any _ _ _ H) as [Hnd Hall].
  split; [exact Hnd|]. intros k fd Hin.
  exact (proj1 (Forall_forall _ _) Hall _ Hin).
Qed.

Lemma parseLines_fileMapOk_witness :
  match parseLines 6 streamThreeCommits with
  | Some st =>
      NoDup (map fst (fileMap st)) /\
      forall k fd, In (k, fd) (fileMap st) ->
        path fd = k /\ sanitizeFilePath k = Ok k /\
        extension fd = NodePath.extname k /\ language fd = detectLanguage k
  | None => False
  end.
Proof.
  destruct (parseLines 6 streamThreeCommits) as [st|] eqn:E.
  - exact (parseLines_fileMapOk 6 streamThreeCommits st E).
  - vm_compute in E. discriminate E.
Defined.

(* ------------------------------------------------------------------ *)
(** ** Change counts against the commits *)

Lemma touches_app (k : string) (a b : list CommitData) :
  touches k (a ++ b) = touches k a + touches k b.
Proof.
  unfold touches. rewrite map_app, concat_app, count_occ_app. lia.
Qed.

Lemma recordFile_touches (stats p k : string) (current : CommitData) (files : FileMap) :
  changesOf k (snd (recordFile stats p current files))
  - touches k [fst (recordFile stats p current files)]
  = changesOf k files - touches k [current].
Proof.
  unfold recordFile, touches. cbn [fst snd map filesChanged List.concat].
  rewrite !app_nil_r, count_occ_app. cbn [count_occ].
  unfold changesOf.
  destruct (string_dec p k) as [->|Hne].
  - destruct (mapGet k files) as [fd|] eqn:Eg;
      rewrite mapGet_mapSet_same; cbn [totalChanges]; lia.
  - assert (Hk : forall v, mapGet k (mapSet p v files) = mapGet k files)
      by (intros v; apply mapGet_mapSet_other; congruence).
    destruct (mapGet p files); rewrite Hk; lia.
Qed.

Lemma loopBody_touches (lines : list string) (st : ParseState) (k : string) :
  changesOf k (fileMap st) = touches k (flush (currentCommit st) (commits st)) ->
  changesOf k (fileMap (loopBody lines st))
  = touches k (flush (currentCommit (loopBody lines st)) (commits (loopBody lines st))).
Proof.
  intros Hinv. rewrite flush_openList, touches_app in Hinv.
  unfold loopBody.
  destruct (isCommitLine (JS.trim (nth (index st) lines ""))) eqn:Eh.
  - rewrite (isCommitLine_five _ Eh). cbn [fileMap currentCommit commits].
    rewrite !flush_openList, !touches_app.
    rewrite Hinv.
    change (touches k (openList (Some (newCommit
              (JS.split "|" (JS.trim (nth (index st) lines ""))))))) with 0.
    lia.
  - destruct (currentCommit st) as [current|] eqn:Ec;
      [|cbn [fileMap currentCommit commits]; rewrite flush_openList, touches_app; exact Hinv].
    destruct (negb _ && matchNumstat _);
      [|cbn [fileMap currentCommit commits]; rewrite flush_openList, touches_app; exact Hinv].
    destruct (3 <=? _)%nat;
      [|cbn [fileMap currentCommit commits]; rewrite flush_openList, touches_app; exact Hinv].
    destruct (sanitizeFilePath _) as [sp|];
      [|cbn [fileMap currentCommit commits]; rewrite flush_openList, touches_app; exact Hinv].
    pose proof (recordFile_touches
                  (nth 0 (JS.split tab (JS.trim (nth (index st) lines ""))) "")
                  sp k current (fileMap st)) as H.
    destruct (recordFile _ sp current (fileMap st)) as [c' m'].
    cbn [fileMap currentCommit commits fst snd openList] in *.
    rewrite flush_openList, touches_app. cbn [openList]. lia.
Qed.

(** X4. Whenever the parser returns, the [totalChanges] of a file is the
    number of times its path is listed in the [filesChanged] of the
    returned commits, and a path that no record is kept for is listed in
    none. *)
Theorem parseLines_totalChanges (fuel : nat) (logOutput : string) (st : ParseState) :
  parseLines fuel logOutput = Some st ->
  forall k, changesOf k (fileMap st) = touches k (commits st).
Proof.
  unfold parseLines.
  destruct (parseLoop fuel _ initialState) as [st0|] eqn:Hrun; [|discriminate].
  intros [= <-] k. cbn [fileMap commits].
  eapply (parseLoop_invariant
            (fun s => changesOf k (fileMap s)
                      = touches k (flush (currentCommit s) (commits s))));
    [| |exact Hrun].
  - intros s _. apply loopBody_touches.
  - reflexivity.
Qed.

Lemma parseLines_totalChanges_witness :
  match parseLines 6 streamThreeCommits with
  | Some st => changesOf "src/a.ts" (fileMap st) = touches "src/a.ts" (commits st)
  | None => False
  end.
Proof.
  destruct (parseLines 6 streamThreeCommits) as [st|] eqn:E.
  - exact (parseLines_totalChanges 6 streamThreeCommits st E "src/a.ts").
  - vm_compute in E. discriminate E.
Defined.

(* ------------------------------------------------------------------ *)
(** ** What [parseGitLog] hands out *)

Lemma recordFile_fresh (stats p : string) (current : CommitData) (files : FileMap) :
  Forall (fun e => freshRecord (snd e)) files ->
  Forall (fun e => freshRecord (snd e)) (snd (recordFile stats p current files)).
Proof.
  intros Hall. unfold recordFile. cbn [snd].
  apply Forall_forall. intros x Hx.
  destruct (mapGet p files) as [fd|] eqn:Eg;
    apply mapSet_In_entry in Hx; destruct Hx as [->|Hx];
    try exact (proj1 (Forall_forall _ _) Hall _ Hx).
  - exact (proj1 (Forall_forall _ _) Hall _ (mapGet_In _ _ _ Eg)).
  - unfold freshRecord. cbn. auto.
Qed.

Lemma loopBody_fresh (lines : list string) (st : ParseState) :
  Forall (fun e => freshRecord (snd e)) (fileMap st) ->
  Forall (fun e => freshRecord (snd e)) (fileMap (loopBody lines st)).
Proof.
  intros Hok. unfold loopBody.
  destruct (isCommitLine _); [destruct (negb _); exact Hok|].
  destruct (currentCommit st) as [current|]; [|exact Hok].
  destruct (negb _ && matchNumstat _); [|exact Hok].
  destruct (3 <=? _)%nat; [|exact Hok].
  destruct (sanitizeFilePath _) as [sp|]; [|exact Hok].
  pose proof (recordFile_fresh
                (nth 0 (JS.split tab (JS.trim (nth (index st) lines ""))) "")
                sp current (fileMap st) Hok) as H.
  destruct (recordFile _ sp current (fileMap st)). exact H.
Qed.

Lemma parseLines_fresh (fuel : nat) (logOutput : string) (st : ParseState) :
  parseLines fuel logOutput = Some st ->
  Forall (fun e => freshRecord (snd e)) (fileMap st).
Proof.
  unfold parseLines.
  destruct (parseLoop fuel _ initialState) as [st0|] eqn:Hrun; [|discriminate].
  intros [= <-]. cbn [fileMap].
  eapply (parseLoop_invariant
            (fun s => Forall (fun e => freshRecord (snd e)) (fileMap s)));
    [| |exact Hrun].
  - intros s _. apply loopBody_fresh.
  - constructor.
Qed.

Lemma parseLines_filesOk_any (fuel : nat) (logOutput : string) (st : ParseState) :
  parseLines fuel logOutput = Some st -> filesOk (fileMap st).
Proof.
  intros H x Hx. apply fileRecordKept_ok.
  exact (parseLines_filesKept fuel logOutput st H x Hx).
Qed.

Lemma calculateComplexity_range (content : string) (language : option string) :
  1 <= calculateComplexity content language <= 100.
Proof.
  rewrite calculateComplexity_unfold. unfold specifiedComplexity.
  destruct (isEcmaScript language); lia.
Qed.

Lemma enrichFile_key (w : World) (root : string) (e : string * FileData) :
  fst (enrichFile w root e) = fst e.
Proof.
  destruct e as [k fd]. unfold enrichFile.
  destruct (negb _); [reflexivity|].
  destruct (stat w _) as [size|]; [|reflexivity].
  destruct (size >? 1024 * 1024); [reflexivity|].
  destruct (readFile w _); reflexivity.
Qed.

Lemma extractAuthors_key (w : World) (root : string) (e : string * FileData) :
  fst (snd (extractAuthors w root e)) = fst e.
Proof.
  destruct e as [k fd]. unfold extractAuthors.
  destruct (sanitizeFilePath k); [|reflexivity].
  destruct (exec w _ root) as [[out err]|]; reflexivity.
Qed.

(** The trace of the author pass on an accepted key. *)
Lemma extractAuthors_call (w : World) (root : string) (e : string * FileData) :
  sanitizeFilePath (fst e) = Ok (fst e) ->
  fst (extractAuthors w root e) = [(authorCommand (fst e), root)].
Proof.
  destruct e as [k fd]. cbn [fst]. intros Hk. unfold extractAuthors. rewrite Hk.
  destruct (exec w _ root) as [[out err]|]; reflexivity.
Qed.

Lemma author_calls (w : World) (root : string) (m : FileMap) :
  Forall (fun e => sanitizeFilePath (fst e) = Ok (fst e)) m ->
  List.concat (map fst (map (extractAuthors w root) (map (enrichFile w root) m)))
  = map (fun k => (authorCommand k, root)) (map fst m) /\
  map fst (map snd (map (extractAuthors w root) (map (enrichFile w root) m)))
  = map fst m.
Proof.
  induction 1 as [|e m He Hm [IH1 IH2]]; [split; reflexivity|].
  cbn [map List.concat]. rewrite IH1, IH2.
  rewrite extractAuthors_call by (rewrite enrichFile_key; exact He).
  rewrite extractAuthors_key, !enrichFile_key. split; reflexivity.
Qed.

(** X5. When [parseGitLog] returns, the subprocesses it started are the
    log command followed by one author query per returned file, in the
    order of the files, and all of them ran in the sanitized repository
    directory. *)
Theorem parseGitLog_subprocesses (fuel : nat) (w : World) (repoPath : string)
        (tr : list call) (data : ParsedLog) :
  parseGitLog fuel w repoPath = (tr, Returns data) ->
  exists p,
    sanitizeRepositoryPath w repoPath = Ok p /\
    tr = (logCommand (Z.min (estimatedCommits (checkRepositorySize w p)) 1000), p)
           :: map (fun k => (authorCommand k, p)) (map fst (parsedFiles data)).
Proof.
  unfold parseGitLog.
  destruct (sanitizeRepositoryPath w repoPath) as [p|]; [|discriminate].
  destruct (sizeBytes _ >? MAX_REPO_SIZE); [discriminate|].
  destruct (exec w _ p) as [[out err]|]; [|discriminate].
  destruct (parseLines fuel out) as [st|] eqn:Ep; [|discriminate].
  intros [= <- <-]. exists p. split; [reflexivity|]. cbn [parsedFiles].
  destruct (parseLines_fileMapOk_any _ _ _ Ep) as [_ Hall].
  destruct (author_calls w p (fileMap st)) as [H1 H2].
  - eapply Forall_impl; [|exact Hall]. intros e He. apply He.
  - rewrite H1, H2. reflexivity.
Qed.

Lemma parseGitLog_subprocesses_witness :
  exists p,
    sanitizeRepositoryPath (worldWithFile streamThreeCommits) "/tmp/repo" = Ok p /\
    [(logCommand 0, "/tmp/repo"); (authorCommand "src/a.ts", "/tmp/repo")]
    = (logCommand
         (Z.min (estimatedCommits
                   (checkRepositorySize (worldWithFile streamThreeCommits) p)) 1000), p)
        :: map (fun k => (authorCommand k, p))
               (map fst (parsedFiles
                  (match snd (parseGitLog 6 (worldWithFile streamThreeCommits) "/tmp/repo") with
                   | Returns data => data
                   | _ => {| parsedCommits := []; parsedFiles := [] |}
                   end))).
Proof.
  apply (parseGitLog_subprocesses 6 (worldWithFile streamThreeCommits) "/tmp/repo").
  vm_compute. reflexivity.
Defined.

Lemma stripCount_authors (authorOutput : string) :
  Forall authorOk
    (filter (fun a => (0 <? String.length a)%nat && (String.length a <? 100)%nat)
            (map stripCount (JS.split newline authorOutput))).
Proof.
  apply Forall_forall. intros a Ha. apply filter_In in Ha.
  destruct Ha as [_ Ha]. apply andb_true_iff in Ha. destruct Ha as [H1 H2].
  apply Nat.ltb_lt in H1, H2. split; assumption.
Qed.

Lemma setAuthors_enriched (k : string) (fd : FileData) (authors : list string) :
  fileRecordOk fd -> path fd = k -> avgComplexity fd = maxComplexity fd ->
  (forall c, maxComplexity fd = Some c -> 0 <= c <= 100) ->
  (isDeleted fd = true -> currentSize fd = 0 /\ maxComplexity fd = Some 0) ->
  Forall authorOk authors ->
  enrichedRecord k (setAuthors fd authors).
Proof.
  intros H1 H2 H3 H4 H5 H6. unfold enrichedRecord, setAuthors.
  cbn [path avgComplexity maxComplexity isDeleted currentSize primaryAuthors].
  split; [exact H1|]. split; [exact H2|]. split; [exact H3|].
  split; [exact H4|]. split; [exact H5|].
  exists authors. split; [reflexivity | exact H6].
Qed.

Lemma enrich_entry (w : World) (root : string) (e : string * FileData) :
  freshRecord (snd e) -> fileRecordOk (snd e) -> path (snd e) = fst e ->
  enrichedRecord (fst e) (snd (snd (extractAuthors w root (enrichFile w root e)))).
Proof.
  destruct e as [k fd]. cbn [fst snd].
  intros (Hsize & Hdel & Hmax & Havg & _) Hok Hpath.
  assert (Hauthors : forall k' fd',
    fileRecordOk fd' -> path fd' = k -> avgComplexity fd' = maxComplexity fd' ->
    (forall c, maxComplexity fd' = Some c -> 0 <= c <= 100) ->
    (isDeleted fd' = true -> currentSize fd' = 0 /\ maxComplexity fd' = Some 0) ->
    enrichedRecord k (snd (snd (extractAuthors w root (k', fd'))))).
  { intros k' fd' H1 H2 H3 H4 H5. unfold extractAuthors.
    destruct (sanitizeFilePath k') as [sp|];
      [destruct (exec w _ root) as [[out err]|]|];
      cbn [snd]; apply setAuthors_enriched; auto using stripCount_authors. }
  unfold enrichFile.
  destruct (negb _).
  - apply Hauthors;
      [exact Hok | exact Hpath | congruence
      | intros c Hc; congruence | intros Hd; congruence].
  - destruct (stat w _) as [size|].
    + destruct (size >? 1024 * 1024);
        [|destruct (readFile w _) as [content|]];
        (apply Hauthors;
         [exact Hok | exact Hpath | reflexivity
         | cbn [setComplexity maxComplexity]; intros c [= <-];
           first [lia | apply Z.le_trans with 1; [lia|]; apply calculateComplexity_range
                 | idtac]
         | cbn [setComplexity isDeleted]; intros Hd; congruence]).
      pose proof (calculateComplexity_range content (language fd)). lia.
    + apply Hauthors;
        [exact Hok | exact Hpath | reflexivity
        | cbn [setComplexity maxComplexity]; intros c [= <-]; lia
        | cbn [setComplexity currentSize maxComplexity]; auto].
Qed.

(** X6. When [parseGitLog] returns, every file record keeps its key as
    [path], has at least one
    change and ordered dates, carries the same value as average and
    maximal complexity, a value between 0 and 100 when set, is marked
    deleted only with size 0 and complexity 0, and has its primary
    authors set, each name with 1 to 99 characters. *)
Theorem parseGitLog_records (fuel : nat) (w : World) (repoPath : string)
        (tr : list call) (data : ParsedLog) :
  parseGitLog fuel w repoPath = (tr, Returns data) ->
  forall k fd, In (k, fd) (parsedFiles data) -> enrichedRecord k fd.
Proof.
  unfold parseGitLog.
  destruct (sanitizeRepositoryPath w repoPath) as [p|]; [|discriminate].
  destruct (sizeBytes _ >? MAX_REPO_SIZE); [discriminate|].
  destruct (exec w _ p) as [[out err]|]; [|discriminate].
  destruct (parseLines fuel out) as [st|] eqn:Ep; [|discriminate].
  intros [= <- <-] k fd Hin. cbn [parsedFiles] in Hin.
  rewrite !map_map in Hin. apply in_map_iff in Hin.
  destruct Hin as (e & He & Hin).
  pose proof (proj1 (Forall_forall _ _) (parseLines_fresh _ _ _ Ep) _ Hin) as Hf.
  pose proof (parseLines_filesOk_any _ _ _ Ep _ Hin) as Ho.
  destruct (parseLines_fileMapOk_any _ _ _ Ep) as [_ Hall].
  pose proof (proj1 (Forall_forall _ _) Hall _ Hin) as [Hp _].
  pose proof (enrich_entry w p e Hf Ho Hp) as H.
  pose proof (extractAuthors_key w p (enrichFile w p e)) as Hk.
  rewrite enrichFile_key in Hk.
  rewrite He in H, Hk. cbn [fst snd] in H, Hk. rewrite Hk. exact H.
Qed.

Lemma parseGitLog_records_witness :
  enrichedRecord "src/a.ts"
    {| path := "src/a.ts"; extension := ".ts";
       firstSeen := Num 1700000300000; lastModified := Num 1700000300000;
       totalChanges := 3; currentSize := 42; isDeleted := false;
       language := Some "typescript";
       maxComplexity := Some 5; avgComplexity := Some 5;
       primaryAuthors := Some ["Ann"; "Bob"] |}.
Proof.
  eapply (parseGitLog_records 6 (worldWithFile streamThreeCommits) "/tmp/repo").
  - vm_compute. reflexivity.
  - vm_compute. left. reflexivity.
Defined.

(* ------------------------------------------------------------------ *)
(** ** The size of a directory *)

Lemma getDirectorySizeNode_listing (items : list (string * fsnode)) :
  getDirectorySizeNode (FsDir (Some items)) = listingSize items 0.
Proof.
  cbn [getDirectorySizeNode]. generalize 0.
  induction items as [|[name item] rest IH]; intros total; [reflexivity|].
  cbn [listingSize]. destruct item as [[size|]|entries|]; try apply IH; reflexivity.
Qed.

Lemma listingSize_stops (before rest : list (string * fsnode)) (name : string)
      (total : Z) :
  listingSize (before ++ (name, FsFile None) :: rest)%list total
  = listingSize before total.
Proof.
  revert total. induction before as [|[n item] before IH]; intros total;
    [reflexivity|].
  cbn [app listingSize]. destruct item as [[size|]|entries|];
    try apply IH; reflexivity.
Qed.

(** X7. A file whose [stat] fails ends the listing of its directory:
    whatever is listed after it, files and whole subdirectories, adds
    nothing to the size, which is the size of the entries before it. *)
Theorem getDirectorySize_stops_at_failing_stat
        (before rest : list (string * fsnode)) (name : string) :
  getDirectorySizeNode (FsDir (Some (before ++ (name, FsFile None) :: rest)%list))
  = getDirectorySizeNode (FsDir (Some before)).
Proof.
  rewrite !getDirectorySizeNode_listing. apply listingSize_stops.
Qed.

Lemma getDirectorySizeNode_nonneg :
  forall n, sizesNonNegative n = true -> 0 <= getDirectorySizeNode n.
Proof.
  fix IH 1. intros n. destruct n as [[size|]|[items|]|]; try (simpl; lia).
  rewrite getDirectorySizeNode_listing. cbn [sizesNonNegative].
  assert (Hgen : forall total, 0 <= total ->
            (fix all (items : list (string * fsnode)) : bool :=
               match items with
               | [] => true
               | (_, item) :: rest => sizesNonNegative item && all rest
               end) items = true ->
            0 <= listingSize items total); [|intros H; apply Hgen; [lia | exact H]].
  induction items as [|[name item] rest IHl]; intros total Ht Hall.
  - exact Ht.
  - apply andb_true_iff in Hall. destruct Hall as [Hitem Hrest].
    cbn [listingSize]. pose proof (IH item Hitem) as Hi.
    destruct item as [[size|]|entries|].
    + apply IHl; [|exact Hrest]. simpl in Hitem. apply Z.leb_le in Hitem. lia.
    + exact Ht.
    + apply IHl; [lia | exact Hrest].
    + apply IHl; [exact Ht | exact Hrest].
Qed.

(** X8. When no file under the metadata directory reports a negative
    size, [sizeBytes] is not negative, [estimatedCommits] is
    [sizeBytes / 1024] rounded down, and the limit handed to the log
    command lies between 0 and 1000. *)
Theorem checkRepositorySize_bounds (w : World) (repoPath : string) :
  (forall n, fsTree w (NodePath.join repoPath ".git") = Some n ->
             sizesNonNegative n = true) ->
  0 <= sizeBytes (checkRepositorySize w repoPath) /\
  1024 * estimatedCommits (checkRepositorySize w repoPath)
    <= sizeBytes (checkRepositorySize w repoPath)
    < 1024 * estimatedCommits (checkRepositorySize w repoPath) + 1024 /\
  0 <= Z.min (estimatedCommits (checkRepositorySize w repoPath)) MAX_COMMITS <= 1000.
Proof.
  intros Htree. unfold checkRepositorySize. cbn [sizeBytes estimatedCommits].
  set (size := getDirectorySize w (NodePath.join repoPath ".git")).
  assert (Hsize : 0 <= size).
  { unfold size, getDirectorySize.
    destruct (fsTree w _) as [n|] eqn:E; [|lia].
    apply getDirectorySizeNode_nonneg, Htree. reflexivity. }
  pose proof (Z.div_mod size 1024 ltac:(lia)) as Hdm.
  pose proof (Z.mod_pos_bound size 1024 ltac:(lia)) as Hmod.
  pose proof (Z.div_pos size 1024 Hsize ltac:(lia)) as Hdiv.
  unfold MAX_COMMITS. repeat split; lia.
Qed.

Lemma checkRepositorySize_bounds_witness :
  0 <= sizeBytes (checkRepositorySize (worldPrinting (packOf 600000) "") "/tmp/repo") /\
  1024 * estimatedCommits (checkRepositorySize (worldPrinting (packOf 600000) "") "/tmp/repo")
    <= sizeBytes (checkRepositorySize (worldPrinting (packOf 600000) "") "/tmp/repo")
    < 1024 * estimatedCommits (checkRepositorySize (worldPrinting (packOf 600000) "") "/tmp/repo") + 1024 /\
  0 <= Z.min (estimatedCommits (checkRepositorySize (worldPrinting (packOf 600000) "") "/tmp/repo")) MAX_COMMITS <= 1000.
Proof.
  apply (checkRepositorySize_bounds (worldPrinting (packOf 600000) "") "/tmp/repo").
  intros n Hn. vm_compute in Hn. injection Hn as <-. reflexivity.
Defined.

(* ------------------------------------------------------------------ *)
(** ** Resolved paths *)

Lemma split_pieces_without (sep : ascii) (s x : string) :
  In x (JS.split sep s) -> anyChar (fun c => Ascii.eqb c sep) x = false.
Proof.
  revert x. induction s as [|c s IH]; intros x H; simpl in H.
  - destruct H as [<-|[]]. reflexivity.
  - destruct (Ascii.eqb c sep) eqn:E.
    + destruct H as [<-|H]; [reflexivity | apply IH, H].
    + destruct (JS.split sep s) as [|h t] eqn:Es.
      * exfalso. eapply split_nonempty. exact Es.
      * destruct H as [<-|H].
        -- simpl. rewrite E. apply IH. left. reflexivity.
        -- apply IH. right. exact H.
Qed.

Lemma split_without (sep : ascii) (s : string) :
  anyChar (fun c => Ascii.eqb c sep) s = false -> JS.split sep s = [s].
Proof.
  induction s as [|c s IH]; simpl; [reflexivity|].
  intros H. apply orb_false_iff in H. destruct H as [Hc Hs].
  rewrite Hc, (IH Hs). reflexivity.
Qed.

Lemma split_trailing_separator (sep : ascii) (s : string) :
  JS.split sep (s ++ String sep "") = (JS.split sep s ++ [""])%list.
Proof.
  induction s as [|c s IH]; simpl.
  - rewrite Ascii.eqb_refl. reflexivity.
  - destruct (Ascii.eqb c sep); rewrite IH; [reflexivity|].
    destruct (JS.split sep s) as [|h t] eqn:E; [|reflexivity].
    exfalso. eapply split_nonempty. exact E.
Qed.

Lemma cleanSegment_noSlash (s : string) :
  cleanSegment s = true -> anyChar (fun c => Ascii.eqb c "/") s = false.
Proof.
  unfold cleanSegment, noSlash. intros H.
  apply andb_true_iff in H. destruct H as [_ H].
  apply negb_true_iff in H. exact H.
Qed.

Lemma cleanSegment_nonempty (s : string) :
  cleanSegment s = true -> JS.is_empty s = false.
Proof. destruct s; [discriminate | reflexivity]. Qed.

Lemma split_join (segs : list string) :
  segs <> [] -> Forall (fun s => cleanSegment s = true) segs ->
  JS.split "/" (JS.join "/" segs) = segs.
Proof.
  induction segs as [|a segs IH]; intros Hne Hall; [congruence|].
  inversion Hall as [|? ? Ha Hrest]; subst.
  destruct segs as [|b segs].
  - simpl. apply split_without, cleanSegment_noSlash, Ha.
  - change (JS.join "/" (a :: b :: segs))
      with (a ++ String "/" (JS.join "/" (b :: segs))).
    rewrite split_before_separator by (apply cleanSegment_noSlash, Ha).
    rewrite IH; [reflexivity | discriminate | exact Hrest].
Qed.

Lemma normalizeSegments_clean_input (b : bool) (acc segs : list string) :
  Forall (fun s => cleanSegment s = true) segs ->
  NodePath.normalizeSegments b acc segs = (rev acc ++ segs)%list.
Proof.
  revert acc. induction segs as [|s segs IH]; intros acc Hall; simpl.
  - rewrite app_nil_r. reflexivity.
  - inversion Hall as [|? ? Hs Hrest]; subst.
    unfold cleanSegment in Hs.
    repeat (apply andb_true_iff in Hs; destruct Hs as [Hs ?]).
    apply negb_true_iff in Hs.
    repeat match goal with
           | H : negb _ = true |- _ => apply negb_true_iff in H
           end.
    rewrite Hs.
    replace (String.eqb s ".") with false by (symmetry; assumption).
    replace (String.eqb s "..") with false by (symmetry; assumption).
    simpl. rewrite IH by exact Hrest. simpl. rewrite <- app_assoc. reflexivity.
Qed.

Lemma normalizeSegments_trailing_empty (b : bool) (acc segs : list string) :
  NodePath.normalizeSegments b acc (segs ++ [""])
  = NodePath.normalizeSegments b acc segs.
Proof.
  revert acc. induction segs as [|s segs IH]; intros acc; [reflexivity|].
  cbn [app NodePath.normalizeSegments].
  destruct (String.eqb s "" || String.eqb s "."); [apply IH|].
  destruct (String.eqb s ".."); [|apply IH].
  destruct acc as [|top acc']; [apply IH|].
  destruct (String.eqb top ".."); apply IH.
Qed.

Lemma normalizeSegments_skip_empty (b : bool) (acc segs : list string) :
  NodePath.normalizeSegments b acc ("" :: segs)
  = NodePath.normalizeSegments b acc segs.
Proof. reflexivity. Qed.

Lemma normalizeSegments_output (acc segs : list string) :
  Forall (fun s => cleanSegment s = true) acc ->
  Forall (fun s => anyChar (fun c => Ascii.eqb c "/") s = false) segs ->
  Forall (fun s => cleanSegment s = true)
         (NodePath.normalizeSegments false acc segs).
Proof.
  revert acc. induction segs as [|s segs IH]; intros acc Hacc Hsegs; simpl.
  - apply Forall_rev. exact Hacc.
  - inversion Hsegs as [|? ? Hs Hrest]; subst.
    destruct (String.eqb s "" || String.eqb s ".") eqn:E1; [apply IH; assumption|].
    destruct (String.eqb s "..") eqn:E2.
    + destruct acc as [|top acc']; [apply IH; assumption|].
      inversion Hacc; subst.
      destruct (String.eqb top ".."); apply IH; assumption.
    + apply IH; [|exact Hrest]. constructor; [|exact Hacc].
      apply orb_false_iff in E1. destruct E1 as [E0 E1].
      unfold cleanSegment, noSlash. rewrite E0, E1, E2, Hs. reflexivity.
Qed.

(** With an absolute working directory, [path.resolve] returns an
    absolute path of clean segments. *)
Lemma resolve_form (cwd p : string) :
  NodePath.isAbsolute cwd = true ->
  exists segs,
    NodePath.resolve cwd p = absolutePath segs /\
    Forall (fun s => cleanSegment s = true) segs.
Proof.
  intros Hcwd. unfold NodePath.resolve. rewrite Hcwd, orb_true_r. simpl negb.
  cbv iota. unfold NodePath.normalizeString, absolutePath.
  eexists. split; [reflexivity|].
  apply normalizeSegments_output; [constructor|].
  apply Forall_forall. intros x Hx. eapply split_pieces_without. exact Hx.
Qed.

Lemma split_absolutePath (segs : list string) :
  Forall (fun s => cleanSegment s = true) segs ->
  NodePath.normalizeSegments false [] (JS.split "/" (absolutePath segs)) = segs /\
  NodePath.normalizeSegments true [] (JS.split "/" (absolutePath segs)) = segs.
Proof.
  intros Hall. unfold absolutePath.
  change ("/" ++ JS.join "/" segs) with (String "/" (JS.join "/" segs)).
  cbn [JS.split]. change (Ascii.eqb "/" "/") with true. cbv iota.
  destruct segs as [|a segs]; [split; reflexivity|].
  rewrite split_join by (congruence || exact Hall).
  rewrite !normalizeSegments_skip_empty.
  rewrite !normalizeSegments_clean_input by exact Hall.
  split; reflexivity.
Qed.

Lemma anyChar_endsWith (c : ascii) (s : string) :
  anyChar (fun x => Ascii.eqb x c) s = false -> JS.endsWithChar s c = false.
Proof.
  induction s as [|a s IH]; [reflexivity|].
  intros H. simpl in H. apply orb_false_iff in H. destruct H as [Ha Hs].
  destruct s as [|d s']; [exact Ha|].
  change (JS.endsWithChar (String a (String d s')) c)
    with (JS.endsWithChar (String d s') c).
  apply IH, Hs.
Qed.

Lemma endsWithChar_cons (x : ascii) (s : string) (c : ascii) :
  JS.is_empty s = false -> JS.endsWithChar (String x s) c = JS.endsWithChar s c.
Proof. destruct s; [discriminate | reflexivity]. Qed.

Lemma endsWithChar_append (a b : string) (c : ascii) :
  JS.is_empty b = false ->
  JS.endsWithChar (a ++ b) c = JS.endsWithChar b c.
Proof.
  intros Hb. induction a as [|x a IH]; [reflexivity|].
  simpl append. rewrite endsWithChar_cons; [exact IH|].
  destruct a; [exact Hb | reflexivity].
Qed.

Lemma join_no_trailing_separator (segs : list string) :
  segs <> [] -> Forall (fun s => cleanSegment s = true) segs ->
  JS.endsWithChar (JS.join "/" segs) "/" = false /\
  JS.is_empty (JS.join "/" segs) = false.
Proof.
  induction segs as [|a segs IH]; intros Hne Hall; [congruence|].
  inversion Hall as [|? ? Ha Hrest]; subst.
  destruct segs as [|b segs].
  - simpl. split.
    + apply anyChar_endsWith, cleanSegment_noSlash, Ha.
    + apply cleanSegment_nonempty, Ha.
  - destruct IH as [IH1 IH2]; [discriminate | exact Hrest |].
    change (JS.join "/" (a :: b :: segs))
      with (a ++ String "/" (JS.join "/" (b :: segs))).
    split.
    + rewrite endsWithChar_append by reflexivity.
      destruct (JS.join "/" (b :: segs)) eqn:E; [discriminate IH2|].
      exact IH1.
    + destruct a; [discriminate Ha | reflexivity].
Qed.

Lemma append_empty_r (s : string) : s ++ "" = s.
Proof. induction s as [|c s IH]; simpl; congruence. Qed.

(** A resolved path is a fixed point of [normalize] and of [resolve]. *)
Lemma absolutePath_fixed (cwd : string) (segs : list string) :
  Forall (fun s => cleanSegment s = true) segs ->
  NodePath.resolve cwd (NodePath.normalize (absolutePath segs)) = absolutePath segs.
Proof.
  intros Hall.
  assert (Hnorm : NodePath.normalize (absolutePath segs) = absolutePath segs).
  { unfold NodePath.normalize.
    change (JS.is_empty (absolutePath segs)) with false. cbv iota.
    change (NodePath.isAbsolute (absolutePath segs)) with
      (String.prefix "/" (String "/" (JS.join "/" segs))).
    replace (String.prefix "/" (String "/" (JS.join "/" segs))) with true
      by (simpl; destruct (JS.join "/" segs); reflexivity).
    simpl negb. unfold NodePath.normalizeString.
    rewrite (proj1 (split_absolutePath segs Hall)).
    destruct segs as [|a segs]; [reflexivity|].
    destruct (join_no_trailing_separator (a :: segs)) as [Hend Hne];
      [discriminate | exact Hall |].
    rewrite Hne.
    replace (JS.endsWithChar (absolutePath (a :: segs)) "/") with false.
    - rewrite append_empty_r. reflexivity.
    - symmetry. unfold absolutePath.
      rewrite endsWithChar_append by exact Hne. exact Hend. }
  rewrite Hnorm. unfold NodePath.resolve.
  change (JS.is_empty (absolutePath segs)) with false. cbv iota.
  change (NodePath.isAbsolute (absolutePath segs)) with
    (String.prefix "/" (String "/" (JS.join "/" segs))).
  replace (String.prefix "/" (String "/" (JS.join "/" segs))) with true
    by (simpl; destruct (JS.join "/" segs); reflexivity).
  simpl orb. simpl negb. cbv iota. unfold NodePath.normalizeString.
  rewrite split_trailing_separator, normalizeSegments_trailing_empty.
  rewrite (proj1 (split_absolutePath segs Hall)). reflexivity.
Qed.

Lemma sanitizeRepositoryPath_again (w : World) (repoPath r : string) :
  NodePath.isAbsolute (cwd w) = true ->
  sanitizeRepositoryPath w repoPath = Ok r ->
  sanitizeRepositoryPath w r = Ok r.
Proof.
  intros Hcwd H.
  assert (Hr : r = NodePath.resolve (cwd w) (NodePath.normalize repoPath)).
  { unfold sanitizeRepositoryPath in H.
    destruct (negb _); [discriminate|].
    destruct (_ || _); [discriminate|]. congruence. }
  destruct (resolve_form (cwd w) (NodePath.normalize repoPath) Hcwd)
    as (segs & Hform & Hclean).
  assert (Hfix : NodePath.resolve (cwd w) (NodePath.normalize r) = r).
  { rewrite Hr, Hform. apply absolutePath_fixed, Hclean. }
  unfold sanitizeRepositoryPath in *. rewrite Hfix. rewrite <- Hr in H. exact H.
Qed.

(** X9. In a process whose working directory is absolute, a path that
    [sanitizeRepositoryPath] returns is accepted again and comes back
    unchanged: sanitizing twice, as the parser route does, is sanitizing
    once. *)
Theorem sanitizeRepositoryPath_idempotent (w : World) (repoPath r : string) :
  NodePath.isAbsolute (cwd w) = true ->
  sanitizeRepositoryPath w repoPath = Ok r ->
  sanitizeRepositoryPath w r = Ok r.
Proof. apply sanitizeRepositoryPath_again. Qed.

Lemma sanitizeRepositoryPath_idempotent_witness :
  sanitizeRepositoryPath bareWorld "/tmp/repo" = Ok "/tmp/repo".
Proof.
  apply (sanitizeRepositoryPath_idempotent bareWorld "/tmp/work/../repo/").
  - reflexivity.
  - reflexivity.
Defined.

(** X10. In a process whose working directory is absolute, a path that
    [sanitizeRepositoryPath] returns is absolute and made of segments
    that are not empty, not [.], not [..] and hold no separator: it
    never ends with a separator unless it is the root. *)
Theorem sanitizeRepositoryPath_canonical (w : World) (repoPath r : string) :
  NodePath.isAbsolute (cwd w) = true ->
  sanitizeRepositoryPath w repoPath = Ok r ->
  exists segs,
    r = absolutePath segs /\
    Forall (fun s => cleanSegment s = true) segs /\
    (segs <> [] -> JS.endsWithChar r "/" = false).
Proof.
  intros Hcwd H.
  assert (Hr : r = NodePath.resolve (cwd w) (NodePath.normalize repoPath)).
  { unfold sanitizeRepositoryPath in H.
    destruct (negb _); [discriminate|].
    destruct (_ || _); [discriminate|]. congruence. }
  destruct (resolve_form (cwd w) (NodePath.normalize repoPath) Hcwd)
    as (segs & Hform & Hclean).
  exists segs. split; [congruence|]. split; [exact Hclean|].
  intros Hne. rewrite Hr, Hform. unfold absolutePath.
  destruct (join_no_trailing_separator segs Hne Hclean) as [Hend Hnon].
  rewrite endsWithChar_append by exact Hnon. exact Hend.
Qed.

Lemma sanitizeRepositoryPath_canonical_witness :
  exists segs,
    "/tmp/repo" = absolutePath segs /\
    Forall (fun s => cleanSegment s = true) segs /\
    (segs <> [] -> JS.endsWithChar "/tmp/repo" "/" = false).
Proof.
  apply (sanitizeRepositoryPath_canonical bareWorld "/tmp//work/../repo/").
  - reflexivity.
  - reflexivity.
Defined.

(* ------------------------------------------------------------------ *)
(** ** The read path of the gateway *)

Lemma prefix_append_r (a g x : string) :
  String.prefix a g = true -> String.prefix a (g ++ x) = true.
Proof. intros H. eapply prefix_trans; [exact H | apply prefix_app]. Qed.

Lemma sanitizeGitParameter_cases (s : string) :
  sanitizeGitParameter s = Ok s \/
  sanitizeGitParameter s = Err "Invalid characters in parameter".
Proof.
  unfold sanitizeGitParameter.
  destruct (String.eqb _ s) eqn:E; simpl; [|right; reflexivity].
  apply String.eqb_eq in E. rewrite E. left. reflexivity.
Qed.

(** What [addFilter] does, by the fate of the value. *)
Lemma addFilter_cases (opening : string) (value : option string) (g : string) :
  (rejectedFilter value = true /\
   LogRoute.addFilter opening value g = Err "Invalid characters in parameter") \/
  (rejectedFilter value = false /\
   exists g', LogRoute.addFilter opening value g = Ok g' /\
              forall a, String.prefix a g = true -> String.prefix a g' = true).
Proof.
  unfold LogRoute.addFilter, rejectedFilter.
  destruct (truthy value); simpl.
  - destruct (sanitizeGitParameter_cases (LogRoute.orElse value "")) as [E|E];
      rewrite E; simpl.
    + right. split; [reflexivity|]. eexists. split; [reflexivity|].
      intros a Ha. apply prefix_append_r, Ha.
    + left. split; reflexivity.
  - right. split; [reflexivity|]. eexists. split; [reflexivity|]. auto.
Qed.

Lemma addFilters_cases (q : LogRoute.Query) (g0 : string) :
  String.prefix "git log" g0 = true ->
  (existsb rejectedFilter (filters q) = true /\
   (let* g := LogRoute.addFilter " --since=" (LogRoute.qSince q) g0 in
    let* g := LogRoute.addFilter " --until=" (LogRoute.qUntil q) g in
    let* g := LogRoute.addFilter " --author=" (LogRoute.qAuthor q) g in
    let* g := LogRoute.addFilter " --grep=" (LogRoute.qGrep q) g in
    LogRoute.addFilter " -- " (LogRoute.qFile q) g)
   = Err "Invalid characters in parameter") \/
  (existsb rejectedFilter (filters q) = false /\
   exists cmd,
     (let* g := LogRoute.addFilter " --since=" (LogRoute.qSince q) g0 in
      let* g := LogRoute.addFilter " --until=" (LogRoute.qUntil q) g in
      let* g := LogRoute.addFilter " --author=" (LogRoute.qAuthor q) g in
      let* g := LogRoute.addFilter " --grep=" (LogRoute.qGrep q) g in
      LogRoute.addFilter " -- " (LogRoute.qFile q) g) = Ok cmd /\
     String.prefix "git log" cmd = true).
Proof.
  intros H0. unfold filters. cbn [existsb].
  destruct (addFilter_cases " --since=" (LogRoute.qSince q) g0)
    as [[R1 E1]|[R1 (g1 & E1 & P1)]]; rewrite R1, E1; simpl;
    [left; split; reflexivity|].
  destruct (addFilter_cases " --until=" (LogRoute.qUntil q) g1)
    as [[R2 E2]|[R2 (g2 & E2 & P2)]]; rewrite R2, E2; simpl;
    [left; split; reflexivity|].
  destruct (addFilter_cases " --author=" (LogRoute.qAuthor q) g2)
    as [[R3 E3]|[R3 (g3 & E3 & P3)]]; rewrite R3, E3; simpl;
    [left; split; reflexivity|].
  destruct (addFilter_cases " --grep=" (LogRoute.qGrep q) g3)
    as [[R4 E4]|[R4 (g4 & E4 & P4)]]; rewrite R4, E4; simpl;
    [left; split; reflexivity|].
  destruct (addFilter_cases " -- " (LogRoute.qFile q) g4)
    as [[R5 E5]|[R5 (g5 & E5 & P5)]]; rewrite R5, E5; simpl;
    [left; split; reflexivity|].
  right. split; [reflexivity|]. exists g5. split; [reflexivity|].
  apply P5, P4, P3, P2, P1, H0.
Qed.

(** The command is built exactly when no filter is rejected, and a built
    command starts with [git log]. *)
Lemma buildCommand_cases (q : LogRoute.Query) :
  (existsb rejectedFilter (filters q) = true /\
   LogRoute.buildCommand q = Err "Invalid characters in parameter") \/
  (existsb rejectedFilter (filters q) = false /\
   exists cmd, LogRoute.buildCommand q = Ok cmd /\
               String.prefix "git log" cmd = true).
Proof.
  unfold LogRoute.buildCommand. apply addFilters_cases.
  apply prefix_append_r.
  destruct (LogRoute.isTrue (LogRoute.qNumstat q));
    destruct (LogRoute.isTrue (LogRoute.qStat q));
    repeat apply prefix_append_r; reflexivity.
Qed.

(** X11. [GET] starts at most one subprocess. When it starts one, the
    repository path passed validation, the subprocess runs in the
    validated directory, and its command line is the one built from the
    query, which starts with [git log]. *)
Theorem GET_single_git_log (w : World) (repositoryId : string) (q : LogRoute.Query) :
  fst (LogRoute.GET w repositoryId q) = [] \/
  exists cmd p,
    fst (LogRoute.GET w repositoryId q) = [(cmd, p)] /\
    validateRepository w (LogRoute.orElse (LogRoute.qPath q) "") = Ok p /\
    LogRoute.buildCommand q = Ok cmd /\
    String.prefix "git log" cmd = true.
Proof.
  unfold LogRoute.GET.
  destruct (negb (truthy (LogRoute.qPath q))); [left; reflexivity|].
  destruct (validateRepository w _) as [p|]; [|left; reflexivity].
  destruct (buildCommand_cases q) as [[_ E]|[_ (cmd & E & Hp)]]; rewrite E;
    [left; reflexivity|].
  right. exists cmd, p.
  destruct (exec w cmd p) as [[out err]|];
    [destruct (negb (JS.is_empty err) && JS.is_empty out)|]; auto.
Qed.

(** X12. A present filter value that [sanitizeGitParameter] rejects
    stops the request before any subprocess: the command is not built,
    nothing is run and, the path being valid, the answer is the 500 of
    the outer handler with the sanitizer's message. With no such filter
    the command is built. *)
Theorem GET_rejected_filter (w : World) (repositoryId p : string) (q : LogRoute.Query) :
  truthy (LogRoute.qPath q) = true ->
  validateRepository w (LogRoute.orElse (LogRoute.qPath q) "") = Ok p ->
  (existsb rejectedFilter (filters q) = true ->
   LogRoute.GET w repositoryId q
   = ([], RespError 500 "Failed to execute git log"
            (Some "Invalid characters in parameter"))) /\
  (existsb rejectedFilter (filters q) = false ->
   exists cmd, LogRoute.buildCommand q = Ok cmd /\
               fst (LogRoute.GET w repositoryId q) = [(cmd, p)]).
Proof.
  intros Hpath Hval. unfold LogRoute.GET. rewrite Hpath, Hval. simpl negb. cbv iota.
  destruct (buildCommand_cases q) as [[R E]|[R (cmd & E & _)]]; rewrite R, E.
  - split; [reflexivity | discriminate].
  - split; [discriminate|]. intros _. exists cmd. split; [reflexivity|].
    destruct (exec w cmd p) as [[out err]|];
      [destruct (negb (JS.is_empty err) && JS.is_empty out)|]; reflexivity.
Qed.

Lemma GET_rejected_filter_witness :
  LogRoute.GET (worldPrinting (fun _ => None) "") "r1" (queryWithAuthor "Ann; rm -rf /")
  = ([], RespError 500 "Failed to execute git log"
           (Some "Invalid characters in parameter")) /\
  exists cmd,
    LogRoute.buildCommand (queryWithAuthor "Ann") = Ok cmd /\
    fst (LogRoute.GET (worldPrinting (fun _ => None) "") "r1" (queryWithAuthor "Ann"))
    = [(cmd, "/tmp/repo")].
Proof.
  split.
  - apply (GET_rejected_filter (worldPrinting (fun _ => None) "") "r1" "/tmp/repo"
             (queryWithAuthor "Ann; rm -rf /") eq_refl eq_refl).
    reflexivity.
  - apply (GET_rejected_filter (worldPrinting (fun _ => None) "") "r1" "/tmp/repo"
             (queryWithAuthor "Ann") eq_refl eq_refl).
    reflexivity.
Defined.

(* ------------------------------------------------------------------ *)
(** ** The structured answer *)

Lemma removeClass_clean (cls : ascii -> bool) (s : string) :
  anyChar cls (removeClass cls s) = false.
Proof.
  induction s as [|c s IH]; simpl; [reflexivity|].
  destruct (cls c) eqn:E; simpl; [exact IH|]. rewrite E. exact IH.
Qed.

Lemma split_pieces_anyChar (p : ascii -> bool) (sep : ascii) (s x : string) :
  anyChar p s = false -> In x (JS.split sep s) -> anyChar p x = false.
Proof.
  revert x. induction s as [|c s IH]; intros x Hs H; simpl in H.
  - destruct H as [<-|[]]. reflexivity.
  - simpl in Hs. apply orb_false_iff in Hs. destruct Hs as [Hc Hs].
    destruct (Ascii.eqb c sep).
    + destruct H as [<-|H]; [reflexivity | apply IH; assumption].
    + destruct (JS.split sep s) as [|h t] eqn:Es.
      * exfalso. eapply split_nonempty. exact Es.
      * destruct H as [<-|H].
        -- simpl. rewrite Hc. apply IH; [exact Hs | left; reflexivity].
        -- apply IH; [exact Hs | right; exact H].
Qed.

Lemma unquote_quoteFree (field : option string) : quoteFree (unquote field).
Proof. destruct field; simpl; [apply removeClass_clean | exact I]. Qed.

Lemma summaryOfLine_short (line : string) :
  (List.length (JS.split "|" line) < 5)%nat -> summaryDate (summaryOfLine line) = NaN.
Proof.
  intros H. unfold summaryOfLine. cbn [summaryDate].
  replace (nth_error (JS.split "|" line) 4) with (@None string); [reflexivity|].
  symmetry. apply nth_error_None. lia.
Qed.

(** X13. The structured answer holds one summary per line of the output
    that is not blank. Every summary has a hash, no field of it holds a
    double quote, and its parents are non-empty texts without quote and
    without space. A line with fewer than five fields gets the date NaN. *)
Theorem structuredCommits_shape (stdout : string) :
  List.length (structuredCommits stdout)
  = List.length (filter (fun line => (0 <? String.length (JS.trim line))%nat)
                        (JS.split newline stdout)) /\
  forall c, In c (structuredCommits stdout) ->
    (exists sha, summarySha c = Some sha) /\
    quoteFree (summarySha c) /\ quoteFree (summaryMessage c) /\
    quoteFree (summaryAuthor c) /\ quoteFree (summaryAuthorEmail c) /\
    Forall (fun p => p <> "" /\ anyChar isQuote p = false /\ anyChar isSpace p = false)
           (summaryParents c) /\
    (forall line, c = summaryOfLine line ->
       (List.length (JS.split "|" line) < 5)%nat -> summaryDate c = NaN).
Proof.
  split; [apply length_map|].
  intros c Hc.
  assert (Hshort : forall line, c = summaryOfLine line ->
            (List.length (JS.split "|" line) < 5)%nat -> summaryDate c = NaN)
    by (intros line -> Hl; apply summaryOfLine_short, Hl).
  revert Hshort. unfold structuredCommits in Hc. apply in_map_iff in Hc.
  destruct Hc as (line & <- & _). unfold summaryOfLine.
  intros Hshort.
  cbn [summarySha summaryMessage summaryAuthor summaryAuthorEmail summaryParents].
  split.
  { destruct (JS.split "|" line) as [|h t] eqn:E.
    - exfalso. eapply split_nonempty. exact E.
    - eexists. reflexivity. }
  repeat (split; [apply unquote_quoteFree|]).
  split; [|exact Hshort].
  destruct (nth_error (JS.split "|" line) 5) as [ps|]; cbn [unquote option_map];
    [|constructor].
  apply Forall_forall. intros p Hp. apply filter_In in Hp. destruct Hp as [Hin Hlen].
  split; [|split].
  - intros ->. discriminate Hlen.
  - eapply split_pieces_anyChar; [apply removeClass_clean | exact Hin].
  - eapply split_pieces_without. exact Hin.
Qed.

Lemma structuredCommits_shape_witness :
  quoteFree (summaryMessage (summaryOfLine "9fceb02|add route|Ann|ann@example.org")) /\
  summaryDate (summaryOfLine "9fceb02|add route|Ann|ann@example.org") = NaN.
Proof.
  destruct (structuredCommits_shape "9fceb02|add route|Ann|ann@example.org")
    as [_ H].
  destruct (H (summaryOfLine "9fceb02|add route|Ann|ann@example.org"))
    as (_ & _ & Hm & _ & _ & _ & Hd).
  - left. reflexivity.
  - split; [exact Hm|].
    apply (Hd "9fceb02|add route|Ann|ann@example.org" eq_refl).
    vm_compute. apply le_n.
Defined.

(* ------------------------------------------------------------------ *)
(** ** Paths without extension *)

(** X14. A path whose last segment holds no dot, or whose only dot opens
    the segment, has no extension and no language: a [Makefile], a
    [Dockerfile] and a [.gitignore] are recorded without language. *)
Theorem detectLanguage_without_extension (filePath : string) :
  anyChar isDot (NodePath.lastSegment filePath) = false \/
  (exists rest, NodePath.lastSegment filePath = String "." rest /\
                anyChar isDot rest = false) ->
  NodePath.extname filePath = "" /\ detectLanguage filePath = None.
Proof.
  intros H.
  assert (He : NodePath.extname filePath = "").
  { unfold NodePath.extname. destruct H as [H|(rest & E & H)].
    - rewrite (split_without "." _ H). reflexivity.
    - rewrite E. cbn [JS.split]. change (Ascii.eqb "." ".") with true. cbv iota.
      rewrite (split_without "." _ H). reflexivity. }
  split; [exact He|]. unfold detectLanguage. rewrite He. reflexivity.
Qed.

Lemma detectLanguage_without_extension_witness :
  (NodePath.extname "docker/Dockerfile" = "" /\
   detectLanguage "docker/Dockerfile" = None) /\
  (NodePath.extname "src/.gitignore" = "" /\
   detectLanguage "src/.gitignore" = None).
Proof.
  split.
  - apply (detectLanguage_without_extension "docker/Dockerfile").
    left. reflexivity.
  - apply (detectLanguage_without_extension "src/.gitignore").
    right. exists "gitignore". split; reflexivity.
Defined.

(* ------------------------------------------------------------------ *)
(** ** Numbers through text *)

Lemma digits_of_uint_acc (d : Decimal.uint) (acc : positive) :
  JS.digits 10 (Some (Zpos acc)) (NilEmpty.string_of_uint d)
  = Some (Zpos (Pos.of_uint_acc d acc)).
Proof.
  revert acc. induction d; intros acc; cbn [NilEmpty.string_of_uint JS.digits];
    [reflexivity | ..];
    match goal with
    | |- context [JS.digit_val ?c] =>
        let v := eval vm_compute in (JS.digit_val c) in
        change (JS.digit_val c) with v
    end; cbv iota;
    match goal with
    | |- context [?x <? 10] =>
        let v := eval vm_compute in (x <? 10) in change (x <? 10) with v
    end; cbv iota;
    cbn [Pos.of_uint_acc]; rewrite <- IHd; f_equal; f_equal; lia.
Qed.

Lemma digits_of_uint (d : Decimal.uint) :
  JS.digits 10 (Some 0) (NilEmpty.string_of_uint d)
  = Some (Z.of_N (Pos.of_uint d)).
Proof.
  induction d; cbn [NilEmpty.string_of_uint JS.digits];
    [reflexivity | ..];
    match goal with
    | |- context [JS.digit_val ?c] =>
        let v := eval vm_compute in (JS.digit_val c) in
        change (JS.digit_val c) with v
    end; cbv iota;
    match goal with
    | |- context [?x <? 10] =>
        let v := eval vm_compute in (x <? 10) in change (x <? 10) with v
    end; cbv iota;
    cbn [Pos.of_uint]; first [exact IHd | apply digits_of_uint_acc].
Qed.

(** Below 2^53 every integer is a double. *)
Lemma roundMagnitude_small (m : Z) :
  0 <= m < 2 ^ 53 -> JS.roundMagnitude m = m.
Proof.
  intros [H0 H1]. unfold JS.roundMagnitude.
  assert (He : Z.max 0 (Z.log2 m - 52) = 0).
  { destruct (Z.eq_dec m 0) as [->|Hne]; [reflexivity|].
    assert (Z.log2 m < 53) by (apply Z.log2_lt_pow2; lia). lia. }
  rewrite He. cbn [Z.eqb]. cbv zeta.
  rewrite Z.shiftr_0_r, Z.shiftl_0_r. reflexivity.
Qed.

Lemma fromZ_small (z : Z) : Z.abs z < 2 ^ 53 -> JS.fromZ z = Num z.
Proof.
  intros H. unfold JS.fromZ.
  rewrite roundMagnitude_small by (split; [apply Z.abs_nonneg | exact H]).
  assert (E : (2 ^ 1024 <=? Z.abs z) = false).
  { apply Z.leb_gt. eapply Z.lt_trans; [exact H|]. reflexivity. }
  rewrite E. f_equal. destruct z; simpl; lia.
Qed.

(** Beyond 2^53 the nearest double is taken, the even one at a tie; the
    product with 1000 of a late count of seconds is no multiple of 1000;
    400 digits are an infinity. *)
Lemma fromZ_rounds :
  JS.fromZ (2 ^ 53 + 1) = Num (2 ^ 53) /\
  JS.fromZ (2 ^ 53 + 3) = Num (2 ^ 53 + 4) /\
  JS.parseInt "9007199254740993" = Num 9007199254740992 /\
  JS.mul (JS.parseInt "144115188075857") (Num 1000) = Num 144115188075856992 /\
  JS.parseInt (String.concat "" (repeat "9" 400)) = Infinity false /\
  JS.parseInt ("-" ++ String.concat "" (repeat "9" 400)) = Infinity true.
Proof. repeat split; vm_compute; reflexivity. Qed.

Lemma parseInt_of_uint (d : Decimal.uint) :
  d <> Decimal.Nil ->
  JS.parseInt (NilEmpty.string_of_uint d) = JS.fromZ (Z.of_N (Pos.of_uint d)) /\
  JS.parseInt (String "-" (NilEmpty.string_of_uint d))
  = JS.fromZ (- Z.of_N (Pos.of_uint d)).
Proof.
  intros Hd.
  assert (Hdigits : JS.digits 10 None (NilEmpty.string_of_uint d)
                    = Some (Z.of_N (Pos.of_uint d))).
  { destruct d; [congruence | ..]; cbn [NilEmpty.string_of_uint JS.digits];
      match goal with
      | |- context [JS.digit_val ?c] =>
          let v := eval vm_compute in (JS.digit_val c) in
          change (JS.digit_val c) with v
      end; cbv iota;
      match goal with
      | |- context [?x <? 10] =>
          let v := eval vm_compute in (x <? 10) in change (x <? 10) with v
      end; cbv iota;
      cbn [Pos.of_uint]; first [apply digits_of_uint | apply digits_of_uint_acc]. }
  assert (Hhex : JS.strip_hex (NilEmpty.string_of_uint d) = None).
  { destruct d as [|d'|d'|d'|d'|d'|d'|d'|d'|d'|d']; try reflexivity.
    destruct d'; reflexivity. }
  assert (Hhead : exists c rest,
             NilEmpty.string_of_uint d = String c rest /\
             JS.is_ws c = false /\ c <> "-"%char /\ c <> "+"%char).
  { destruct d; [congruence | ..]; cbn [NilEmpty.string_of_uint];
      do 2 eexists; (split; [reflexivity|]);
      (split; [reflexivity|]); split; discriminate. }
  destruct Hhead as (c & rest & Es & Hws & Hm & Hp).
  split.
  - rewrite Es in Hhex, Hdigits |- *.
    unfold JS.parseInt. cbn [JS.trimStart]. rewrite Hws.
    destruct c as [[] [] [] [] [] [] [] []]; try (exfalso; congruence);
      cbv beta iota zeta; rewrite Hhex, Hdigits; f_equal; try lia.
  - unfold JS.parseInt. cbn [JS.trimStart].
    change (JS.is_ws "-") with false. cbv iota.
    rewrite Hhex, Hdigits. f_equal; try lia.
Qed.

Lemma string_of_uint_nonnil (d : Decimal.uint) :
  d <> Decimal.Nil -> NilZero.string_of_uint d = NilEmpty.string_of_uint d.
Proof. destruct d; [congruence | ..]; reflexivity. Qed.

(** [parseInt] reads the decimal text of an integer back, as the double
    nearest to it. *)
Lemma parseInt_string_of_Z_rounded (z : Z) :
  JS.parseInt (JS.string_of_Z z) = JS.fromZ z.
Proof.
  unfold JS.string_of_Z. destruct z as [|p|p]; [reflexivity | |];
    cbn [Z.to_int NilZero.string_of_int];
    pose proof (DecimalPos.Unsigned.to_uint_nonnil p) as Hn;
    rewrite (string_of_uint_nonnil _ Hn).
  - rewrite (proj1 (parseInt_of_uint _ Hn)), DecimalPos.Unsigned.of_to.
    reflexivity.
  - rewrite (proj2 (parseInt_of_uint _ Hn)), DecimalPos.Unsigned.of_to.
    reflexivity.
Qed.

Lemma parseInt_string_of_Z (z : Z) :
  Z.abs z < 2 ^ 53 -> JS.parseInt (JS.string_of_Z z) = Num z.
Proof.
  intros H. rewrite parseInt_string_of_Z_rounded. apply fromZ_small, H.
Qed.

Lemma string_of_Z_nonempty (z : Z) : JS.is_empty (JS.string_of_Z z) = false.
Proof.
  unfold JS.string_of_Z. destruct z as [|p|p]; [reflexivity | |];
    cbn [Z.to_int NilZero.string_of_int]; [|reflexivity].
  unfold NilZero.string_of_uint.
  destruct (Pos.to_uint p); reflexivity.
Qed.

(** X15. A [max-count] written as the decimal text of a number from 1 to
    1000 reaches the command unchanged, as [--max-count] followed by the
    same text right after the format and statistics options; a request
    without [max-count] is limited to 100. *)
Theorem GET_max_count_in_range (q : LogRoute.Query) (n : Z) :
  0 < n <= 1000 ->
  LogRoute.maxCountOption
    (JS.parseInt (LogRoute.orElse (LogRoute.qMaxCount (queryLimitedTo q n)) "100"))
  = " --max-count=" ++ JS.string_of_Z n /\
  LogRoute.maxCountOption
    (JS.parseInt (LogRoute.orElse (LogRoute.qMaxCount (withMaxCount q None)) "100"))
  = " --max-count=100".
Proof.
  intros Hn. split; [|reflexivity].
  unfold queryLimitedTo, withMaxCount. cbn [LogRoute.qMaxCount LogRoute.orElse].
  rewrite string_of_Z_nonempty, parseInt_string_of_Z
    by (apply Z.abs_lt; split; [|eapply Z.le_lt_trans; [apply Hn|]]; lia).
  unfold LogRoute.maxCountOption. cbn [JS.gtb JS.leb JS.to_string].
  replace (0 <? n) with true by (symmetry; apply Z.ltb_lt; lia).
  replace (n <=? 1000) with true by (symmetry; apply Z.leb_le; lia).
  reflexivity.
Qed.

Lemma GET_max_count_in_range_witness :
  LogRoute.buildCommand (queryLimitedTo (queryWithMaxCount "5000") 250)
  = Ok "git log --oneline --max-count=250".
Proof.
  unfold LogRoute.buildCommand.
  rewrite (proj1 (GET_max_count_in_range (queryWithMaxCount "5000") 250
                    ltac:(lia))).
  reflexivity.
Defined.

(* ------------------------------------------------------------------ *)
(** ** The file path sanitizer of the parser *)

Lemma removeClassBracket_facts (cls : ascii -> bool) (n : nat) :
  forall s, (String.length s <= n)%nat ->
    (String.length (removeClassBracket cls s) <= String.length s)%nat /\
    (hasBracketPair cls s = true ->
     (String.length (removeClassBracket cls s) < String.length s)%nat) /\
    (hasBracketPair cls s = false -> removeClassBracket cls s = s).
Proof.
  induction n as [|n IH]; intros s Hlen.
  - destruct s; [|simpl in Hlen; lia]. simpl. repeat split; auto; discriminate.
  - destruct s as [|c r]; [simpl; repeat split; auto; discriminate|].
    destruct r as [|d r'].
    + simpl. repeat split; auto; discriminate.
    + change (removeClassBracket cls (String c (String d r')))
        with (if cls c && Ascii.eqb d "]" then removeClassBracket cls r'
              else String c (removeClassBracket cls (String d r'))).
      change (hasBracketPair cls (String c (String d r')))
        with ((cls c && Ascii.eqb d "]") || hasBracketPair cls (String d r')).
      simpl in Hlen.
      destruct (IH r' ltac:(lia)) as (L1 & _ & _).
      destruct (IH (String d r') ltac:(simpl; lia)) as (L2 & S2 & F2).
      destruct (cls c && Ascii.eqb d "]"); simpl orb; cbn [String.length] in *.
      * repeat split; try lia; discriminate.
      * repeat split; try lia.
        -- intros H. apply S2 in H. lia.
        -- intros H. rewrite (F2 H). reflexivity.
Qed.

(** X17. [sanitizeFilePath] of the parser returns a path unchanged
    exactly when no character of [; & | ` $ ( ) { } \ []] is directly
    followed by a closing bracket and the path neither starts nor ends
    with white space; every other path is rejected. A metacharacter that
    is not followed by a closing bracket does not make a path fail. *)
Theorem sanitizeFilePath_spec (filePath : string) :
  (hasBracketPair filePathClass filePath = false -> padded filePath = false ->
   sanitizeFilePath filePath = Ok filePath) /\
  (hasBracketPair filePathClass filePath = true \/ padded filePath = true ->
   sanitizeFilePath filePath = Err "Invalid characters in file path").
Proof.
  destruct (removeClassBracket_facts filePathClass (String.length filePath)
              filePath (le_n _)) as (Hle & Hlt & Hfix).
  unfold sanitizeFilePath. split.
  - intros Hp Hpad. rewrite (Hfix Hp).
    apply trim_fixed in Hpad. rewrite Hpad, String.eqb_refl. reflexivity.
  - intros [Hp|Hpad].
    + rewrite eqb_length_neq; [reflexivity|].
      pose proof (Hlt Hp).
      pose proof (trim_length (removeClassBracket filePathClass filePath)). lia.
    + destruct (String.eqb _ filePath) eqn:E; [|reflexivity].
      apply String.eqb_eq in E.
      destruct (hasBracketPair filePathClass filePath) eqn:Hp.
      * pose proof (Hlt eq_refl).
        pose proof (trim_length (removeClassBracket filePathClass filePath)).
        rewrite E in *. lia.
      * rewrite (Hfix eq_refl) in E. apply trim_fixed in E. congruence.
Qed.

Lemma sanitizeFilePath_spec_witness :
  sanitizeFilePath "src/app/[id]/page;v2.tsx" = Ok "src/app/[id]/page;v2.tsx" /\
  sanitizeFilePath "types/list[].d.ts" = Err "Invalid characters in file path".
Proof.
  split.
  - apply (proj1 (sanitizeFilePath_spec "src/app/[id]/page;v2.tsx")); reflexivity.
  - apply (proj2 (sanitizeFilePath_spec "types/list[].d.ts")). left. reflexivity.
Defined.

(* ------------------------------------------------------------------ *)
(** ** The shape of a commit *)

Lemma trimStart_firstWs (s : string) : firstWs (JS.trimStart s) = false.
Proof.
  induction s as [|c s IH]; [reflexivity|]. simpl.
  destruct (JS.is_ws c) eqn:E; [exact IH | simpl; exact E].
Qed.

Lemma trimEnd_firstWs (s : string) :
  firstWs s = false -> firstWs (JS.trimEnd s) = false.
Proof.
  destruct s as [|c s]; [reflexivity|]. simpl. intros Hc. rewrite Hc. simpl. exact Hc.
Qed.

Lemma trimEnd_lastWs (s : string) : lastWs (JS.trimEnd s) = false.
Proof.
  induction s as [|c s IH]; [reflexivity|].
  change (JS.trimEnd (String c s))
    with (if JS.is_ws c && JS.is_empty (JS.trimEnd s)
          then EmptyString else String c (JS.trimEnd s)).
  destruct (JS.is_ws c) eqn:Ec; simpl andb.
  - destruct (JS.trimEnd s) eqn:E; [reflexivity|]. simpl JS.is_empty. cbv iota.
    exact IH.
  - destruct (JS.trimEnd s) eqn:E; [simpl; exact Ec | exact IH].
Qed.

Lemma trim_not_padded (s : string) : padded (JS.trim s) = false.
Proof.
  unfold padded, JS.trim.
  rewrite trimEnd_firstWs by apply trimStart_firstWs.
  rewrite trimEnd_lastWs. reflexivity.
Qed.

Lemma newCommit_shape (parts : list string) : commitShape (newCommit parts).
Proof.
  unfold commitShape, newCommit. cbn [message author authorEmail date tags].
  split; [|split; [|split]]; try apply trim_not_padded. reflexivity.
Qed.

Lemma recordFile_shape (stats p : string) (current : CommitData) (files : FileMap) :
  commitShape current -> commitShape (fst (recordFile stats p current files)).
Proof. unfold recordFile. destruct (mapGet p files); exact (fun H => H). Qed.

Lemma loopBody_shape (lines : list string) (st : ParseState) :
  Forall commitShape (flush (currentCommit st) (commits st)) ->
  Forall commitShape (flush (currentCommit (loopBody lines st))
                            (commits (loopBody lines st))).
Proof.
  intros H. rewrite flush_openList in H. apply Forall_app in H.
  destruct H as [Hc Ho].
  destruct (isCommitLine (JS.trim (nth (index st) lines ""))) eqn:Eh.
  - unfold loopBody. rewrite Eh, (isCommitLine_five _ Eh).
    cbn [currentCommit commits]. rewrite !flush_openList.
    repeat (apply Forall_app; split); try assumption.
    constructor; [apply newCommit_shape | constructor].
  - rewrite flush_openList. apply Forall_app.
    unfold loopBody. rewrite Eh.
    destruct (currentCommit st) as [current|]; [|split; assumption].
    inversion Ho; subst.
    destruct (negb _ && matchNumstat _); [|split; assumption].
    destruct (3 <=? _)%nat; [|split; assumption].
    destruct (sanitizeFilePath _) as [sp|]; [|split; assumption].
    pose proof (recordFile_shape
                  (nth 0 (JS.split tab (JS.trim (nth (index st) lines ""))) "")
                  sp current (fileMap st)) as Hs.
    destruct (recordFile _ sp current (fileMap st)) as [c' m'].
    cbn [currentCommit commits openList fst] in *.
    split; [assumption|]. constructor; [auto | constructor].
Qed.

(** X18. Whenever the parser returns, every commit has a subject, an
    author and an email without white space at either end and an empty
    list of tags: the parser never fills [tags]. *)
Theorem parseLines_commitShape (fuel : nat) (logOutput : string) (st : ParseState) :
  parseLines fuel logOutput = Some st ->
  forall c, In c (commits st) -> commitShape c.
Proof.
  unfold parseLines.
  destruct (parseLoop fuel _ initialState) as [st0|] eqn:Hrun; [|discriminate].
  intros [= <-]. cbn [commits]. apply Forall_forall.
  eapply (parseLoop_invariant
            (fun s => Forall commitShape (flush (currentCommit s) (commits s))));
    [| |exact Hrun].
  - intros s _. apply loopBody_shape.
  - constructor.
Qed.

Lemma parseLines_commitShape_witness :
  commitShape
    {| sha := "abc"; message := "late"; author := "A";
       authorEmail := "a@b"; date := Num 144115188075856992;
       filesChanged := []; linesAdded := Num 0; linesDeleted := Num 0;
       tags := [] |}.
Proof.
  destruct (parseLines 5 streamWithLateDates) as [st|] eqn:E.
  - apply (parseLines_commitShape 5 streamWithLateDates st E).
    vm_compute in E. injection E as <-. vm_compute. right. left. reflexivity.
  - vm_compute in E. discriminate E.
Defined.

(** X2's sample: the record of the file touched by three commits. *)
Lemma parseLines_filesOk_witness :
  match parseLines 6 streamThreeCommits with
  | Some st => filesOk (fileMap st)
  | None => False
  end.
Proof.
  destruct (parseLines 6 streamThreeCommits) as [st|] eqn:E.
  - exact (parseLines_filesOk 6 streamThreeCommits st E).
  - vm_compute in E. discriminate E.
Defined.

(* ------------------------------------------------------------------ *)
(** ** The parser route *)

Lemma validateRepository_Ok (w : World) (repoPath p : string) :
  validateRepository w repoPath = Ok p ->
  sanitizeRepositoryPath w repoPath = Ok p.
Proof.
  unfold validateRepository.
  destruct (sanitizeRepositoryPath w repoPath) as [r|]; simpl; [|discriminate].
  destruct (access w r) as [[]|]; simpl; [|discriminate]. congruence.
Qed.

(** X16. For a repository path that passed validation, in a process
    whose working directory is absolute, the second sanitization inside
    [parseGitLog] never fails. Above 50 MiB the route answers 500 with
    the too-large message and starts nothing; otherwise it starts the
    log command in the validated directory, and when that command fails
    the route answers 500 with the error of the command. Every error
    answer of the route for such a path is one of these two. *)
Theorem POST_parse_errors (fuel : nat) (w : World) (repositoryPath repositoryId p : string) :
  NodePath.isAbsolute (cwd w) = true ->
  repositoryPath <> "" -> repositoryId <> "" ->
  validateRepository w repositoryPath = Ok p ->
  (sizeBytes (checkRepositorySize w p) > 50 * 1024 * 1024 ->
   ParseRoute.POST fuel w (Some repositoryPath) (Some repositoryId)
   = ([], Returns (RespError 500 "Failed to parse git repository"
                     (Some (tooLargeMessage (sizeBytes (checkRepositorySize w p))))))) /\
  (sizeBytes (checkRepositorySize w p) <= 50 * 1024 * 1024 ->
   forall msg,
     exec w (logCommand (Z.min (estimatedCommits (checkRepositorySize w p)) 1000)) p
     = Err msg ->
     ParseRoute.POST fuel w (Some repositoryPath) (Some repositoryId)
     = ([(logCommand (Z.min (estimatedCommits (checkRepositorySize w p)) 1000), p)],
        Returns (RespError 500 "Failed to parse git repository" (Some msg)))) /\
  (forall tr status error details,
     ParseRoute.POST fuel w (Some repositoryPath) (Some repositoryId)
     = (tr, Returns (RespError status error details)) ->
     status = 500 /\
     ((tr = [] /\
       details = Some (tooLargeMessage (sizeBytes (checkRepositorySize w p)))) \/
      (exists msg,
         exec w (logCommand (Z.min (estimatedCommits (checkRepositorySize w p)) 1000)) p
         = Err msg /\
         details = Some msg /\
         tr = [(logCommand (Z.min (estimatedCommits (checkRepositorySize w p)) 1000), p)]))).
Proof.
  intros Hcwd Hrp Hrid Hval.
  pose proof (sanitizeRepositoryPath_again w repositoryPath p Hcwd
                (validateRepository_Ok _ _ _ Hval)) as Hagain.
  assert (Hpost :
    ParseRoute.POST fuel w (Some repositoryPath) (Some repositoryId)
    = match parseGitLog fuel w p with
      | (tr, Returns data) => (tr, Returns (RespParsed repositoryId data))
      | (tr, Throws msg) =>
          (tr, Returns (RespError 500 "Failed to parse git repository" (Some msg)))
      | (tr, OutOfFuel) => (tr, OutOfFuel)
      end).
  { unfold ParseRoute.POST.
    destruct repositoryPath as [|c0 r0]; [congruence|].
    destruct repositoryId as [|c1 r1]; [congruence|].
    simpl JS.is_empty. simpl orb. cbv iota. rewrite Hval. reflexivity. }
  rewrite Hpost. unfold parseGitLog. rewrite Hagain. unfold MAX_COMMITS.
  split; [|split].
  - intros Hsize.
    replace (sizeBytes (checkRepositorySize w p) >? MAX_REPO_SIZE) with true;
      [reflexivity|].
    symmetry. apply Z.gtb_lt. unfold MAX_REPO_SIZE. lia.
  - intros Hsize msg Hexec.
    replace (sizeBytes (checkRepositorySize w p) >? MAX_REPO_SIZE) with false.
    2:{ symmetry. rewrite Z.gtb_ltb. apply Z.ltb_ge. unfold MAX_REPO_SIZE. lia. }
    rewrite Hexec. reflexivity.
  - intros tr status error details.
    destruct (sizeBytes (checkRepositorySize w p) >? MAX_REPO_SIZE).
    + intros [= <- <- <- <-]. split; [reflexivity|]. left. split; reflexivity.
    + destruct (exec w _ p) as [[out err]|msg] eqn:Hexec.
      * destruct (parseLines fuel out); discriminate.
      * intros [= <- <- <- <-]. split; [reflexivity|]. right.
        exists msg. repeat split; reflexivity.
Qed.

Lemma POST_parse_errors_witness :
  ParseRoute.POST 4 (worldPrinting (packOf 60000000) "") (Some "/tmp/repo") (Some "r1")
  = ([], Returns (RespError 500 "Failed to parse git repository"
                    (Some "Repository too large (57MB). Maximum allowed: 50MB"))) /\
  ParseRoute.POST 4 bareWorld (Some "/tmp/repo") (Some "r1")
  = ([(logCommand 0, "/tmp/repo")],
     Returns (RespError 500 "Failed to parse git repository"
                (Some "fatal: not a git repository"))).
Proof.
  split.
  - apply (POST_parse_errors 4 (worldPrinting (packOf 60000000) "")
             "/tmp/repo" "r1" "/tmp/repo" eq_refl).
    + discriminate.
    + discriminate.
    + reflexivity.
    + reflexivity.
  - apply (POST_parse_errors 4 bareWorld "/tmp/repo" "r1" "/tmp/repo" eq_refl).
    + discriminate.
    + discriminate.
    + reflexivity.
    + discriminate.
    + reflexivity.
Defined.

(* ------------------------------------------------------------------ *)
(** ** The command path of the gateway *)

(** X19. [POST] of the gateway starts at most one subprocess, whatever
    the request. When it starts one, the request carries a command and a
    path that are not empty, the command run is the submitted text as it
    stands, it starts with an entry of the white list, and it runs in
    the directory that the submitted path was validated to. A request
    whose command or path is missing or empty, whose path is refused or
    whose command is off the list starts nothing. *)
Theorem POST_single_command (w : World) (repositoryId : string)
        (command repoPath : option string) :
  (fst (LogRoute.POST w repositoryId command repoPath) = [] \/
   exists cmd path p,
     fst (LogRoute.POST w repositoryId command repoPath) = [(cmd, p)] /\
     command = Some cmd /\ cmd <> "" /\
     repoPath = Some path /\ path <> "" /\
     (exists allowed, In allowed LogRoute.allowedCommands /\
                      String.prefix allowed cmd = true) /\
     validateRepository w path = Ok p) /\
  (command = None \/ command = Some "" \/ repoPath = None \/ repoPath = Some "" ->
   fst (LogRoute.POST w repositoryId command repoPath) = []) /\
  (forall path msg,
     repoPath = Some path -> validateRepository w path = Err msg ->
     fst (LogRoute.POST w repositoryId command repoPath) = []) /\
  (forall cmd,
     command = Some cmd ->
     (forall allowed, In allowed LogRoute.allowedCommands ->
                      String.prefix allowed cmd = false) ->
     fst (LogRoute.POST w repositoryId command repoPath) = []).
Proof.
  unfold LogRoute.POST. split; [|split; [|split]].
  - destruct repoPath as [[|a path]|]; try (left; reflexivity).
    destruct command as [[|c cmd]|]; try (left; reflexivity).
    cbn [truthy JS.is_empty negb orb LogRoute.orElse].
    destruct (validateRepository w (String a path)) as [p|] eqn:Ev;
      [|left; reflexivity].
    destruct (LogRoute.isAllowed (String c cmd)) eqn:Ea; simpl negb; cbv iota;
      [|left; reflexivity].
    right. exists (String c cmd), (String a path), p.
    split; [destruct (exec w _ p) as [[out err]|]; reflexivity|].
    split; [reflexivity|]. split; [discriminate|].
    split; [reflexivity|]. split; [discriminate|].
    split; [|exact Ev].
    apply existsb_exists in Ea. exact Ea.
  - intros [ -> | [ -> | [ -> | -> ] ] ];
      try (destruct repoPath as [[|a path]|]; reflexivity);
      destruct command as [[|c cmd]|]; reflexivity.
  - intros path msg -> Ev.
    destruct path as [|a path]; [reflexivity|].
    destruct command as [[|c cmd]|]; try reflexivity.
    cbn [truthy JS.is_empty negb orb LogRoute.orElse]. rewrite Ev. reflexivity.
  - intros cmd -> Hoff.
    destruct repoPath as [[|a path]|]; try reflexivity.
    destruct cmd as [|c cmd]; [reflexivity|].
    cbn [truthy JS.is_empty negb orb LogRoute.orElse].
    destruct (validateRepository w (String a path)) as [p|]; [|reflexivity].
    replace (LogRoute.isAllowed (String c cmd)) with false; [reflexivity|].
    symmetry. apply not_true_iff_false. intros Ea.
    apply existsb_exists in Ea. destruct Ea as (allowed & Hin & Hp).
    unfold JS.startsWith in Hp. rewrite (Hoff allowed Hin) in Hp. discriminate Hp.
Qed.

(** A request without path, one with an empty path and one that asks
    for [git push] start nothing, also where the working directory of
    the server would pass validation. *)
Lemma POST_single_command_witness :
  validateRepository (worldPrinting (fun _ => None) "") "" = Ok "/srv/app" /\
  fst (LogRoute.POST (worldPrinting (fun _ => None) "") "r1" (Some "git log") None)
  = [] /\
  fst (LogRoute.POST (worldPrinting (fun _ => None) "") "r1" (Some "git log") (Some ""))
  = [] /\
  fst (LogRoute.POST (worldPrinting (fun _ => None) "") "r1"
         (Some "git push origin main") (Some "/tmp/repo"))
  = [].
Proof.
  split; [reflexivity|]. split; [|split].
  - apply (proj1 (proj2 (POST_single_command (worldPrinting (fun _ => None) "")
                           "r1" (Some "git log") None))).
    right. right. left. reflexivity.
  - apply (proj1 (proj2 (POST_single_command (worldPrinting (fun _ => None) "")
                           "r1" (Some "git log") (Some "")))).
    right. right. right. reflexivity.
  - apply (proj2 (proj2 (proj2 (POST_single_command
                                  (worldPrinting (fun _ => None) "") "r1"
                                  (Some "git push origin main") (Some "/tmp/repo"))))
             "git push origin main" eq_refl).
    intros allowed Hin.
    repeat (destruct Hin as [<-|Hin]; [reflexivity|]). destruct Hin.
Defined.

(* ------------------------------------------------------------------ *)
(** ** The traversal check of the enrichment *)

Lemma split_append_separator (sep : ascii) (a b : string) :
  JS.split sep (a ++ String sep b) = (JS.split sep a ++ JS.split sep b)%list.
Proof.
  induction a as [|c a IH]; simpl.
  - rewrite Ascii.eqb_refl. reflexivity.
  - destruct (Ascii.eqb c sep); rewrite IH; [reflexivity|].
    destruct (JS.split sep a) as [|h t] eqn:E; [|reflexivity].
    exfalso. eapply split_nonempty. exact E.
Qed.

Lemma normalizeSegments_app (b : bool) (acc xs ys : list string) :
  NodePath.normalizeSegments b acc (xs ++ ys)
  = NodePath.normalizeSegments b (rev (NodePath.normalizeSegments b acc xs)) ys.
Proof.
  revert acc. induction xs as [|s xs IH]; intros acc.
  - simpl. rewrite rev_involutive. reflexivity.
  - cbn [app NodePath.normalizeSegments].
    destruct (String.eqb s "" || String.eqb s "."); [apply IH|].
    destruct (String.eqb s ".."); [|apply IH].
    destruct acc as [|top acc']; [apply IH|].
    destruct (String.eqb top ".."); apply IH.
Qed.

Lemma normalizeSegments_no_parent (b : bool) (acc ks : list string) :
  ~ In ".." ks ->
  NodePath.normalizeSegments b acc ks = (rev acc ++ filter keptSegment ks)%list.
Proof.
  revert acc. induction ks as [|s ks IH]; intros acc Hno; simpl.
  - rewrite app_nil_r. reflexivity.
  - assert (Hs : String.eqb s ".." = false).
    { apply String.eqb_neq. intros ->. apply Hno. left. reflexivity. }
    assert (Hks : ~ In ".." ks) by (intros H; apply Hno; right; exact H).
    unfold keptSegment at 1.
    destruct (String.eqb s "" || String.eqb s "."); simpl negb; cbv iota.
    + apply IH, Hks.
    + rewrite Hs, IH by exact Hks. simpl. rewrite <- app_assoc. reflexivity.
Qed.

Lemma kept_pieces_clean (k : string) :
  ~ In ".." (JS.split "/" k) ->
  Forall (fun s => cleanSegment s = true) (filter keptSegment (JS.split "/" k)).
Proof.
  intros Hno. apply Forall_forall. intros s Hs. apply filter_In in Hs.
  destruct Hs as [Hin Hkept].
  unfold keptSegment in Hkept. apply negb_true_iff, orb_false_iff in Hkept.
  destruct Hkept as [H0 H1].
  unfold cleanSegment, noSlash. rewrite H0, H1.
  rewrite (split_pieces_without "/" k s Hin).
  replace (String.eqb s "..") with false; [reflexivity|].
  symmetry. apply String.eqb_neq. intros ->. exact (Hno Hin).
Qed.

Lemma absolutePath_prefix (segs more : list string) :
  String.prefix (absolutePath segs) (absolutePath (segs ++ more)) = true.
Proof.
  unfold absolutePath.
  change ("/" ++ JS.join "/" segs) with (String "/" (JS.join "/" segs)).
  change ("/" ++ JS.join "/" (segs ++ more))
    with (String "/" (JS.join "/" (segs ++ more))).
  cbn [String.prefix]. destruct (ascii_dec "/" "/"); [|congruence].
  induction segs as [|a segs IH].
  - simpl. destruct (JS.join "/" more); reflexivity.
  - destruct segs as [|b segs].
    + simpl app. destruct more as [|m more]; [apply prefix_refl|].
      change (JS.join "/" (a :: m :: more)) with (a ++ "/" ++ JS.join "/" (m :: more)).
      apply prefix_app.
    + change (JS.join "/" (a :: b :: segs)) with (a ++ String "/" (JS.join "/" (b :: segs))).
      change (JS.join "/" ((a :: b :: segs) ++ more))
        with (a ++ String "/" (JS.join "/" ((b :: segs) ++ more))).
      clear - IH. induction a as [|x a IHa]; simpl.
      * destruct (ascii_dec "/" "/"); [exact IH | congruence].
      * destruct (ascii_dec x x); [exact IHa | congruence].
Qed.

Lemma prefix_empty (s : string) : String.prefix "" s = true.
Proof. destruct s; reflexivity. Qed.

Lemma absolutePath_isAbsolute (segs : list string) (x : string) :
  NodePath.isAbsolute (absolutePath segs ++ x) = true.
Proof.
  unfold NodePath.isAbsolute, JS.startsWith, absolutePath.
  change (("/" ++ JS.join "/" segs) ++ x) with (String "/" (JS.join "/" segs ++ x)).
  cbn [String.prefix]. destruct (ascii_dec "/" "/"); [apply prefix_empty | congruence].
Qed.

(** [path.resolve] of a resolved path that may end with a separator. *)
Lemma resolve_absolutePath (cwd : string) (segs : list string) (slash : bool) :
  Forall (fun s => cleanSegment s = true) segs ->
  NodePath.resolve cwd (absolutePath segs ++ (if slash then "/" else ""))
  = absolutePath segs.
Proof.
  intros Hall. unfold NodePath.resolve.
  pose proof (absolutePath_isAbsolute segs) as Hstart.
  assert (Hne : forall x, JS.is_empty (absolutePath segs ++ x) = false)
    by (intros x; reflexivity).
  rewrite Hne, Hstart. simpl orb. simpl negb. cbv iota.
  unfold NodePath.normalizeString.
  destruct slash.
  - rewrite !split_trailing_separator, !normalizeSegments_trailing_empty.
    rewrite (proj1 (split_absolutePath segs Hall)). reflexivity.
  - rewrite append_empty_r.
    rewrite split_trailing_separator, normalizeSegments_trailing_empty.
    rewrite (proj1 (split_absolutePath segs Hall)). reflexivity.
Qed.

Lemma join_under_root (cwd : string) (segs : list string) (k : string) :
  Forall (fun s => cleanSegment s = true) segs ->
  ~ In ".." (JS.split "/" k) ->
  NodePath.resolve cwd (NodePath.join (absolutePath segs) k)
  = absolutePath (segs ++ filter keptSegment (JS.split "/" k)).
Proof.
  intros Hall Hno.
  pose proof (kept_pieces_clean k Hno) as Hk.
  assert (Hclean : Forall (fun s => cleanSegment s = true)
                          (segs ++ filter keptSegment (JS.split "/" k)))
    by (apply Forall_app; split; assumption).
  unfold NodePath.join. change (JS.is_empty (absolutePath segs)) with false.
  cbv iota.
  destruct k as [|c k'].
  - cbn [JS.is_empty]. cbv iota.
    change (JS.is_empty (absolutePath segs)) with false. cbv iota.
    simpl JS.split. simpl filter. rewrite app_nil_r. apply absolutePath_fixed, Hall.
  - cbn [JS.is_empty]. cbv iota. set (k := String c k') in *.
    change (JS.is_empty (absolutePath segs ++ "/" ++ k)) with false. cbv iota.
    assert (Hnorm : exists slash : bool,
              NodePath.normalize (absolutePath segs ++ "/" ++ k)
              = absolutePath (segs ++ filter keptSegment (JS.split "/" k))
                ++ (if slash then "/" else "")).
    { unfold NodePath.normalize.
      change (JS.is_empty (absolutePath segs ++ "/" ++ k)) with false. cbv iota.
      rewrite absolutePath_isAbsolute.
      simpl negb. unfold NodePath.normalizeString.
      change (absolutePath segs ++ "/" ++ k)
        with (absolutePath segs ++ String "/" k).
      rewrite split_append_separator, normalizeSegments_app.
      rewrite (proj1 (split_absolutePath segs Hall)).
      rewrite normalizeSegments_no_parent by exact Hno.
      rewrite rev_involutive.
      set (all := (segs ++ filter keptSegment (JS.split "/" k))%list) in *.
      destruct all as [|a rest] eqn:Eall.
      - simpl JS.join. simpl JS.is_empty. cbv iota. exists false. reflexivity.
      - destruct (join_no_trailing_separator (a :: rest)) as [_ Hnon];
          [discriminate | exact Hclean |].
        rewrite Hnon.
        exists (JS.endsWithChar (absolutePath segs ++ String "/" k) "/").
        unfold absolutePath.
        destruct (JS.endsWithChar _ "/"); reflexivity. }
    destruct Hnorm as [slash Hnorm]. rewrite Hnorm.
    apply resolve_absolutePath, Hclean.
Qed.

(** X20. In a process whose working directory is absolute, a recorded
    path without [..] segment always passes the traversal check of the
    size and complexity pass under a sanitized repository root: the file
    is never skipped, and its record leaves the pass with a complexity. *)
Theorem enrichFile_never_skips (w : World) (repoPath root filePath : string)
        (fileData : FileData) :
  NodePath.isAbsolute (cwd w) = true ->
  sanitizeRepositoryPath w repoPath = Ok root ->
  ~ In ".." (JS.split "/" filePath) ->
  JS.startsWith (NodePath.resolve (cwd w) (NodePath.join root filePath)) root = true /\
  exists c, maxComplexity (snd (enrichFile w root (filePath, fileData))) = Some c.
Proof.
  intros Hcwd Hroot Hno.
  assert (Hr : root = NodePath.resolve (cwd w) (NodePath.normalize repoPath)).
  { unfold sanitizeRepositoryPath in Hroot.
    destruct (negb _); [discriminate|].
    destruct (_ || _); [discriminate|]. congruence. }
  destruct (resolve_form (cwd w) (NodePath.normalize repoPath) Hcwd)
    as (segs & Hform & Hclean).
  assert (Hstart : JS.startsWith
                     (NodePath.resolve (cwd w) (NodePath.join root filePath)) root
                   = true).
  { rewrite Hr, Hform, (join_under_root _ _ _ Hclean Hno).
    apply absolutePath_prefix. }
  split; [exact Hstart|].
  unfold enrichFile. rewrite Hstart. simpl negb. cbv iota.
  destruct (stat w _) as [size|]; [|eexists; reflexivity].
  destruct (size >? 1024 * 1024); [eexists; reflexivity|].
  destruct (readFile w _); eexists; reflexivity.
Qed.

Lemma enrichFile_never_skips_witness :
  JS.startsWith
    (NodePath.resolve (cwd (worldWithFile ""))
       (NodePath.join "/tmp/repo" "src/./a.ts")) "/tmp/repo" = true /\
  exists c,
    maxComplexity
      (snd (enrichFile (worldWithFile "") "/tmp/repo"
              ("src/./a.ts",
               {| path := "src/./a.ts"; extension := ".ts";
                  firstSeen := Num 1; lastModified := Num 1;
                  totalChanges := 1; currentSize := 0; isDeleted := false;
                  language := Some "typescript"; maxComplexity := None;
                  avgComplexity := None; primaryAuthors := None |}))) = Some c.
Proof.
  apply (enrichFile_never_skips (worldWithFile "") "/tmp/work/../repo" "/tmp/repo").
  - reflexivity.
  - reflexivity.
  - vm_compute. intros [H|[H|[H|[]]]]; discriminate H.
Defined.
